(** * 2D heat diffusion: the CUDA backend and the validation harness

    A shallow embedding of
    - [cuda_heat.py] (the CUDA program it writes to [cuda_heat.cu]): the
      stencil kernel, the kernel launch, the time-stepping loop of [main]
      and its report on standard output;
    - [error anaylsis/heat_error_analysis.py]: [load_heat_data],
      [calculate_errors], [generate_error_report] and [main];
    - the part of [heat_demo.py] that launches a backend and reads its
      output.

    Modelling conventions.
    - A C [double] and a NumPy [float64] are modelled by a real number
      where a property moves, compares or selects values, or states the
      formula that is evaluated: arithmetic is exact there, and rounding,
      infinities and NaN are not modelled.  Where a property depends on the
      rounding, the [double] is a binary64 number with the operations of the
      machine ([Binary64]).
    - A character of a Python string is a code point below 256.
    - A C [int] is an integer in [Z]; every [int] operation wraps to 32 bits
      ([int_wrap]), every [unsigned] operation wraps with [uint_wrap].
    - A device buffer is a list of reals; a device pointer names one of the
      two allocations of [main].
    - A Python exception is an explicit outcome ([Raises]); standard output
      is a list of lines threaded through the functions that print. *)

From Stdlib Require Import Ascii String.
From Stdlib Require Import ZArith List Lia Bool Permutation.
From Stdlib Require Import Reals Lra Psatz.
From Stdlib Require QArith Floats.
Import ListNotations.

(** ** Machine integers *)

Module MachineInt.
Open Scope Z_scope.

Definition INT_MAX : Z := 2147483647.

(** Two's complement wrap of a mathematical integer to a 32-bit [int]. *)
Definition int_wrap (z : Z) : Z := (z + 2 ^ 31) mod 2 ^ 32 - 2 ^ 31.

(** Wrap to a 32-bit [unsigned int]. *)
Definition uint_wrap (z : Z) : Z := z mod 2 ^ 32.

Definition iadd (a b : Z) : Z := int_wrap (a + b).
Definition isub (a b : Z) : Z := int_wrap (a - b).
Definition imul (a b : Z) : Z := int_wrap (a * b).

Definition uadd (a b : Z) : Z := uint_wrap (a + b).
Definition usub (a b : Z) : Z := uint_wrap (a - b).
Definition umul (a b : Z) : Z := uint_wrap (a * b).
Definition udiv (a b : Z) : Z := uint_wrap a / uint_wrap b.

(** Conversion of an [unsigned] value to [int]. *)
Definition int_of_uint (z : Z) : Z := int_wrap z.

End MachineInt.

(** ** The CUDA backend ([cuda_heat.py]) *)

Module Cuda.
Import MachineInt.
Open Scope Z_scope.

(** [#define IDX(i,j,N) ((i)*(N)+(j))], on [int]. *)
Definition IDX (i j N : Z) : Z := iadd (imul i N) j.

(** [dim3], of which the program uses the [x] and [y] components only. *)
Record dim3 : Set := Dim3 { x : Z; y : Z }.

(** *** Device memory *)

(** [main] allocates two device buffers; a device pointer is the name of
    one of them. *)
Inductive dptr : Set := BufA | BufB.

Record dmem : Type := DMem { bufA : list R; bufB : list R }.

Definition load (m : dmem) (p : dptr) : list R :=
  match p with BufA => bufA m | BufB => bufB m end.

Definition store (m : dmem) (p : dptr) (l : list R) : dmem :=
  match p with
  | BufA => {| bufA := l; bufB := bufB m |}
  | BufB => {| bufA := bufA m; bufB := l |}
  end.

(** [a[k]] as an r-value; outside the allocation the read is undefined in C
    and yields [0] here. *)
Definition rd (a : list R) (k : Z) : R :=
  if k <? 0 then 0%R else nth (Z.to_nat k) a 0%R.

Fixpoint upd (n : nat) (v : R) (a : list R) : list R :=
  match a, n with
  | [], _ => []
  | _ :: t, O => v :: t
  | h :: t, S n' => h :: upd n' v t
  end.

(** [a[k] = v]; outside the allocation the write is undefined in C and
    does nothing here. *)
Definition wr (a : list R) (k : Z) (v : R) : list R :=
  if k <? 0 then a else upd (Z.to_nat k) v a.

(** *** The kernel *)

(** The body of [update_kernel] for the thread [threadIdx] of the block
    [blockIdx]. *)
Definition update_kernel (blockIdx blockDim threadIdx : dim3)
    (u uNew : dptr) (Nx Ny : Z) (dx dy alpha dt : R) (m : dmem) : dmem :=
  let i := int_of_uint (uadd (uadd (umul (x blockIdx) (x blockDim)) (x threadIdx)) 1) in
  let j := int_of_uint (uadd (uadd (umul (y blockIdx) (y blockDim)) (y threadIdx)) 1) in
  if (i <? isub Nx 1) && (j <? isub Ny 1) then
    let U := load m u in
    let uxx := ((rd U (IDX (iadd i 1) j Ny) - 2 * rd U (IDX i j Ny)
                 + rd U (IDX (isub i 1) j Ny)) / (dx * dx))%R in
    let uyy := ((rd U (IDX i (iadd j 1) Ny) - 2 * rd U (IDX i j Ny)
                 + rd U (IDX i (isub j 1) Ny)) / (dy * dy))%R in
    store m uNew
      (wr (load m uNew) (IDX i j Ny)
          (rd U (IDX i j Ny) + alpha * dt * (uxx + uyy))%R)
  else m.

(** *** The launch *)

Definition zrange (n : Z) : list Z := map Z.of_nat (seq 0 (Z.to_nat n)).

(** A thread of a launch: its block index and its index in the block. *)
Definition thread : Set := (dim3 * dim3)%type.

(** All threads of [<<<grid, block>>>]. *)
Definition grid_threads (grid block : dim3) : list thread :=
  flat_map (fun bx =>
  flat_map (fun by_ =>
  flat_map (fun tx =>
  map (fun ty => (Dim3 bx by_, Dim3 tx ty)) (zrange (y block)))
    (zrange (x block))) (zrange (y grid))) (zrange (x grid)).

(** [update_kernel<<<grid, block>>>(u, uNew, ...)], its threads run one
    after the other in the order [sched]. *)
Definition launch (sched : list thread) (block : dim3) (u uNew : dptr)
    (Nx Ny : Z) (dx dy alpha dt : R) (m : dmem) : dmem :=
  fold_left
    (fun m t => update_kernel (fst t) block (snd t) u uNew Nx Ny dx dy alpha dt m)
    sched m.

(** [dim3 block(16, 16)]. *)
Definition block : dim3 := Dim3 16 16.

(** [dim3 grid((Nx-2+block.x-1)/block.x, (Ny-2+block.y-1)/block.y)]; the
    sums are [unsigned] because [block.x] is. *)
Definition grid (Nx Ny : Z) : dim3 :=
  Dim3 (udiv (usub (uadd (isub Nx 2) (x block)) 1) (x block))
       (udiv (usub (uadd (isub Ny 2) (y block)) 1) (y block)).

(** A schedule of one launch: the threads of the grid in any order. *)
Definition schedule (Nx Ny : Z) (sched : list thread) : Prop :=
  Permutation sched (grid_threads (grid Nx Ny) block).

(** *** [main]: parameters *)

(** [dx = Lx/(Nx-1)]: the [int] difference converted to [double].  Here and
    in [time_step] the quotient is the exact one; the doubles the machine
    computes are [Binary64.spacing] and [Binary64.time_step]. *)
Definition spacing (L : R) (N : Z) : R := (L / IZR (isub N 1))%R.

(** [dt = 0.25 * fmin(dx*dx, dy*dy) / alpha]. *)
Definition time_step (dx dy alpha : R) : R :=
  (0.25 * Rmin (dx * dx) (dy * dy) / alpha)%R.

Definition Lx : R := 1.0%R.
Definition Ly : R := 1.0%R.

(** The initial condition: the two nested loops store
    [exp(-50*(x*x + y*y))] at [u[IDX(i,j,Ny)]], row after row.  The value is
    the exact one; the double stored is its rounding, which the properties
    below do not depend on. *)
Definition initial_value (Nx Ny i j : Z) : R :=
  let dx := spacing Lx Nx in
  let dy := spacing Ly Ny in
  let x := (IZR i * dx - Lx / 2)%R in
  let y := (IZR j * dy - Ly / 2)%R in
  exp (- 50 * (x * x + y * y)).

Definition initial_field (Nx Ny : Z) : list R :=
  flat_map (fun i => map (fun j => initial_value Nx Ny i j) (zrange Ny)) (zrange Nx).

(** *** [main]: the time-stepping loop *)

(** The host's view of the device: the two pointers and the memory. *)
Record host : Type := Host { d_u : dptr; d_uNew : dptr; dev : dmem }.

(** One iteration of the loop: the launch, then the swap of the pointers. *)
Definition time_step_iter (Nx Ny : Z) (dx dy alpha dt : R)
    (sched : list thread) (h : host) : host :=
  {| d_u := d_uNew h;
     d_uNew := d_u h;
     dev := launch sched block (d_u h) (d_uNew h) Nx Ny dx dy alpha dt (dev h) |}.

(** The loop [for (n = 0; n < Nt; n++)], the launch of iteration [n] run in
    the order [nth n scheds]. *)
Definition time_stepping (Nx Ny : Z) (dx dy alpha dt : R)
    (scheds : list (list thread)) (h : host) : host :=
  fold_left (fun h s => time_step_iter Nx Ny dx dy alpha dt s h) scheds h.

(** The device after the two [cudaMalloc] and the [cudaMemcpy] of the
    initial field [u0] into [d_u]: [d_uNew] holds whatever the allocation
    left there, [junk]. *)
Definition device_init (u0 junk : list R) : host :=
  {| d_u := BufA; d_uNew := BufB; dev := {| bufA := u0; bufB := junk |} |}.

(** The field the host reads back: [cudaMemcpy(u, d_u, ...)]. *)
Definition current (h : host) : list R := load (dev h) (d_u h).

(** Cell [(i,j)] of a row-major field with [Ny] columns. *)
Definition cell (U : list R) (Ny i j : Z) : R := rd U (i * Ny + j).

(** The cell a thread of the launch works on. *)
Definition thread_i (t : thread) : Z := x (fst t) * x block + x (snd t) + 1.
Definition thread_j (t : thread) : Z := y (fst t) * y block + y (snd t) + 1.

(** The value one explicit step gives cell [(i,j)] from the field [U]. *)
Definition stencil (U : list R) (Ny : Z) (dx dy alpha dt : R) (i j : Z) : R :=
  (cell U Ny i j
   + alpha * dt *
     ((cell U Ny (i + 1) j - 2 * cell U Ny i j + cell U Ny (i - 1) j) / (dx * dx)
      + (cell U Ny i (j + 1) - 2 * cell U Ny i j + cell U Ny i (j - 1)) / (dy * dy)))%R.

(** *** [main] *)

(** A call of [printf]: the format and the [double] arguments. *)
Record printf_call : Type := Printf { format : string; args : list R }.

(** What a run of the program leaves: the parameters it ran with, the field
    read back from the device, the calls of [printf] in order and the exit
    code. *)
Record run : Type := Run {
  run_Nx : Z; run_Ny : Z; run_Nt : Z;
  run_field : list R;
  run_stdout : list printf_call;
  run_exit : Z
}.

(** [int main(int argc, char *argv[])].  What the program does not fix is
    passed in: the command line, the content [junk] left in the allocation of
    [d_uNew], the order [sched n] in which the device runs the threads of
    launch [n], and the time [ms] read by [cudaEventElapsedTime]. *)
Definition main (argc : Z) (argv : list string) (junk : list R)
    (sched : nat -> list thread) (ms : R) : run :=
  let Nx := 200 in
  let Ny := 200 in
  let Nt := 1000 in
  let alpha := 0.0001%R in
  let dx := spacing Lx Nx in
  let dy := spacing Ly Ny in
  let dt := time_step dx dy alpha in
  let u := initial_field Nx Ny in
  let h := time_stepping Nx Ny dx dy alpha dt
             (map sched (seq 0 (Z.to_nat Nt))) (device_init u junk) in
  let elapsed := (ms * 1e-3)%R in
  let u := current h in
  let updates := (IZR Nt * IZR (isub Nx 2) * IZR (isub Ny 2))%R in
  let mlups := (updates / elapsed / 1e6)%R in
  {| run_Nx := Nx; run_Ny := Ny; run_Nt := Nt;
     run_field := u;
     run_stdout :=
       [ Printf "CUDA run (GPU):\n" [];
         Printf "  Time           : %.6f s\n" [elapsed];
         Printf "  Throughput     : %.2f MLUPS\n" [mlups];
         Printf "  u_center (mid) : %f\n" [rd u (IDX (Nx ÷ 2) (Ny ÷ 2) Ny)] ];
     run_exit := 0 |}.

(** Interior and boundary cells of an [Nx] by [Ny] grid. *)
Definition interior (Nx Ny i j : Z) : Prop :=
  1 <= i <= Nx - 2 /\ 1 <= j <= Ny - 2.

Definition boundary (Nx Ny i j : Z) : Prop :=
  0 <= i < Nx /\ 0 <= j < Ny /\ (i = 0 \/ i = Nx - 1 \/ j = 0 \/ j = Ny - 1).

End Cuda.

(** ** The parameters of [main] in binary64 *)

Module Binary64.
Import MachineInt.
Import QArith Floats.
Open Scope float_scope.

(** A C [double]: a binary64 number.  The operations are those of the
    machine, each rounded to the nearest, ties to even. *)
Definition double : Set := float.

(** The conversion of an [int] to [double], which is exact. *)
Definition double_of_int (z : Z) : double :=
  if (z <? 0)%Z then - of_uint63 (Uint63.of_Z (- z))
  else of_uint63 (Uint63.of_Z z).

(** [fmin(a, b)]: the lesser argument, and the other one if one is NaN. *)
Definition fmin (a b : double) : double :=
  if is_nan a then b
  else if is_nan b then a
  else if b <? a then b else a.

(** [double Lx = 1.0, Ly = 1.0; double alpha = 0.0001;]: the literal
    [0.0001] is the double nearest to it. *)
Definition Lx : double := 1.
Definition Ly : double := 1.

#[warnings="-inexact-float"] Definition alpha : double := 0.0001.

(** [dx = Lx/(Nx-1)]: the [int] difference converted to [double]. *)
Definition spacing (L : double) (N : Z) : double :=
  L / double_of_int (isub N 1).

(** [dt = 0.25 * fmin(dx*dx, dy*dy) / alpha]. *)
Definition time_step (dx dy alpha : double) : double :=
  0.25 * fmin (dx * dx) (dy * dy) / alpha.


(** The rational number a finite double is. *)
Definition exact (f : double) : option Q :=
  match Prim2SF f with
  | S754_zero _ => Some 0%Q
  | S754_finite s m e =>
      let v := if (0 <=? e)%Z then inject_Z (Z.pos m * 2 ^ e)
               else Qmake (Z.pos m) (Pos.pow 2 (Z.to_pos (- e))) in
      Some (if s then Qopp v else v)
  | _ => None
  end.



End Binary64.

(** ** Python values shared by the two scripts *)

Module Py.

(** The exceptions the modelled code can meet. *)
Inductive exn : Set :=
| AttributeError    (* [None.shape] *)
| ValueError        (* [int()], [float()], a reduction of an empty array *)
| FileNotFoundError.

(** A call either returns or raises. *)
Inductive outcome (A : Type) : Type :=
| Returns (a : A)
| Raises (e : exn).
Arguments Returns {A} a.
Arguments Raises {A} e.

Definition bind {A B : Type} (o : outcome A) (k : A -> outcome B) : outcome B :=
  match o with
  | Returns a => k a
  | Raises e => Raises e
  end.

(** A string built by an f-string or by [+]: the literal parts and the
    formatted values, in order.  String literals are kept as the source
    writes them ([\n] is the newline); a number is kept with its format
    specification instead of its digits. *)
Inductive piece : Type :=
| Str (s : string)                      (* literal text, [{name}] *)
| Padded (spec : string) (s : string)   (* [{name:<15}] *)
| Shape (sh : nat * nat)                (* [{a.shape}] *)
| Num (spec : string) (v : R).          (* [{v:.6e}] *)

Definition text : Type := list piece.

(** [s * n] on strings. *)
Fixpoint str_mul (s : string) (n : nat) : string :=
  match n with
  | O => EmptyString
  | S n' => String.append s (str_mul s n')
  end.

Definition upper_ascii (c : ascii) : ascii :=
  let n := nat_of_ascii c in
  if (97 <=? n)%nat && (n <=? 122)%nat then ascii_of_nat (n - 32) else c.

(** [s.upper()], on ASCII. *)
Fixpoint upper (s : string) : string :=
  match s with
  | EmptyString => EmptyString
  | String c s' => String (upper_ascii c) (upper s')
  end.

End Py.

(** ** NumPy arrays *)

Module Np.
Import Py.
Open Scope R_scope.

(** A two-dimensional [float64] array: its shape and its elements by
    row-major index. *)
Record ndarray : Type := NDArray { shape : nat * nat; item : nat -> R }.

Definition size (a : ndarray) : nat := (fst (shape a) * snd (shape a))%nat.

(** The elements in row-major order. *)
Definition ravel (a : ndarray) : list R := map (item a) (seq 0 (size a)).

Definition shape_eqb (s t : nat * nat) : bool :=
  (fst s =? fst t)%nat && (snd s =? snd t)%nat.

(** Elementwise operations; the two arrays of a binary operation have one
    shape at every use. *)
Definition subtract (a b : ndarray) : ndarray :=
  {| shape := shape a; item := fun k => item a k - item b k |}.

Definition abs (a : ndarray) : ndarray :=
  {| shape := shape a; item := fun k => Rabs (item a k) |}.

Definition square (a : ndarray) : ndarray :=
  {| shape := shape a; item := fun k => item a k * item a k |}.

(** [a ** 2]. *)
Definition pow2 (a : ndarray) : ndarray :=
  {| shape := shape a; item := fun k => item a k ^ 2 |}.

Definition sub_scalar (a : ndarray) (c : R) : ndarray :=
  {| shape := shape a; item := fun k => item a k - c |}.

Definition zeros_like (a : ndarray) : ndarray :=
  {| shape := shape a; item := fun _ => 0 |}.

(** [a > c], a mask. *)
Definition greater (a : ndarray) (c : R) (k : nat) : bool :=
  if Rlt_dec c (item a k) then true else false.

(** [np.divide(a, b, out=out, where=mask)]: the quotient where the mask
    holds, the element of [out] elsewhere. *)
Definition divide (a b out : ndarray) (mask : nat -> bool) : ndarray :=
  {| shape := shape a;
     item := fun k => if mask k then item a k / item b k else item out k |}.

Definition sum (a : ndarray) : R := fold_right Rplus 0 (ravel a).

(** [np.mean]; of an empty array NumPy gives NaN, which every caller below
    discards by raising at [np.max].  The sum and the quotient are exact:
    what is proved of a mean below holds of its rounding as well. *)
Definition mean (a : ndarray) : R := sum a / INR (size a).

(** [np.max]: raises [ValueError] on an empty array. *)
Definition max (a : ndarray) : outcome R :=
  match ravel a with
  | [] => Raises ValueError
  | x :: l => Returns (fold_left Rmax l x)
  end.

(** [np.std]: the square root of the mean squared deviation from the mean,
    exact as [mean] is. *)
Definition std (a : ndarray) : R :=
  sqrt (mean (square (abs (sub_scalar a (mean a))))).

End Np.

(** ** The validation harness ([heat_error_analysis.py]) *)

Module Harness.
Import Py Np.
Open Scope R_scope.
Open Scope string_scope.
Open Scope list_scope.

(** *** Result files *)

Record metadata : Type := Metadata {
  grid_size : option string;
  time_steps : option Z;
  final_time : option R;
  threads : option Z
}.

(** A result file, by what its readers make of its text: the outcome of the
    loop over the header comments ([ValueError] when [int()] or [float()]
    rejects a value) and the outcome of [pd.read_csv] (the message of the
    exception, or the values of the table). *)
Inductive file : Type :=
| Missing
| Present (header : outcome metadata) (table : string + ndarray).

Definition filesystem : Type := string -> file.

(** [load_heat_data(filename)]: what it prints and what it returns. *)
Definition load_heat_data (fs : filesystem) (filename : string)
  : list text * outcome (option ndarray * option metadata) :=
  match fs filename with
  | Missing =>
      ([[Str "Error: File "; Str filename; Str " not found!"]],
       Returns (None, None))
  | Present header table =>
      match header with
      | Raises e => ([], Raises e)
      | Returns metadata =>
          match table with
          | inr heat_data =>
              ([[Str "Loaded "; Str filename; Str ": Shape ";
                 Shape (shape heat_data)]],
               Returns (Some heat_data, Some metadata))
          | inl e =>
              ([[Str "Error loading "; Str filename; Str ": "; Str e]],
               Returns (None, None))
          end
      end
  end.

(** *** Error metrics *)

Record error_metrics : Type := ErrorMetrics {
  method : string;
  mse : R;
  rmse : R;
  max_absolute_error : R;
  mean_absolute_error : R;
  max_relative_error : R;
  mean_relative_error : R;
  std_absolute_error : R;
  absolute_errors : ndarray;
  relative_errors : ndarray
}.

(** [calculate_errors(reference_data, comparison_data, method_name)]. *)
Definition calculate_errors (reference_data comparison_data : option ndarray)
    (method_name : string) : list text * outcome (option error_metrics) :=
  match reference_data, comparison_data with
  | Some reference_data, Some comparison_data =>
      if negb (shape_eqb (shape reference_data) (shape comparison_data)) then
        ([[Str "Error: Shape mismatch for "; Str method_name];
          [Str "Reference shape: "; Shape (shape reference_data);
           Str ", Comparison shape: "; Shape (shape comparison_data)]],
         Returns None)
      else
        let absolute_errors := Np.abs (subtract reference_data comparison_data) in
        let relative_errors :=
          divide absolute_errors (Np.abs reference_data)
                 (zeros_like absolute_errors)
                 (greater (Np.abs reference_data) 1e-15) in
        let mse := mean (square (subtract reference_data comparison_data)) in
        let rmse := sqrt mse in
        ([],
         bind (Np.max absolute_errors) (fun max_abs_error =>
         let mean_abs_error := mean absolute_errors in
         bind (Np.max relative_errors) (fun max_rel_error =>
         let mean_rel_error := mean relative_errors in
         let std_abs_error := std absolute_errors in
         Returns (Some
           {| method := method_name;
              mse := mse;
              rmse := rmse;
              max_absolute_error := max_abs_error;
              mean_absolute_error := mean_abs_error;
              max_relative_error := max_rel_error;
              mean_relative_error := mean_rel_error;
              std_absolute_error := std_abs_error;
              absolute_errors := absolute_errors;
              relative_errors := relative_errors |}))))
  | _, _ => ([], Returns None)
  end.

(** *** The report *)

(** The entry [main] stores in [all_errors] for one method. *)
Record error_data : Type := ErrorData {
  e_mse : R;
  e_rmse : R;
  e_max_absolute_error : R;
  e_absolute_error : ndarray
}.

(** [all_errors]: a dict, in insertion order. *)
Definition all_errors_t : Type := list (string * error_data).

(** [generate_error_report(all_errors, output_file)]: the calls of
    [f.write], in order; [now] is the formatted [datetime.now()]. *)
Definition generate_error_report (all_errors : all_errors_t) (now : string)
  : list text :=
  [ [Str (str_mul "=" 80); Str "\n"];
    [Str "HEAT EQUATION SOLVER ERROR ANALYSIS REPORT\n"];
    [Str (str_mul "=" 80); Str "\n"];
    [Str "Generated on: "; Str now; Str "\n\n"];
    [Str "SUMMARY:\n"];
    [Str "This report compares parallel implementations against the serial baseline.\n\n"];
    [Str "ERROR METRICS COMPARISON:\n"];
    [Str (str_mul "-" 80); Str "\n"];
    [Padded "<15" "Method"; Str " "; Padded "<12" "MSE"; Str " ";
     Padded "<12" "RMSE"; Str " "; Padded "<12" "Max Abs Err"; Str " ";
     Padded "<12" "Mean Abs Err"; Str "\n"];
    [Str (str_mul "-" 80); Str "\n"] ]
  ++ flat_map (fun '(method_name, error_data) =>
       [ [Padded "<15" method_name; Str " "];
         [Num "<12.2e" (e_mse error_data); Str " "];
         [Num "<12.2e" (e_rmse error_data); Str " "];
         [Num "<12.2e" (e_max_absolute_error error_data); Str " "] ])
       all_errors
  ++ [ [Str "\n"; Str (str_mul "=" 80); Str "\n"];
       [Str "DETAILED ANALYSIS:\n"];
       [Str (str_mul "=" 80); Str "\n\n"] ]
  ++ flat_map (fun '(method_name, error_data) =>
       [ [Str "METHOD: "; Str (upper method_name); Str "\n"];
         [Str (str_mul "-" 40); Str "\n"];
         [Str "Mean Square Error (MSE):           ";
          Num ".6e" (e_mse error_data); Str "\n"];
         [Str "Root Mean Square Error (RMSE):     ";
          Num ".6e" (e_rmse error_data); Str "\n"];
         [Str "Maximum Absolute Error:            ";
          Num ".6e" (e_max_absolute_error error_data); Str "\n"] ])
       all_errors
  ++ [ [Str "INTERPRETATION GUIDE:\n"];
       [Str "..."] ].

(** The report when no comparison was made. *)
Definition header_only_report (now : string) : list text :=
  generate_error_report [] now.

(** *** [main] *)

(** What a run of [main] leaves: the lines printed, the content of
    [heat_error_report.txt] if it was written, and how the call ended. *)
Record run : Type := Run {
  stdout : list text;
  report : option (list text);
  result : outcome unit
}.

(** One load of the [try] block: the call of [load_heat_data] and the
    [print] of the shape, which raises [AttributeError] on [None]. *)
Definition load_and_print (fs : filesystem) (filename : string)
  : list text * outcome ndarray :=
  let '(out, r) := load_heat_data fs filename in
  match r with
  | Raises e => (out, Raises e)
  | Returns (None, _) => (out, Raises AttributeError)
  | Returns (Some data, _) =>
      (out ++ [[Str "Loaded "; Str filename; Str ": Shape "; Shape (shape data)]],
       Returns data)
  end.

(** The computation in the loop of [main] for one method of matching
    shape. *)
Definition inline_errors (reference_data data : ndarray) : outcome error_data :=
  let absolute_error := Np.abs (subtract reference_data data) in
  let mse := mean (pow2 (subtract reference_data data)) in
  let rmse := sqrt mse in
  bind (Np.max absolute_error) (fun max_abs_error =>
  Returns {| e_mse := mse;
             e_rmse := rmse;
             e_max_absolute_error := max_abs_error;
             e_absolute_error := absolute_error |}).

(** The loop [for method, data in comparison_methods.items()], from the
    output and the dict accumulated so far. *)
Fixpoint error_loop (reference_data : ndarray)
    (comparison_methods : list (string * ndarray))
    (out : list text) (all_errors : all_errors_t)
  : list text * outcome all_errors_t :=
  match comparison_methods with
  | [] => (out, Returns all_errors)
  | (method, data) :: rest =>
      if negb (shape_eqb (shape reference_data) (shape data)) then
        error_loop reference_data rest
          (out ++ [[Str "Skipping "; Str method; Str ": Shape mismatch ";
                    Shape (shape data); Str " vs reference ";
                    Shape (shape reference_data)]])
          all_errors
      else
        let out := out ++ [[Str "Calculating errors for "; Str method;
                            Str " method..."]] in
        match inline_errors reference_data data with
        | Raises e => (out, Raises e)
        | Returns d =>
            error_loop reference_data rest
              (out ++ [[Str "  MSE: "; Num ".6e" (e_mse d)];
                       [Str "  RMSE: "; Num ".6e" (e_rmse d)];
                       [Str "  Max Absolute Error: ";
                        Num ".6e" (e_max_absolute_error d); Str "\n"]])
              (all_errors ++ [(method, d)])
        end
  end.

(** The [try] block of [main]: the four loads. *)
Definition load_all (fs : filesystem)
  : list text * outcome (ndarray * ndarray * ndarray * ndarray) :=
  let '(o1, r1) := load_and_print fs "serial_heat_distribution.csv" in
  match r1 with
  | Raises e => (o1, Raises e)
  | Returns serial_data =>
  let '(o2, r2) := load_and_print fs "openmp_heat_distribution.csv" in
  match r2 with
  | Raises e => (o1 ++ o2, Raises e)
  | Returns openmp_data =>
  let '(o3, r3) := load_and_print fs "cuda_heat_distribution.csv" in
  match r3 with
  | Raises e => (o1 ++ o2 ++ o3, Raises e)
  | Returns cuda_data =>
  let '(o4, r4) := load_and_print fs "hybrid_heat_distribution.csv" in
  match r4 with
  | Raises e => (o1 ++ o2 ++ o3 ++ o4, Raises e)
  | Returns hybrid_data =>
      (o1 ++ o2 ++ o3 ++ o4,
       Returns (serial_data, openmp_data, cuda_data, hybrid_data))
  end end end end.

(** [main()], up to the report; the rendering that follows it
    ([create_error_visualizations]) is not modelled. *)
Definition main (fs : filesystem) (now : string) : run :=
  let out0 := [[Str "Heat Equation Solver Error Analysis"];
               [Str (str_mul "=" 50)]] in
  let '(out1, loaded) := load_all fs in
  match loaded with
  | Raises FileNotFoundError =>
      {| stdout := out0 ++ out1 ++
           [[Str "Error: "; Str "FileNotFoundError";
             Str ". Please ensure all heat distribution CSV files are present."]];
         report := None;
         result := Returns tt |}
  | Raises e =>
      {| stdout := out0 ++ out1; report := None; result := Raises e |}
  | Returns (serial_data, openmp_data, cuda_data, hybrid_data) =>
      let reference_data := serial_data in
      let comparison_methods :=
        [("openmp", openmp_data); ("cuda", cuda_data); ("hybrid", hybrid_data)] in
      let out2 := out0 ++ out1 ++
        [[Str "\nReference data shape: "; Shape (shape reference_data); Str "\n"]] in
      let '(out3, errors) := error_loop reference_data comparison_methods out2 [] in
      match errors with
      | Raises e => {| stdout := out3; report := None; result := Raises e |}
      | Returns all_errors =>
          {| stdout := out3 ++ [[Str "Generating error analysis report..."]]
                            ++ [[Str "Report saved as 'heat_error_report.txt'"]];
             report := Some (generate_error_report all_errors now);
             result := Returns tt |}
      end
  end.

(** The four files of a validation pass. *)
Definition result_files : list string :=
  [ "serial_heat_distribution.csv"; "openmp_heat_distribution.csv";
    "cuda_heat_distribution.csv"; "hybrid_heat_distribution.csv" ].

(** A file that loads, with the array it holds. *)
Definition loads (fs : filesystem) (filename : string) (a : ndarray) : Prop :=
  exists metadata, fs filename = Present (Returns metadata) (inr a).

(** A file that is missing, or corrupt in its header or in its table. *)
Definition unusable (f : file) : Prop :=
  match f with
  | Missing => True
  | Present (Raises _) _ => True
  | Present (Returns _) (inl _) => True
  | Present (Returns _) (inr _) => False
  end.

(** What [main] prints when it skips a method. *)
Definition skip_line (method : string) (data reference_data : ndarray) : text :=
  [Str "Skipping "; Str method; Str ": Shape mismatch ";
   Shape (shape data); Str " vs reference "; Shape (shape reference_data)].

(** The first words of a printed line, and those of the lines [main] prints
    up to the end of its [try] block and in its handler. *)
Definition first_words (line : text) : option string :=
  match line with
  | Str s :: _ => Some s
  | _ => None
  end.

Definition loading_words : list string :=
  [ "Heat Equation Solver Error Analysis"; str_mul "=" 50;
    "Error: File "; "Loaded "; "Error loading "; "Error: " ].

(** Four result files for the examples: 2 by 2 fields, and a 1 by 2 one. *)
Definition field_2x2 : ndarray :=
  {| shape := (2, 2)%nat; item := fun k => nth k [1; 2; 3; 4] 0 |}.

Definition field_1x2 : ndarray :=
  {| shape := (1, 2)%nat; item := fun k => nth k [1; 2] 0 |}.

Definition no_metadata : metadata :=
  {| grid_size := None; time_steps := None; final_time := None; threads := None |}.

(** The CUDA result has another shape. *)
Definition fs_cuda_mismatch : filesystem :=
  fun filename =>
    if String.eqb filename "cuda_heat_distribution.csv"
    then Present (Returns no_metadata) (inr field_1x2)
    else Present (Returns no_metadata) (inr field_2x2).

(** The OpenMP result is missing. *)
Definition fs_openmp_missing : filesystem :=
  fun filename =>
    if String.eqb filename "openmp_heat_distribution.csv"
    then Missing
    else Present (Returns no_metadata) (inr field_2x2).

(** No comparison has the reference's shape. *)
Definition fs_all_mismatch : filesystem :=
  fun filename =>
    if String.eqb filename "serial_heat_distribution.csv"
    then Present (Returns no_metadata) (inr field_2x2)
    else Present (Returns no_metadata) (inr field_1x2).

End Harness.

(** ** The front-end ([heat_demo.py]) *)

Module Demo.
Import Py.
Open Scope string_scope.
Open Scope list_scope.

Definition newline : ascii := ascii_of_nat 10.

Definition lower_ascii (c : ascii) : ascii :=
  let n := nat_of_ascii c in
  if (65 <=? n)%nat && (n <=? 90)%nat then ascii_of_nat (n + 32) else c.

(** [s.lower()], on ASCII. *)
Fixpoint lower (s : string) : string :=
  match s with
  | EmptyString => EmptyString
  | String c s' => String (lower_ascii c) (lower s')
  end.

(** [needle in line]. *)
Fixpoint contains (needle line : string) : bool :=
  String.prefix needle line
  || match line with
     | EmptyString => false
     | String _ rest => contains needle rest
     end.

(** [s.split(sep)] for a separator of one character. *)
Fixpoint split (sep : ascii) (s : string) : list string :=
  match s with
  | EmptyString => [EmptyString]
  | String c rest =>
      if Ascii.eqb c sep then EmptyString :: split sep rest
      else match split sep rest with
           | [] => [String c EmptyString]
           | w :: ws => String c w :: ws
           end
  end.

(** The characters [str.strip()] removes, that is [c.isspace()]: a character
    of a [string] is a code point below 256, and the white space there is
    U+0009 to U+000D, U+001C to U+001F, the space, U+0085 and U+00A0. *)
Definition is_space (c : ascii) : bool :=
  let n := nat_of_ascii c in
  (n =? 32)%nat || ((9 <=? n)%nat && (n <=? 13)%nat)
  || ((28 <=? n)%nat && (n <=? 31)%nat)
  || (n =? 133)%nat || (n =? 160)%nat.

Fixpoint lstrip (s : string) : string :=
  match s with
  | EmptyString => EmptyString
  | String c rest => if is_space c then lstrip rest else s
  end.

Fixpoint rstrip (s : string) : string :=
  match s with
  | EmptyString => EmptyString
  | String c rest =>
      match rstrip rest with
      | EmptyString => if is_space c then EmptyString else String c EmptyString
      | r => String c r
      end
  end.

(** [s.strip()]. *)
Definition strip (s : string) : string := rstrip (lstrip s).

(** The words of the command [run_solver] hands to the shell:
    [./{implementation.lower()}_heat {grid_size} {grid_size} {time_steps}],
    the two numbers as the strings that are formatted in. *)
Definition solver_command (implementation grid_size time_steps : string)
  : list string :=
  [ ("./" ++ lower implementation ++ "_heat")%string;
    grid_size; grid_size; time_steps ].

(** The dict [metrics] of [parse_and_visualize]. *)
Record metrics : Set := Metrics {
  Implementation : string;
  Threads : string;
  GridSize : string;
  TimeSteps : string;
  Time : string;
  Throughput : string;
  CenterValue : string
}.

(** [line.split(":")[1].strip()]. *)
Definition value_of (line : string) : string :=
  strip (nth 1 (split ":" line) EmptyString).

(** The body of [for line in lines]. *)
Definition parse_line (m : metrics) (line : string) : metrics :=
  if contains "Implementation:" line then
    {| Implementation := value_of line; Threads := Threads m;
       GridSize := GridSize m; TimeSteps := TimeSteps m; Time := Time m;
       Throughput := Throughput m; CenterValue := CenterValue m |}
  else if contains "Threads:" line then
    {| Implementation := Implementation m; Threads := value_of line;
       GridSize := GridSize m; TimeSteps := TimeSteps m; Time := Time m;
       Throughput := Throughput m; CenterValue := CenterValue m |}
  else if contains "GridSize:" line then
    {| Implementation := Implementation m; Threads := Threads m;
       GridSize := value_of line; TimeSteps := TimeSteps m; Time := Time m;
       Throughput := Throughput m; CenterValue := CenterValue m |}
  else if contains "TimeSteps:" line then
    {| Implementation := Implementation m; Threads := Threads m;
       GridSize := GridSize m; TimeSteps := value_of line; Time := Time m;
       Throughput := Throughput m; CenterValue := CenterValue m |}
  else if contains "Time:" line then
    {| Implementation := Implementation m; Threads := Threads m;
       GridSize := GridSize m; TimeSteps := TimeSteps m; Time := value_of line;
       Throughput := Throughput m; CenterValue := CenterValue m |}
  else if contains "Throughput:" line then
    {| Implementation := Implementation m; Threads := Threads m;
       GridSize := GridSize m; TimeSteps := TimeSteps m; Time := Time m;
       Throughput := value_of line; CenterValue := CenterValue m |}
  else if contains "CenterValue:" line then
    {| Implementation := Implementation m; Threads := Threads m;
       GridSize := GridSize m; TimeSteps := TimeSteps m; Time := Time m;
       Throughput := Throughput m; CenterValue := value_of line |}
  else m.

(** The parsing part of [parse_and_visualize(output, implementation,
    col_index)]; [grid_size] is [self.grid_size], formatted. *)
Definition parse_and_visualize (output implementation grid_size : string)
  : metrics :=
  let lines := split newline output in
  let metrics :=
    {| Implementation := implementation;
       Threads := "N/A";
       GridSize := (grid_size ++ "x" ++ grid_size)%string;
       TimeSteps := "N/A";
       Time := "N/A";
       Throughput := "N/A";
       CenterValue := "N/A" |} in
  fold_left parse_line lines metrics.

(** The keys the front-end looks for. *)
Definition keys : list string :=
  [ "Implementation"; "Threads"; "GridSize"; "TimeSteps"; "Time";
    "Throughput"; "CenterValue" ].

(** A line of the given key, as the front-end reads it. *)
Definition key_line (key value : string) : string :=
  (key ++ ": " ++ value)%string.

(** What the CUDA program prints, with sample digits for the three
    numbers. *)
Definition cuda_sample_output : string :=
  String.concat (String newline EmptyString)
    [ "CUDA run (GPU):";
      "  Time           : 0.012345 s";
      "  Throughput     : 3175.70 MLUPS";
      "  u_center (mid) : 0.834521";
      "" ].

End Demo.

(** ** The CUDA backend: the host loops and the accesses of the kernel *)

Module CudaHost.
Import MachineInt Cuda.
Open Scope Z_scope.

(** The two nested loops of [main] that set the initial condition, run on
    the array [u] as [malloc] returned it. *)
Definition initial_condition (Nx Ny : Z) (u : list R) : list R :=
  let dx := spacing Lx Nx in
  let dy := spacing Ly Ny in
  fold_left (fun u i =>
    fold_left (fun u j =>
      let x := (IZR i * dx - Lx / 2)%R in
      let y := (IZR j * dy - Ly / 2)%R in
      wr u (IDX i j Ny) (exp (- 50 * (x * x + y * y))))
      (zrange Ny) u)
    (zrange Nx) u.

(** The indices at which a thread of [update_kernel] accesses [u] and
    [uNew]: none when the guard fails; else the five elements of [u] it
    reads, the third of which is also the element of [uNew] it writes. *)
Definition update_kernel_indices (blockIdx blockDim threadIdx : dim3)
    (Nx Ny : Z) : list Z :=
  let i := int_of_uint (uadd (uadd (umul (x blockIdx) (x blockDim)) (x threadIdx)) 1) in
  let j := int_of_uint (uadd (uadd (umul (y blockIdx) (y blockDim)) (y threadIdx)) 1) in
  if (i <? isub Nx 1) && (j <? isub Ny 1) then
    [ IDX (iadd i 1) j Ny; IDX (isub i 1) j Ny; IDX i j Ny;
      IDX i (iadd j 1) Ny; IDX i (isub j 1) Ny ]
  else [].

End CudaHost.

(** ** The validation harness: the report read back, the figure *)

Module HarnessMore.
Import Py Np Harness.
Open Scope string_scope.
Open Scope list_scope.

(** A file whose header comments the loader reads without an exception. *)
Definition header_readable (f : file) : Prop :=
  match f with
  | Present (Raises _) _ => False
  | _ => True
  end.

(** The method named by a line of the detail section of the report. *)
Definition detail_method (t : text) : list string :=
  match t with
  | [Str a; Str m; Str b] =>
      if String.eqb a "METHOD: " && String.eqb b "\n" then [m] else []
  | _ => []
  end.

(** The methods of the detail section of a report, in order. *)
Definition report_methods (report : list text) : list string :=
  flat_map detail_method report.

(** What an axis of the figure shows. *)
Inductive axis : Type :=
| Blank
| Reference (a : ndarray)                  (* title 'Reference (Serial) Solution' *)
| ErrorMap (title : string) (a : ndarray)  (* the error map of a method *)
| Hidden.                                  (* [set_visible(False)] *)

(** [axes[i] = a]. *)
Fixpoint set_axis (i : nat) (a : axis) (axes : list axis) : list axis :=
  match axes, i with
  | [], _ => []
  | _ :: t, O => a :: t
  | h :: t, S i' => h :: set_axis i' a t
  end.

(** The loop [for method, data in all_errors.items()] of
    [create_error_visualizations]: it stops when the axes run out; the
    entries [main] builds all hold the key ['absolute_error']. *)
Fixpoint plot_loop (all_errors : all_errors_t) (axes : list axis)
    (plot_index : nat) : list axis * nat :=
  match all_errors with
  | [] => (axes, plot_index)
  | (method, data) :: rest =>
      if (length axes <=? plot_index)%nat then (axes, plot_index)
      else
        plot_loop rest
          (set_axis plot_index
             (ErrorMap (String.append "Absolute Error: " (upper method))
                       (e_absolute_error data))
             axes)
          (S plot_index)
  end.

(** [for i in range(plot_index, len(axes)): axes[i].set_visible(False)]. *)
Definition hide_unused (axes : list axis) (plot_index : nat) : list axis :=
  fold_left (fun axes i => set_axis i Hidden axes)
            (seq plot_index (length axes - plot_index)) axes.

(** The axes of the figure [create_error_visualizations] draws, in the
    order of [np.ravel(axes)]; the rendering itself is not modelled. *)
Definition create_error_visualizations (all_errors : all_errors_t)
    (reference_data : ndarray) : list axis :=
  let num_methods := length all_errors in
  let num_plots := (1 + num_methods)%nat in
  let ncols := 2%nat in
  let nrows := ((num_plots + ncols - 1) / ncols)%nat in
  let axes := repeat Blank (nrows * ncols) in
  let axes := set_axis 0 (Reference reference_data) axes in
  let '(axes, plot_index) := plot_loop all_errors axes 1 in
  hide_unused axes plot_index.

End HarnessMore.

(** ** The front-end: outputs and string tests *)

Module DemoMore.
Import Demo.
Open Scope string_scope.

(** [c not in s]. *)
Fixpoint lacks (c : ascii) (s : string) : bool :=
  match s with
  | EmptyString => true
  | String d s' => negb (Ascii.eqb d c) && lacks c s'
  end.

(** [s.endswith(suffix)]. *)
Fixpoint ends_with (s suffix : string) : bool :=
  String.eqb s suffix
  || match s with
     | EmptyString => false
     | String _ s' => ends_with s' suffix
     end.

(** A value as a backend prints it after [Key: ]: no colon, no newline,
    no white space at either end. *)
Definition plain (v : string) : bool :=
  lacks ":" v && lacks newline v && String.eqb (strip v) v.

(** The text of an output whose lines each end with a newline. *)
Fixpoint unlines (lines : list string) : string :=
  match lines with
  | nil => EmptyString
  | l :: lines' => (l ++ String newline (unlines lines'))%string
  end.

(** An output that follows the contract of the front-end. *)
Definition contract_output
    (implementation threads grid_size time_steps time throughput center : string)
  : string :=
  unlines
    (key_line "Implementation" implementation
     :: key_line "Threads" threads
     :: key_line "GridSize" grid_size
     :: key_line "TimeSteps" time_steps
     :: key_line "Time" time
     :: key_line "Throughput" throughput
     :: key_line "CenterValue" center
     :: nil).

(** The output of the CUDA program, given the digits [printf] renders for
    its three numbers. *)
Definition cuda_output (time throughput center : string) : string :=
  unlines
    ("CUDA run (GPU):"
     :: ("  Time           : " ++ time ++ " s")%string
     :: ("  Throughput     : " ++ throughput ++ " MLUPS")%string
     :: ("  u_center (mid) : " ++ center)%string
     :: nil).

End DemoMore.

(** ** The header comments of a result file *)

Module HeaderReader.
Import Py Np Harness Demo.
Open Scope string_scope.

Section Reader.

(** The built-ins [int] and [float] on a string, taken as given. *)
Variable py_int : string -> outcome Z.
Variable py_float : string -> outcome R.

(** The loop of [load_heat_data] over the lines of the file, from the
    metadata read so far: a line that starts with [#] is searched for the
    four keys, the first other line ends the loop. *)
Fixpoint read_header (lines : list string) (metadata : Harness.metadata)
  : outcome Harness.metadata :=
  match lines with
  | nil => Returns metadata
  | line :: rest =>
      if String.prefix "#" line then
        if contains "Grid Size:" line then
          read_header rest
            {| grid_size := Some (value_of line);
               time_steps := time_steps metadata;
               final_time := final_time metadata;
               threads := threads metadata |}
        else if contains "Time Steps:" line then
          bind (py_int (value_of line)) (fun n =>
          read_header rest
            {| grid_size := grid_size metadata;
               time_steps := Some n;
               final_time := final_time metadata;
               threads := threads metadata |})
        else if contains "Final Time:" line then
          bind (py_float (value_of line)) (fun t =>
          read_header rest
            {| grid_size := grid_size metadata;
               time_steps := time_steps metadata;
               final_time := Some t;
               threads := threads metadata |})
        else if contains "Threads:" line then
          bind (py_int (value_of line)) (fun n =>
          read_header rest
            {| grid_size := grid_size metadata;
               time_steps := time_steps metadata;
               final_time := final_time metadata;
               threads := Some n |})
        else read_header rest metadata
      else Returns metadata
  end.

(** The header of a file with the given lines, as [load_heat_data] reads
    it: from the empty dict. *)
Definition header_of (lines : list string) : outcome metadata :=
  read_header lines no_metadata.

End Reader.

(** A reader of two integers and a reader of one time, for the examples. *)
Definition int_example (s : string) : outcome Z :=
  if String.eqb s "1000" then Returns 1000%Z
  else if String.eqb s "4" then Returns 4%Z
  else Raises ValueError.

Definition float_example (s : string) : outcome R :=
  if String.eqb s "2.5" then Returns 2.5%R else Raises ValueError.

(** A header line as the result files have it and [readlines] returns it,
    the newline at its end. *)
Definition header_line (key value : string) : string :=
  "# " ++ key ++ ": " ++ value ++ String newline "".

End HeaderReader.

(* ================================================================== *)
(** * Properties *)

(** ** Machine integers *)

Section MachineIntFacts.
Import MachineInt.
Open Scope Z_scope.

Lemma int_wrap_small z : - 2 ^ 31 <= z <= INT_MAX -> int_wrap z = z.
Proof.
  unfold int_wrap, INT_MAX; intros H.
  rewrite Z.mod_small; lia.
Qed.

Lemma uint_wrap_small z : 0 <= z < 2 ^ 32 -> uint_wrap z = z.
Proof. unfold uint_wrap; intros H; apply Z.mod_small; exact H. Qed.

End MachineIntFacts.

(** ** Arrays *)

Section ArrayFacts.
Import Cuda.
Open Scope Z_scope.

Lemma upd_length n v a : length (upd n v a) = length a.
Proof.
  revert n; induction a as [|h t IH]; intros [|n]; simpl; auto.
Qed.

Lemma nth_upd_same n v a : (n < length a)%nat -> nth n (upd n v a) 0%R = v.
Proof.
  revert n; induction a as [|h t IH]; intros [|n] H; simpl in *; try lia; auto.
  apply IH; lia.
Qed.

Lemma nth_upd_other n n' v a : n <> n' -> nth n' (upd n v a) 0%R = nth n' a 0%R.
Proof.
  revert n n'; induction a as [|h t IH]; intros [|n] [|n'] H; simpl; auto; try lia.
Qed.

Lemma wr_length a k v : length (wr a k v) = length a.
Proof. unfold wr; destruct (k <? 0); auto using upd_length. Qed.

Lemma rd_wr_same a k v :
  0 <= k < Z.of_nat (length a) -> rd (wr a k v) k = v.
Proof.
  intros H; unfold rd, wr.
  destruct (Z.ltb_spec k 0); [lia|].
  apply nth_upd_same; lia.
Qed.

Lemma rd_wr_other a k k' v : k <> k' -> rd (wr a k v) k' = rd a k'.
Proof.
  intros H; unfold rd, wr.
  destruct (Z.ltb_spec k' 0); auto.
  destruct (Z.ltb_spec k 0); auto.
  apply nth_upd_other; lia.
Qed.

(** Two buffers of one length that agree at every index are equal. *)
Lemma rd_ext (a b : list R) :
  length a = length b ->
  (forall k, 0 <= k < Z.of_nat (length a) -> rd a k = rd b k) ->
  a = b.
Proof.
  intros Hl H; apply (nth_ext a b 0%R 0%R Hl).
  intros n Hn.
  specialize (H (Z.of_nat n)); unfold rd in H.
  destruct (Z.ltb_spec (Z.of_nat n) 0); [lia|].
  rewrite Nat2Z.id in H; apply H; lia.
Qed.

Lemma load_store_same m p l : load (store m p l) p = l.
Proof. destruct p; reflexivity. Qed.

Lemma load_store_other m p q l : p <> q -> load (store m p l) q = load m q.
Proof. destruct p, q; simpl; congruence. Qed.

Lemma dmem_ext m1 m2 :
  (forall p, load m1 p = load m2 p) -> m1 = m2.
Proof.
  intros H; destruct m1 as [a1 b1], m2 as [a2 b2].
  pose proof (H BufA) as HA; pose proof (H BufB) as HB; simpl in *.
  congruence.
Qed.

Lemma in_zrange n z : In z (zrange n) <-> 0 <= z < n.
Proof.
  unfold zrange; rewrite in_map_iff; split.
  - intros [k [Hk Hin]]; apply in_seq in Hin; lia.
  - intros H; exists (Z.to_nat z); split; [lia|].
    apply in_seq; lia.
Qed.

Lemma in_grid_threads g b t :
  In t (grid_threads g b) <->
  0 <= x (fst t) < x g /\ 0 <= y (fst t) < y g /\
  0 <= x (snd t) < x b /\ 0 <= y (snd t) < y b.
Proof.
  unfold grid_threads.
  rewrite in_flat_map; split.
  - intros [bx [Hbx H]]; apply in_flat_map in H; destruct H as [by_ [Hby H]].
    apply in_flat_map in H; destruct H as [tx [Htx H]].
    apply in_map_iff in H; destruct H as [ty [Ht Hty]].
    apply in_zrange in Hbx, Hby, Htx, Hty; subst t; simpl; lia.
  - destruct t as [[bx by_] [tx ty]]; simpl; intros (Hbx & Hby & Htx & Hty).
    exists bx; split; [apply in_zrange; lia|].
    apply in_flat_map; exists by_; split; [apply in_zrange; lia|].
    apply in_flat_map; exists tx; split; [apply in_zrange; lia|].
    apply in_map_iff; exists ty; split; [reflexivity|apply in_zrange; lia].
Qed.

(** Row and column of a row-major index. *)
Lemma row_col Ny i j :
  0 <= j < Ny -> (i * Ny + j) / Ny = i /\ (i * Ny + j) mod Ny = j.
Proof.
  intros Hj; split.
  - symmetry; apply (Z.div_unique _ _ i j); [left; lia | lia].
  - symmetry; apply (Z.mod_unique _ _ i j); [left; lia | lia].
Qed.

End ArrayFacts.

(** ** The kernel and its launch *)

Section KernelFacts.
Import MachineInt Cuda.
Open Scope Z_scope.

Variables Nx Ny : Z.
Variables dx dy alpha dt : R.
Variables u uNew : dptr.

Hypothesis HNx : 3 <= Nx.
Hypothesis HNy : 3 <= Ny.
Hypothesis Hfit : Nx * Ny <= INT_MAX.

Let N := Nx * Ny.

(** Remove the wraps whose argument is in range. *)
Ltac unwrap :=
  repeat match goal with
  | |- context [int_wrap ?z] =>
      rewrite (int_wrap_small z) by (unfold INT_MAX in *; nia)
  | |- context [uint_wrap ?z] =>
      rewrite (uint_wrap_small z) by (unfold INT_MAX in *; nia)
  end.

Lemma dims_fit : Nx <= INT_MAX /\ Ny <= INT_MAX.
Proof. unfold INT_MAX in *; split; nia. Qed.

Lemma grid_dims :
  x (grid Nx Ny) = (Nx + 13) / 16 /\ y (grid Nx Ny) = (Ny + 13) / 16.
Proof.
  destruct dims_fit as [HX HY]; unfold INT_MAX in *.
  unfold grid, udiv, usub, uadd, isub, block; simpl x; simpl y.
  unwrap.
  split; f_equal; lia.
Qed.

Lemma in_grid_cell t :
  In t (grid_threads (grid Nx Ny) block) ->
  1 <= thread_i t <= Nx + 13 /\ 1 <= thread_j t <= Ny + 13.
Proof.
  intros H; apply in_grid_threads in H.
  destruct grid_dims as [Hx Hy]; rewrite Hx, Hy in H.
  unfold thread_i, thread_j, block in *; simpl in *.
  destruct H as (Hbx & Hby & Htx & Hty).
  pose proof (Z.mul_div_le (Nx + 13) 16 ltac:(lia)).
  pose proof (Z.mul_div_le (Ny + 13) 16 ltac:(lia)).
  lia.
Qed.

(** What a thread of the grid does, without the machine arithmetic. *)
Lemma update_kernel_in_grid t m :
  In t (grid_threads (grid Nx Ny) block) ->
  update_kernel (fst t) block (snd t) u uNew Nx Ny dx dy alpha dt m =
  if (thread_i t <? Nx - 1) && (thread_j t <? Ny - 1)
  then store m uNew
         (wr (load m uNew) (thread_i t * Ny + thread_j t)
             (stencil (load m u) Ny dx dy alpha dt (thread_i t) (thread_j t)))
  else m.
Proof.
  intros Hin.
  pose proof (in_grid_cell t Hin) as [Hi Hj].
  destruct dims_fit as [HX HY].
  unfold update_kernel, int_of_uint, uadd, umul, isub.
  fold (thread_i t) (thread_j t).
  assert (Hti : int_wrap (uint_wrap (uint_wrap (uint_wrap
                 (x (fst t) * x block) + x (snd t)) + 1)) = thread_i t).
  { apply in_grid_threads in Hin; unfold thread_i, block in *; simpl in *.
    unwrap; reflexivity. }
  assert (Htj : int_wrap (uint_wrap (uint_wrap (uint_wrap
                 (y (fst t) * y block) + y (snd t)) + 1)) = thread_j t).
  { apply in_grid_threads in Hin; unfold thread_j, block in *; simpl in *.
    unwrap; reflexivity. }
  rewrite Hti, Htj; clear Hti Htj.
  rewrite (int_wrap_small (Nx - 1)), (int_wrap_small (Ny - 1))
    by (unfold INT_MAX in *; lia).
  destruct (Z.ltb_spec (thread_i t) (Nx - 1)) as [Li|Li]; simpl; [|reflexivity].
  destruct (Z.ltb_spec (thread_j t) (Ny - 1)) as [Lj|Lj]; simpl; [|reflexivity].
  set (i := thread_i t) in *; set (j := thread_j t) in *.
  unfold stencil, cell, IDX, iadd, imul, isub.
  unwrap.
  reflexivity.
Qed.

Hypothesis Hptr : u <> uNew.

Let G := grid_threads (grid Nx Ny) block.
Let K (t : thread) (m : dmem) : dmem :=
  update_kernel (fst t) block (snd t) u uNew Nx Ny dx dy alpha dt m.
Let guard (t : thread) : bool :=
  (thread_i t <? Nx - 1) && (thread_j t <? Ny - 1).

Lemma guard_interior t :
  In t G -> guard t = true -> interior Nx Ny (thread_i t) (thread_j t).
Proof.
  intros Hin Hg; pose proof (in_grid_cell t Hin) as [Hi Hj].
  unfold guard in Hg; apply andb_true_iff in Hg; destruct Hg as [A B].
  apply Z.ltb_lt in A, B; unfold interior; lia.
Qed.

Lemma kernel_src t m : In t G -> load (K t m) u = load m u.
Proof.
  intros Hin; unfold K; rewrite update_kernel_in_grid by exact Hin.
  destruct (_ && _); [|reflexivity].
  apply load_store_other; congruence.
Qed.

Lemma kernel_length t m p :
  In t G -> length (load (K t m) p) = length (load m p).
Proof.
  intros Hin; unfold K; rewrite update_kernel_in_grid by exact Hin.
  destruct (_ && _); [|reflexivity].
  destruct p, uNew; simpl; auto using wr_length.
Qed.

(** One thread, seen from index [k] of the output buffer. *)
Lemma kernel_cell t m k :
  In t G ->
  Z.of_nat (length (load m uNew)) = N ->
  rd (load (K t m) uNew) k =
  if guard t && (k =? thread_i t * Ny + thread_j t)
  then stencil (load m u) Ny dx dy alpha dt (k / Ny) (k mod Ny)
  else rd (load m uNew) k.
Proof.
  intros Hin Hlen.
  unfold K; rewrite update_kernel_in_grid by exact Hin.
  fold (guard t).
  destruct (guard t) eqn:Hg; simpl; [|reflexivity].
  destruct (guard_interior t Hin Hg) as [Hi Hj].
  rewrite load_store_same.
  destruct (Z.eqb_spec k (thread_i t * Ny + thread_j t)) as [->|Hk].
  - destruct (row_col Ny (thread_i t) (thread_j t) ltac:(lia)) as [-> ->].
    apply rd_wr_same; rewrite Hlen; unfold N; nia.
  - apply rd_wr_other; congruence.
Qed.

Lemma launch_src sched m :
  incl sched G ->
  load (launch sched block u uNew Nx Ny dx dy alpha dt m) u = load m u.
Proof.
  revert m; induction sched as [|t rest IH]; intros m Hin; simpl; [reflexivity|].
  fold (K t m); rewrite IH by (eapply incl_cons_inv; eauto).
  apply kernel_src, Hin; left; reflexivity.
Qed.

Lemma launch_length sched m p :
  incl sched G ->
  length (load (launch sched block u uNew Nx Ny dx dy alpha dt m) p)
  = length (load m p).
Proof.
  revert m; induction sched as [|t rest IH]; intros m Hin; simpl; [reflexivity|].
  fold (K t m); rewrite IH by (eapply incl_cons_inv; eauto).
  apply kernel_length, Hin; left; reflexivity.
Qed.

(** A cell that holds its stencil value keeps it to the end of the launch. *)
Lemma launch_keeps sched m k U :
  incl sched G ->
  Z.of_nat (length (load m uNew)) = N ->
  load m u = U ->
  rd (load m uNew) k = stencil U Ny dx dy alpha dt (k / Ny) (k mod Ny) ->
  rd (load (launch sched block u uNew Nx Ny dx dy alpha dt m) uNew) k
  = stencil U Ny dx dy alpha dt (k / Ny) (k mod Ny).
Proof.
  revert m; induction sched as [|t rest IH]; intros m Hin Hlen HU Hk; simpl; [exact Hk|].
  assert (Ht : In t G) by (apply Hin; left; reflexivity).
  fold (K t m); apply IH.
  - eapply incl_cons_inv; eauto.
  - rewrite kernel_length by exact Ht; exact Hlen.
  - rewrite kernel_src by exact Ht; exact HU.
  - rewrite kernel_cell by assumption.
    destruct (_ && _); [rewrite HU; reflexivity | exact Hk].
Qed.

(** A thread of the schedule that passes the guard leaves the stencil value
    in its cell. *)
Lemma launch_writes sched m t :
  incl sched G ->
  Z.of_nat (length (load m uNew)) = N ->
  In t sched -> guard t = true ->
  rd (load (launch sched block u uNew Nx Ny dx dy alpha dt m) uNew)
     (thread_i t * Ny + thread_j t)
  = stencil (load m u) Ny dx dy alpha dt (thread_i t) (thread_j t).
Proof.
  revert m; induction sched as [|t0 rest IH]; intros m Hin Hlen Ht Hg; simpl;
    [destruct Ht|].
  assert (Ht0 : In t0 G) by (apply Hin; left; reflexivity).
  assert (Hrest : incl rest G) by (eapply incl_cons_inv; eauto).
  fold (K t0 m).
  destruct (guard_interior t (Hin t Ht) Hg) as [Hi Hj].
  destruct (row_col Ny (thread_i t) (thread_j t) ltac:(lia)) as [Hq Hr].
  destruct Ht as [->|Ht].
  - transitivity (stencil (load m u) Ny dx dy alpha dt
                    ((thread_i t * Ny + thread_j t) / Ny)
                    ((thread_i t * Ny + thread_j t) mod Ny));
      [|rewrite Hq, Hr; reflexivity].
    apply launch_keeps; auto.
    + rewrite kernel_length by exact Ht0; exact Hlen.
    + apply kernel_src; exact Ht0.
    + rewrite kernel_cell by assumption.
      rewrite Hg, Z.eqb_refl; reflexivity.
  - rewrite IH; auto.
    + rewrite kernel_src by exact Ht0; reflexivity.
    + rewrite kernel_length by exact Ht0; exact Hlen.
Qed.

(** The launch writes no index that is not an interior cell. *)
Lemma launch_frame sched m k :
  incl sched G ->
  Z.of_nat (length (load m uNew)) = N ->
  ~ interior Nx Ny (k / Ny) (k mod Ny) ->
  rd (load (launch sched block u uNew Nx Ny dx dy alpha dt m) uNew) k
  = rd (load m uNew) k.
Proof.
  revert m; induction sched as [|t rest IH]; intros m Hin Hlen Hk; simpl; [reflexivity|].
  assert (Ht : In t G) by (apply Hin; left; reflexivity).
  fold (K t m); rewrite IH.
  - rewrite kernel_cell by assumption.
    destruct (guard t) eqn:Hg; simpl; [|reflexivity].
    destruct (Z.eqb_spec k (thread_i t * Ny + thread_j t)) as [->|]; [|reflexivity].
    exfalso; apply Hk.
    pose proof (guard_interior t Ht Hg) as HI.
    destruct (row_col Ny (thread_i t) (thread_j t)) as [-> ->];
      [unfold interior in HI; lia | exact HI].
  - eapply incl_cons_inv; eauto.
  - rewrite kernel_length by exact Ht; exact Hlen.
  - exact Hk.
Qed.

(** Every interior cell has its thread in the grid. *)
Lemma interior_thread i j :
  interior Nx Ny i j ->
  exists t, In t G /\ guard t = true /\ thread_i t = i /\ thread_j t = j.
Proof.
  intros [Hi Hj].
  exists (Dim3 ((i - 1) / 16) ((j - 1) / 16), Dim3 ((i - 1) mod 16) ((j - 1) mod 16)).
  pose proof (Z.div_mod (i - 1) 16 ltac:(lia)) as Di.
  pose proof (Z.div_mod (j - 1) 16 ltac:(lia)) as Dj.
  pose proof (Z.mod_pos_bound (i - 1) 16 ltac:(lia)) as Mi.
  pose proof (Z.mod_pos_bound (j - 1) 16 ltac:(lia)) as Mj.
  assert (Ti : ((i - 1) / 16) * 16 + (i - 1) mod 16 + 1 = i) by lia.
  assert (Tj : ((j - 1) / 16) * 16 + (j - 1) mod 16 + 1 = j) by lia.
  split; [|split; [|split]].
  - apply in_grid_threads; destruct grid_dims as [-> ->]; simpl.
    pose proof (Z.div_pos (i - 1) 16 ltac:(lia) ltac:(lia)).
    pose proof (Z.div_pos (j - 1) 16 ltac:(lia) ltac:(lia)).
    assert ((i - 1) / 16 < (Nx + 13) / 16).
    { apply Z.div_lt_upper_bound; [lia|].
      pose proof (Z.mul_succ_div_gt (Nx + 13) 16 ltac:(lia)); lia. }
    assert ((j - 1) / 16 < (Ny + 13) / 16).
    { apply Z.div_lt_upper_bound; [lia|].
      pose proof (Z.mul_succ_div_gt (Ny + 13) 16 ltac:(lia)); lia. }
    lia.
  - unfold guard, thread_i, thread_j, block; simpl.
    rewrite Ti, Tj.
    apply andb_true_iff; split; apply Z.ltb_lt; lia.
  - unfold thread_i, block; simpl; exact Ti.
  - unfold thread_j, block; simpl; exact Tj.
Qed.

End KernelFacts.

(** ** One step of the stencil update *)

Section StencilStep.
Import MachineInt Cuda.
Open Scope Z_scope.

Lemma schedule_incl Nx Ny sched :
  schedule Nx Ny sched -> incl sched (grid_threads (grid Nx Ny) block).
Proof. intros H t Ht; eapply Permutation_in; eauto. Qed.

Lemma schedule_all Nx Ny sched t :
  schedule Nx Ny sched -> In t (grid_threads (grid Nx Ny) block) -> In t sched.
Proof. intros H Ht; eapply Permutation_in; [apply Permutation_sym|]; eauto. Qed.

(** After a launch, every interior cell of the output buffer holds the
    stencil of the input buffer. *)
Lemma launch_interior Nx Ny dx dy alpha dt u uNew sched m i j :
  Nx * Ny <= INT_MAX -> u <> uNew ->
  Z.of_nat (length (load m uNew)) = Nx * Ny ->
  schedule Nx Ny sched ->
  interior Nx Ny i j ->
  cell (load (launch sched block u uNew Nx Ny dx dy alpha dt m) uNew) Ny i j
  = stencil (load m u) Ny dx dy alpha dt i j.
Proof.
  intros Hfit Hp Hlen Hs HI.
  assert (HNx : 3 <= Nx) by (unfold interior in HI; lia).
  assert (HNy : 3 <= Ny) by (unfold interior in HI; lia).
  destruct (interior_thread Nx Ny HNx HNy Hfit i j HI) as (t & Ht & Hg & Hi & Hj).
  unfold cell; rewrite <- Hi, <- Hj.
  apply launch_writes; auto using schedule_incl.
  eapply schedule_all; eauto.
Qed.

(** C1: for every interior cell (i,j), one step of the stencil update gives
    U'[i,j] = U[i,j] + alpha*dt*((U[i+1,j] - 2*U[i,j] + U[i-1,j])/dx^2
    + (U[i,j+1] - 2*U[i,j] + U[i,j-1])/dy^2); the value therefore depends on
    U[i,j] and its four direct neighbours only: two inputs that agree on
    these five cells give the same U'[i,j]. *)
Theorem update_kernel_interior_cell :
  forall (Nx Ny : Z) (dx dy alpha dt : R) (u uNew : dptr)
         (sched : list thread) (m : dmem) (i j : Z),
    Nx * Ny <= INT_MAX ->
    u <> uNew ->
    Z.of_nat (length (load m uNew)) = Nx * Ny ->
    schedule Nx Ny sched ->
    1 <= i <= Nx - 2 -> 1 <= j <= Ny - 2 ->
    let U := load m u in
    let U' := load (launch sched block u uNew Nx Ny dx dy alpha dt m) uNew in
    cell U' Ny i j
    = (cell U Ny i j
       + alpha * dt *
         ((cell U Ny (i + 1) j - 2 * cell U Ny i j + cell U Ny (i - 1) j) / dx ^ 2
          + (cell U Ny i (j + 1) - 2 * cell U Ny i j + cell U Ny i (j - 1)) / dy ^ 2))%R
    /\
    (forall (sched2 : list thread) (m2 : dmem),
        Z.of_nat (length (load m2 uNew)) = Nx * Ny ->
        schedule Nx Ny sched2 ->
        let V := load m2 u in
        cell V Ny i j = cell U Ny i j ->
        cell V Ny (i + 1) j = cell U Ny (i + 1) j ->
        cell V Ny (i - 1) j = cell U Ny (i - 1) j ->
        cell V Ny i (j + 1) = cell U Ny i (j + 1) ->
        cell V Ny i (j - 1) = cell U Ny i (j - 1) ->
        cell (load (launch sched2 block u uNew Nx Ny dx dy alpha dt m2) uNew) Ny i j
        = cell U' Ny i j).
Proof.
  intros Nx Ny dx dy alpha dt u uNew sched m i j Hfit Hp Hlen Hs Hi Hj U U'.
  assert (HI : interior Nx Ny i j) by (split; assumption).
  assert (E : cell U' Ny i j = stencil U Ny dx dy alpha dt i j)
    by (apply launch_interior; assumption).
  split.
  - rewrite E; unfold stencil.
    replace (dx ^ 2)%R with (dx * dx)%R by ring.
    replace (dy ^ 2)%R with (dy * dy)%R by ring.
    reflexivity.
  - intros sched2 m2 Hlen2 Hs2 V E0 E1 E2 E3 E4.
    rewrite E, (launch_interior Nx Ny dx dy alpha dt u uNew sched2 m2 i j) by assumption.
    fold V; unfold stencil; rewrite E0, E1, E2, E3, E4; reflexivity.
Qed.

(** The centre of a 3 by 3 grid, the field holding 1..9 row after row. *)
Lemma update_kernel_interior_cell_3x3 :
  let m := {| bufA := [1; 2; 3; 4; 5; 6; 7; 8; 9]%R;
              bufB := [0; 0; 0; 0; 0; 0; 0; 0; 0]%R |} in
  let G := grid_threads (grid 3 3) block in
  (3 * 3 <= INT_MAX /\ BufA <> BufB /\
   Z.of_nat (length (load m BufB)) = 3 * 3 /\ schedule 3 3 G /\
   1 <= 1 <= 3 - 2) /\
  cell (load (launch G block BufA BufB 3 3 2 4 0.5 1 m) BufB) 3 1 1
  = (5 + 0.5 * 1 * ((8 - 2 * 5 + 2) / 2 ^ 2 + (6 - 2 * 5 + 4) / 4 ^ 2))%R.
Proof.
  intros m G.
  assert (A : 3 * 3 <= INT_MAX) by (unfold INT_MAX; lia).
  assert (B : BufA <> BufB) by discriminate.
  assert (C : Z.of_nat (length (load m BufB)) = 3 * 3) by reflexivity.
  assert (D : schedule 3 3 G) by apply Permutation_refl.
  assert (E : 1 <= 1 <= 3 - 2) by lia.
  split; [repeat split; assumption || apply E|].
  exact (proj1 (update_kernel_interior_cell 3 3 2 4 0.5 1 BufA BufB G m 1 1
                  A B C D E E)).
Defined.

End StencilStep.

(** ** The time-stepping loop *)

Section TimeStepping.
Import MachineInt Cuda.
Open Scope Z_scope.

Variables Nx Ny : Z.
Variables dx dy alpha dt : R.

Hypothesis HNx : 3 <= Nx.
Hypothesis HNy : 3 <= Ny.
Hypothesis Hfit : Nx * Ny <= INT_MAX.

Let iter := time_step_iter Nx Ny dx dy alpha dt.

(** What the loop maintains: two distinct buffers of [Nx*Ny] cells. *)
Let inv (h : host) : Prop :=
  d_u h <> d_uNew h /\
  forall p, Z.of_nat (length (load (dev h) p)) = Nx * Ny.

Lemma launch_any_length sched u uNew m p :
  u <> uNew -> schedule Nx Ny sched ->
  length (load (launch sched block u uNew Nx Ny dx dy alpha dt m) p)
  = length (load m p).
Proof.
  intros Hp Hs; apply launch_length; auto using schedule_incl.
Qed.

(** The order in which the threads of a launch run does not show in the
    memory the launch leaves. *)
Lemma launch_schedule_irrelevant s s' u uNew m :
  u <> uNew ->
  (forall p, Z.of_nat (length (load m p)) = Nx * Ny) ->
  schedule Nx Ny s -> schedule Nx Ny s' ->
  launch s block u uNew Nx Ny dx dy alpha dt m
  = launch s' block u uNew Nx Ny dx dy alpha dt m.
Proof.
  intros Hp Hlen Hs Hs'.
  apply dmem_ext; intros p.
  assert (Hpu : p = u \/ p = uNew) by (destruct p, u, uNew; auto; congruence).
  destruct Hpu as [->| ->].
  - rewrite !launch_src; auto using schedule_incl.
  - apply rd_ext.
    + rewrite !launch_any_length; auto.
    + intros k Hk; rewrite launch_any_length, Hlen in Hk by auto.
      assert (HD : interior Nx Ny (k / Ny) (k mod Ny)
                   \/ ~ interior Nx Ny (k / Ny) (k mod Ny))
        by (unfold interior; lia).
      destruct HD as [HI|HI].
      * pose proof (Z.div_mod k Ny ltac:(lia)) as E.
        assert (A : forall sch, schedule Nx Ny sch ->
                  rd (load (launch sch block u uNew Nx Ny dx dy alpha dt m) uNew) k
                  = stencil (load m u) Ny dx dy alpha dt (k / Ny) (k mod Ny)).
        { intros sch Hsch.
          pose proof (launch_interior Nx Ny dx dy alpha dt u uNew sch m
                        (k / Ny) (k mod Ny) Hfit Hp (Hlen uNew) Hsch HI) as L.
          unfold cell in L.
          replace (k / Ny * Ny + k mod Ny) with k in L by lia.
          exact L. }
        rewrite !A by assumption; reflexivity.
      * rewrite !launch_frame; auto using schedule_incl.
Qed.

Lemma iter_inv s h : schedule Nx Ny s -> inv h -> inv (iter s h).
Proof.
  intros Hs [Hp Hlen]; split; simpl.
  - congruence.
  - intros p; rewrite launch_any_length; auto.
Qed.

Lemma iter_schedule_irrelevant s s' h :
  schedule Nx Ny s -> schedule Nx Ny s' -> inv h -> iter s h = iter s' h.
Proof.
  intros Hs Hs' [Hp Hlen]; unfold iter, time_step_iter; f_equal.
  apply launch_schedule_irrelevant; auto.
Qed.

Lemma time_stepping_inv scheds h :
  Forall (schedule Nx Ny) scheds -> inv h ->
  inv (time_stepping Nx Ny dx dy alpha dt scheds h).
Proof.
  intros HF; revert h; induction HF as [|s rest Hs HF IH]; intros h Hh; simpl.
  - exact Hh.
  - apply IH; fold (iter s h); apply iter_inv; assumption.
Qed.

Lemma time_stepping_schedule_irrelevant scheds scheds' h :
  Forall (schedule Nx Ny) scheds -> Forall (schedule Nx Ny) scheds' ->
  length scheds = length scheds' -> inv h ->
  time_stepping Nx Ny dx dy alpha dt scheds h
  = time_stepping Nx Ny dx dy alpha dt scheds' h.
Proof.
  intros HF; revert scheds' h.
  induction HF as [|s rest Hs HF IH]; intros [|s' rest'] h HF' Hl Hh;
    simpl in *; try discriminate; [reflexivity|].
  inversion HF' as [|? ? Hs' HF'']; subst.
  fold (iter s h) (iter s' h).
  rewrite (iter_schedule_irrelevant s s' h) by assumption.
  apply IH; auto using iter_inv.
Qed.

Lemma device_init_inv u0 junk :
  Z.of_nat (length u0) = Nx * Ny -> Z.of_nat (length junk) = Nx * Ny ->
  inv (device_init u0 junk).
Proof.
  intros H0 H1; split; simpl; [discriminate|].
  intros [|]; simpl; assumption.
Qed.

(** A step leaves in the boundary cells of the field it produces what the
    output buffer held there before the step. *)
Lemma iter_boundary s h i j :
  schedule Nx Ny s -> inv h -> boundary Nx Ny i j ->
  cell (current (iter s h)) Ny i j = cell (load (dev h) (d_uNew h)) Ny i j.
Proof.
  intros Hs [Hp Hlen] (Hi & Hj & Hb).
  unfold current, cell; simpl.
  apply launch_frame; auto using schedule_incl.
  destruct (row_col Ny i j Hj) as [-> ->].
  unfold interior; lia.
Qed.

Lemma iter_interior s h i j :
  schedule Nx Ny s -> inv h -> interior Nx Ny i j ->
  cell (current (iter s h)) Ny i j = stencil (current h) Ny dx dy alpha dt i j.
Proof.
  intros Hs [Hp Hlen] HI.
  unfold current; simpl.
  apply launch_interior; auto.
Qed.

Lemma iter_source_kept s h :
  schedule Nx Ny s -> inv h ->
  load (dev (iter s h)) (d_u h) = load (dev h) (d_u h).
Proof.
  intros Hs [Hp Hlen]; simpl.
  apply launch_src; auto using schedule_incl.
Qed.

End TimeStepping.

(** ** The derived time step *)

Section TimeStep.
Import MachineInt Binary64.
Import QArith Floats.
Open Scope Z_scope.




(** The literals: [0.0001] is read as the double nearest to it, and
    [exact] gives a double its value. *)
Example binary64_literals :
  PrimFloat.eqb alpha 0x1.a36e2eb1c432dp-14 = true /\
  (exists q, exact 0.25%float = Some q /\ (q == Qmake 1 4)%Q) /\
  (exists q, exact (spacing Lx 3) = Some q /\ (q == Qmake 1 2)%Q).
Proof.
  split; [reflexivity|split]; eexists; (split; [vm_compute; reflexivity|]);
    reflexivity.
Qed.




End TimeStep.

(** ** Double buffering *)

Section DoubleBuffering.
Import MachineInt Cuda.
Open Scope Z_scope.

(** The pointers after the loop: as they were after an even number of
    iterations, swapped after an odd one. *)
Lemma time_stepping_pointers Nx Ny dx dy alpha dt scheds h :
  let h' := time_stepping Nx Ny dx dy alpha dt scheds h in
  d_u h' = (if Nat.even (length scheds) then d_u h else d_uNew h) /\
  d_uNew h' = (if Nat.even (length scheds) then d_uNew h else d_u h).
Proof.
  revert h; induction scheds as [|s rest IH]; intros h; [split; reflexivity|].
  cbv zeta.
  change (time_stepping Nx Ny dx dy alpha dt (s :: rest) h)
    with (time_stepping Nx Ny dx dy alpha dt rest
            (time_step_iter Nx Ny dx dy alpha dt s h)).
  destruct (IH (time_step_iter Nx Ny dx dy alpha dt s h)) as [A B].
  cbv zeta in A, B; rewrite A, B.
  simpl length; rewrite Nat.even_succ, <- Nat.negb_even.
  destruct (Nat.even (length rest)); simpl; split; reflexivity.
Qed.

(** The loop after one more iteration. *)
Lemma time_stepping_snoc Nx Ny dx dy alpha dt scheds s h :
  time_stepping Nx Ny dx dy alpha dt (scheds ++ [s]) h
  = time_step_iter Nx Ny dx dy alpha dt s
      (time_stepping Nx Ny dx dy alpha dt scheds h).
Proof. unfold time_stepping; rewrite fold_left_app; reflexivity. Qed.

(** C2: each step reads the current buffer and writes the other one, never
    in place, and the loop alternates the two buffers.  The loop starts from
    the device as the copy of the initial field left it, and its state after
    n+1 iterations is one iteration from its state [h] after n; after n
    iterations the two pointers are distinct, the first buffer is current
    when n is even and the second when n is odd, and the state does not
    depend on the order in which the threads of the launches ran.  Iteration
    n+1 reads the current buffer of [h], that is the buffer iteration n
    wrote, leaves it as it was, writes the other buffer and makes it current:
    the field iteration n+2 reads is the output of the launch of iteration
    n+1, whole; every interior cell of it is computed from the values before
    the step, whatever the order of the threads. *)
Theorem time_stepping_double_buffered :
  forall (Nx Ny : Z) (dx dy alpha dt : R) (u0 junk : list R)
         (scheds : list (list thread)),
    3 <= Nx -> 3 <= Ny -> Nx * Ny <= INT_MAX ->
    Z.of_nat (length u0) = Nx * Ny ->
    Z.of_nat (length junk) = Nx * Ny ->
    Forall (schedule Nx Ny) scheds ->
    let run := fun scheds =>
      time_stepping Nx Ny dx dy alpha dt scheds (device_init u0 junk) in
    let h := run scheds in
    run [] = device_init u0 junk /\
    d_u h <> d_uNew h /\
    d_u h = (if Nat.even (length scheds) then BufA else BufB) /\
    d_uNew h = (if Nat.even (length scheds) then BufB else BufA) /\
    (forall scheds',
        Forall (schedule Nx Ny) scheds' -> length scheds' = length scheds ->
        run scheds' = h) /\
    (forall s,
        schedule Nx Ny s ->
        let h' := run (scheds ++ [s]) in
        h' = time_step_iter Nx Ny dx dy alpha dt s h /\
        d_u h' = d_uNew h /\ d_uNew h' = d_u h /\
        load (dev h') (d_u h) = load (dev h) (d_u h) /\
        current h'
        = load (launch s block (d_u h) (d_uNew h) Nx Ny dx dy alpha dt (dev h))
               (d_uNew h) /\
        (forall i j,
            interior Nx Ny i j ->
            cell (current h') Ny i j = stencil (current h) Ny dx dy alpha dt i j) /\
        (forall s', schedule Nx Ny s' ->
                    time_step_iter Nx Ny dx dy alpha dt s' h = h') /\
        (forall s2,
            schedule Nx Ny s2 ->
            let h'' := run (scheds ++ [s; s2]) in
            dev h''
            = launch s2 block (d_u h') (d_uNew h') Nx Ny dx dy alpha dt (dev h') /\
            forall i j,
              interior Nx Ny i j ->
              cell (current h'') Ny i j
              = stencil (current h') Ny dx dy alpha dt i j)).
Proof.
  intros Nx Ny dx dy alpha dt u0 junk scheds HNx HNy Hfit H0 H1 HF run h.
  pose proof (device_init_inv Nx Ny u0 junk H0 H1) as Hinit.
  pose proof (time_stepping_inv Nx Ny dx dy alpha dt HNx HNy Hfit
                scheds _ HF Hinit) as Hh.
  fold (run scheds) in Hh; fold h in Hh.
  destruct (time_stepping_pointers Nx Ny dx dy alpha dt scheds
              (device_init u0 junk)) as [Pu Pn].
  cbv zeta in Pu, Pn; fold (run scheds) in Pu, Pn; fold h in Pu, Pn.
  split; [reflexivity|].
  split; [exact (proj1 Hh)|].
  split; [exact Pu|split; [exact Pn|split]].
  - intros scheds' HF' Hl.
    apply time_stepping_schedule_irrelevant; auto.
  - intros s Hs h'.
    assert (E : h' = time_step_iter Nx Ny dx dy alpha dt s h)
      by apply time_stepping_snoc.
    assert (Hh' : d_u h' <> d_uNew h' /\
                  forall p, Z.of_nat (length (load (dev h') p)) = Nx * Ny)
      by (rewrite E; apply iter_inv; assumption).
    split; [exact E|].
    rewrite E.
    split; [reflexivity|split; [reflexivity|]].
    split; [apply iter_source_kept; assumption|].
    split; [reflexivity|].
    split; [intros i j HI; apply iter_interior; assumption|].
    split; [intros s' Hs'; apply iter_schedule_irrelevant; assumption|].
    intros s2 Hs2 h''.
    assert (E2 : h'' = time_step_iter Nx Ny dx dy alpha dt s2 h').
    { unfold h'', h', run.
      change (scheds ++ [s; s2]) with (scheds ++ [s] ++ [s2]).
      rewrite app_assoc; apply time_stepping_snoc. }
    rewrite <- E, E2.
    split; [reflexivity|].
    intros i j HI; apply iter_interior; assumption.
Qed.

(** The smallest grid, two steps from a field of nine distinct values: the
    third step reads the second buffer's pointer back as the first, and its
    launch may run its threads in any order. *)
Lemma time_stepping_double_buffered_3x3 :
  let u0 := [1; 2; 3; 4; 5; 6; 7; 8; 9]%R in
  let junk := [0; 0; 0; 0; 0; 0; 0; 0; 0]%R in
  let G := grid_threads (grid 3 3) block in
  let h := time_stepping 3 3 1 1 1 1 [G; G] (device_init u0 junk) in
  (3 * 3 <= INT_MAX /\ Z.of_nat (length u0) = 3 * 3 /\
   Z.of_nat (length junk) = 3 * 3 /\ Forall (schedule 3 3) [G; G]) /\
  d_u h <> d_uNew h /\
  d_u h = BufA /\
  (forall s, schedule 3 3 s ->
     time_stepping 3 3 1 1 1 1 ([G; G] ++ [s]) (device_init u0 junk)
     = time_step_iter 3 3 1 1 1 1 s h /\
     forall s', schedule 3 3 s' ->
       time_step_iter 3 3 1 1 1 1 s' h = time_step_iter 3 3 1 1 1 1 s h).
Proof.
  intros u0 junk G h.
  assert (A : 3 <= 3) by lia.
  assert (B : 3 * 3 <= INT_MAX) by (unfold INT_MAX; lia).
  assert (C : Z.of_nat (length u0) = 3 * 3) by reflexivity.
  assert (D : Z.of_nat (length junk) = 3 * 3) by reflexivity.
  assert (E : Forall (schedule 3 3) [G; G])
    by (repeat constructor; apply Permutation_refl).
  pose proof (time_stepping_double_buffered 3 3 1 1 1 1 u0 junk [G; G]
                A A B C D E) as T.
  cbv zeta in T.
  destruct T as (_ & T1 & T2 & _ & _ & T5).
  split; [repeat split; assumption|].
  split; [exact T1|].
  split; [exact T2|].
  intros s Hs.
  destruct (T5 s Hs) as (S1 & _ & _ & _ & _ & _ & S7 & _).
  split; [exact S1|].
  intros s' Hs'.
  transitivity (time_stepping 3 3 1 1 1 1 ([G; G] ++ [s]) (device_init u0 junk));
    [exact (S7 s' Hs')|exact S1].
Defined.

End DoubleBuffering.

(** ** The boundary *)

Section Boundary.
Import MachineInt Cuda.
Open Scope Z_scope.

Lemma flat_map_rows_length (f : Z -> list R) (n : nat) (rows : list Z) :
  (forall i, length (f i) = n) ->
  length (flat_map f rows) = (length rows * n)%nat.
Proof.
  intros Hf; induction rows as [|r rows IH]; simpl; [reflexivity|].
  rewrite length_app, Hf, IH; reflexivity.
Qed.

Lemma nth_flat_map_rows (f : Z -> list R) (n : nat) (rows : list Z) :
  (forall i, length (f i) = n) ->
  forall i j, (i < length rows)%nat -> (j < n)%nat ->
  nth (i * n + j) (flat_map f rows) 0%R = nth j (f (nth i rows 0)) 0%R.
Proof.
  intros Hf; induction rows as [|r rows IH]; intros i j Hi Hj; simpl in Hi; [lia|].
  simpl flat_map; destruct i as [|i]; simpl.
  - apply app_nth1; rewrite Hf; exact Hj.
  - rewrite app_nth2 by (rewrite Hf; lia).
    rewrite Hf.
    replace (n + i * n + j - n)%nat with (i * n + j)%nat by lia.
    apply IH; lia.
Qed.

Lemma zrange_length n : length (zrange n) = Z.to_nat n.
Proof. unfold zrange; rewrite length_map, length_seq; reflexivity. Qed.

Lemma nth_zrange n i : (i < Z.to_nat n)%nat -> nth i (zrange n) 0 = Z.of_nat i.
Proof.
  intros H; unfold zrange.
  change 0 with (Z.of_nat 0); rewrite map_nth, seq_nth by exact H.
  reflexivity.
Qed.

Lemma initial_field_length Nx Ny :
  0 <= Nx -> 0 <= Ny -> Z.of_nat (length (initial_field Nx Ny)) = Nx * Ny.
Proof.
  intros HNx HNy; unfold initial_field.
  rewrite (flat_map_rows_length _ (Z.to_nat Ny)), zrange_length.
  - lia.
  - intros i; rewrite length_map; apply zrange_length.
Qed.

(** The initial field holds the Gaussian at every cell. *)
Lemma initial_field_cell Nx Ny i j :
  0 <= i < Nx -> 0 <= j < Ny ->
  cell (initial_field Nx Ny) Ny i j = initial_value Nx Ny i j.
Proof.
  intros Hi Hj; unfold cell, rd, initial_field.
  destruct (Z.ltb_spec (i * Ny + j) 0); [nia|].
  replace (Z.to_nat (i * Ny + j))
    with (Z.to_nat i * Z.to_nat Ny + Z.to_nat j)%nat by nia.
  rewrite (nth_flat_map_rows _ (Z.to_nat Ny)).
  - rewrite nth_zrange by lia.
    rewrite (Z2Nat.id i) by lia.
    rewrite (nth_indep _ 0%R (initial_value Nx Ny i 0))
      by (rewrite length_map, zrange_length; lia).
    rewrite (map_nth (fun j => initial_value Nx Ny i j)).
    rewrite nth_zrange by lia.
    rewrite Z2Nat.id by lia; reflexivity.
  - intros r; rewrite length_map; apply zrange_length.
  - rewrite zrange_length; lia.
  - lia.
Qed.

(** After the first iteration of the loop, the boundary of the field holds
    what the allocation of [d_uNew] held, not the initial boundary. *)
Lemma first_step_boundary Nx Ny dx dy alpha dt u0 junk s i j :
  3 <= Nx -> 3 <= Ny -> Nx * Ny <= INT_MAX ->
  Z.of_nat (length u0) = Nx * Ny ->
  Z.of_nat (length junk) = Nx * Ny ->
  schedule Nx Ny s ->
  boundary Nx Ny i j ->
  cell (current (time_stepping Nx Ny dx dy alpha dt [s] (device_init u0 junk)))
       Ny i j
  = cell junk Ny i j.
Proof.
  intros HNx HNy Hfit H0 H1 Hs HB.
  unfold time_stepping, fold_left.
  rewrite iter_boundary; auto.
  apply device_init_inv; assumption.
Qed.

(** C3, on the code: the first iteration of the loop of [main], the
    allocation of [d_uNew] holding zeros.  The kernel writes no boundary
    cell and nothing else fills the boundary of [d_uNew], so the field after
    the step has [0] at the corner cell (0,0), where the initial field has
    exp(-25): the boundary is not carried over. *)
Theorem first_step_boundary_not_kept :
  let Nx := 200 in
  let Ny := 200 in
  let alpha := 0.0001%R in
  let dx := spacing Lx Nx in
  let dy := spacing Ly Ny in
  let dt := time_step dx dy alpha in
  let u0 := initial_field Nx Ny in
  let junk := repeat 0%R (Z.to_nat (Nx * Ny)) in
  let h1 := time_stepping Nx Ny dx dy alpha dt
              [grid_threads (grid Nx Ny) block] (device_init u0 junk) in
  boundary Nx Ny 0 0 /\
  cell u0 Ny 0 0 = exp (- 25) /\
  cell (current h1) Ny 0 0 = 0%R /\
  cell (current h1) Ny 0 0 <> cell u0 Ny 0 0.
Proof.
  intros Nx Ny alpha dx dy dt u0 junk h1.
  assert (HNx : 3 <= Nx) by (subst Nx; lia).
  assert (HNy : 3 <= Ny) by (subst Ny; lia).
  assert (Hfit : Nx * Ny <= INT_MAX) by (subst Nx Ny; unfold INT_MAX; lia).
  assert (HB : boundary Nx Ny 0 0) by (unfold boundary; lia).
  assert (L0 : Z.of_nat (length u0) = Nx * Ny)
    by (apply initial_field_length; lia).
  assert (L1 : Z.of_nat (length junk) = Nx * Ny).
  { unfold junk; rewrite repeat_length; apply Z2Nat.id; lia. }
  assert (H0 : cell u0 Ny 0 0 = exp (- 25)).
  { unfold u0; rewrite initial_field_cell by lia.
    unfold initial_value, Lx, Ly; f_equal.
    rewrite !Rmult_0_l; lra. }
  assert (Hj : cell junk Ny 0 0 = 0%R).
  { unfold cell, rd, junk; rewrite Z.mul_0_l, Z.add_0_l.
    change (0 <? 0) with false; cbv iota.
    apply nth_repeat. }
  assert (H1 : cell (current h1) Ny 0 0 = 0%R).
  { rewrite <- Hj; unfold h1.
    apply first_step_boundary; auto.
    apply Permutation_refl. }
  clearbody Nx Ny u0 junk h1.
  split; [exact HB|split; [exact H0|split; [exact H1|]]].
  rewrite H0, H1.
  pose proof (exp_pos (- 25)); lra.
Qed.

End Boundary.

(** ** NumPy reductions *)

Section NumpyFacts.
Import Py Np.
Open Scope R_scope.

(** Two arrays of one shape with the same elements. *)
Let same (a b : ndarray) : Prop :=
  shape a = shape b /\ forall k, item a k = item b k.

Lemma shape_eqb_eq s t : shape_eqb s t = true <-> s = t.
Proof.
  destruct s as [a b], t as [c d]; unfold shape_eqb; simpl.
  rewrite andb_true_iff, !Nat.eqb_eq; split.
  - intros [-> ->]; reflexivity.
  - intros E; inversion E; auto.
Qed.

Lemma shape_eqb_refl s : shape_eqb s s = true.
Proof. apply shape_eqb_eq; reflexivity. Qed.

Lemma same_size a b : same a b -> size a = size b.
Proof. intros [E _]; unfold size; rewrite E; reflexivity. Qed.

Lemma same_ravel a b : same a b -> ravel a = ravel b.
Proof.
  intros H; unfold ravel; rewrite (same_size a b H).
  apply map_ext; exact (proj2 H).
Qed.

Lemma same_sum a b : same a b -> sum a = sum b.
Proof. intros H; unfold sum; rewrite (same_ravel a b H); reflexivity. Qed.

Lemma same_mean a b : same a b -> mean a = mean b.
Proof.
  intros H; unfold mean.
  rewrite (same_sum a b H), (same_size a b H); reflexivity.
Qed.

Lemma same_max a b : same a b -> Np.max a = Np.max b.
Proof. intros H; unfold Np.max; rewrite (same_ravel a b H); reflexivity. Qed.

Lemma same_std a b : same a b -> std a = std b.
Proof.
  intros H; unfold std; f_equal.
  apply same_mean; split; simpl; [exact (proj1 H)|].
  intros k; rewrite (same_mean a b H), (proj2 H k); reflexivity.
Qed.

Lemma ravel_length a : length (ravel a) = size a.
Proof. unfold ravel; rewrite length_map, length_seq; reflexivity. Qed.

(** A non-empty array has a maximum. *)
Lemma max_returns a : (0 < size a)%nat -> exists v, Np.max a = Returns v.
Proof.
  intros H; unfold Np.max.
  pose proof (ravel_length a) as L.
  destruct (ravel a) as [|x l]; [simpl in L; lia|].
  eexists; reflexivity.
Qed.

Lemma fold_zero_sum (l : list R) :
  (forall v, In v l -> v = 0) -> fold_right Rplus 0 l = 0.
Proof.
  induction l as [|v l IH]; intros H; simpl; [reflexivity|].
  rewrite IH by (intros w Hw; apply H; right; exact Hw).
  rewrite (H v) by (left; reflexivity); lra.
Qed.

Lemma fold_zero_max (l : list R) :
  (forall v, In v l -> v = 0) -> fold_left Rmax l 0 = 0.
Proof.
  induction l as [|v l IH]; intros H; simpl; [reflexivity|].
  rewrite (H v) by (left; reflexivity).
  rewrite Rmax_left by lra.
  apply IH; intros w Hw; apply H; right; exact Hw.
Qed.

Lemma ravel_zero a :
  (forall k, item a k = 0) -> forall v, In v (ravel a) -> v = 0.
Proof.
  intros H v Hv; unfold ravel in Hv.
  apply in_map_iff in Hv; destruct Hv as [k [<- _]]; apply H.
Qed.

Lemma sum_zero a : (forall k, item a k = 0) -> sum a = 0.
Proof. intros H; apply fold_zero_sum, ravel_zero, H. Qed.

Lemma mean_zero a : (forall k, item a k = 0) -> mean a = 0.
Proof. intros H; unfold mean; rewrite sum_zero by exact H; unfold Rdiv; ring. Qed.

Lemma max_zero a :
  (0 < size a)%nat -> (forall k, item a k = 0) -> Np.max a = Returns 0.
Proof.
  intros Hs H; unfold Np.max.
  pose proof (ravel_length a) as L.
  pose proof (ravel_zero a H) as Z.
  destruct (ravel a) as [|x l]; [simpl in L; lia|].
  rewrite (Z x) by (left; reflexivity).
  rewrite fold_zero_max; [reflexivity|].
  intros w Hw; apply Z; right; exact Hw.
Qed.

End NumpyFacts.

(** ** The error metrics *)

Section ErrorMetrics.
Import Py Np Harness.
Open Scope R_scope.

(** On two non-empty arrays of one shape [calculate_errors] returns the
    metrics, built from the two error maps. *)
Lemma calculate_errors_returns reference comparison name :
  shape reference = shape comparison -> (0 < size reference)%nat ->
  exists max_abs max_rel,
    let abs_err := Np.abs (subtract reference comparison) in
    let rel_err := divide abs_err (Np.abs reference) (zeros_like abs_err)
                     (greater (Np.abs reference) 1e-15) in
    Np.max abs_err = Returns max_abs /\
    Np.max rel_err = Returns max_rel /\
    calculate_errors (Some reference) (Some comparison) name
    = ([], Returns (Some
        {| method := name;
           mse := mean (square (subtract reference comparison));
           rmse := sqrt (mean (square (subtract reference comparison)));
           max_absolute_error := max_abs;
           mean_absolute_error := mean abs_err;
           max_relative_error := max_rel;
           mean_relative_error := mean rel_err;
           std_absolute_error := std abs_err;
           absolute_errors := abs_err;
           relative_errors := rel_err |})).
Proof.
  intros Hshape Hsize.
  destruct (max_returns (Np.abs (subtract reference comparison)) Hsize)
    as [max_abs Ha].
  destruct (max_returns
              (divide (Np.abs (subtract reference comparison))
                 (Np.abs reference)
                 (zeros_like (Np.abs (subtract reference comparison)))
                 (greater (Np.abs reference) 1e-15)) Hsize)
    as [max_rel Hr].
  exists max_abs, max_rel; cbv zeta.
  split; [exact Ha|split; [exact Hr|]].
  unfold calculate_errors.
  rewrite Hshape, shape_eqb_refl; simpl negb; cbv iota.
  rewrite Ha; simpl bind; rewrite Hr; reflexivity.
Qed.

(** C5: comparing a dataset to itself gives mse = rmse = max_absolute_error
    = mean_absolute_error = 0, with [calculate_errors] and with the
    computation in the loop of [main]. *)
Theorem self_comparison_zero :
  forall (dataset : ndarray) (name : string),
    (0 < size dataset)%nat ->
    (exists m,
        snd (calculate_errors (Some dataset) (Some dataset) name)
        = Returns (Some m) /\
        mse m = 0 /\ rmse m = 0 /\
        max_absolute_error m = 0 /\ mean_absolute_error m = 0) /\
    (exists e,
        inline_errors dataset dataset = Returns e /\
        e_mse e = 0 /\ e_rmse e = 0 /\ e_max_absolute_error e = 0).
Proof.
  intros d name Hsize.
  assert (Zabs : forall k, item (Np.abs (subtract d d)) k = 0)
    by (intros k; simpl; rewrite Rminus_diag; apply Rabs_R0).
  assert (Zsq : forall k, item (square (subtract d d)) k = 0)
    by (intros k; simpl; rewrite Rminus_diag; ring).
  assert (Zpow : forall k, item (pow2 (subtract d d)) k = 0)
    by (intros k; simpl; rewrite Rminus_diag; ring).
  split.
  - destruct (calculate_errors_returns d d name eq_refl Hsize)
      as (ma & mr & Ha & _ & E).
    cbv zeta in Ha, E.
    rewrite (max_zero (Np.abs (subtract d d)) Hsize Zabs) in Ha; injection Ha as <-.
    rewrite E; simpl snd.
    eexists; split; [reflexivity|]; simpl.
    rewrite (mean_zero _ Zsq), (mean_zero _ Zabs), sqrt_0; auto.
  - unfold inline_errors.
    rewrite (max_zero (Np.abs (subtract d d)) Hsize Zabs); simpl bind.
    eexists; split; [reflexivity|]; simpl.
    rewrite (mean_zero _ Zpow), sqrt_0; auto.
Qed.

(** A 2 by 2 dataset compared to itself. *)
Lemma self_comparison_zero_2x2 :
  let d := {| shape := (2, 2)%nat;
              item := fun k => nth k [1; 0.5; 0.25; 0] 0 |} in
  (0 < size d)%nat /\
  exists m,
    snd (calculate_errors (Some d) (Some d) "cuda") = Returns (Some m) /\
    mse m = 0 /\ rmse m = 0 /\
    max_absolute_error m = 0 /\ mean_absolute_error m = 0.
Proof.
  intros d.
  assert (H : (0 < size d)%nat) by (unfold size; simpl; lia).
  split; [exact H|].
  exact (proj1 (self_comparison_zero d "cuda" H)).
Defined.

(** C7: on arrays of one shape, at every cell, absolute_error is
    |reference - comparison|, and relative_error is
    absolute_error / |reference| where |reference| > 1e-15 and 0 where
    |reference| <= 1e-15. *)
Theorem elementwise_errors :
  forall (reference comparison : ndarray) (name : string),
    shape reference = shape comparison ->
    (0 < size reference)%nat ->
    exists m,
      snd (calculate_errors (Some reference) (Some comparison) name)
      = Returns (Some m) /\
      shape (absolute_errors m) = shape reference /\
      shape (relative_errors m) = shape reference /\
      forall k, (k < size reference)%nat ->
        item (absolute_errors m) k
        = Rabs (item reference k - item comparison k) /\
        (Rabs (item reference k) > 1e-15 ->
         item (relative_errors m) k
         = item (absolute_errors m) k / Rabs (item reference k)) /\
        (Rabs (item reference k) <= 1e-15 ->
         item (relative_errors m) k = 0).
Proof.
  intros ref cmp name Hshape Hsize.
  destruct (calculate_errors_returns ref cmp name Hshape Hsize)
    as (ma & mr & _ & _ & E).
  cbv zeta in E; rewrite E; simpl snd.
  eexists; split; [reflexivity|]; simpl.
  split; [reflexivity|split; [reflexivity|]].
  intros k _; split; [reflexivity|].
  unfold greater; simpl.
  destruct (Rlt_dec 1e-15 (Rabs (item ref k))) as [Hgt|Hle]; split;
    intros H; try reflexivity; lra.
Qed.

(** A 1 by 2 reference with one cell below the threshold. *)
Lemma elementwise_errors_1x2 :
  let reference := {| shape := (1, 2)%nat; item := fun k => nth k [2; 0] 0 |} in
  let comparison := {| shape := (1, 2)%nat; item := fun k => nth k [1; 1] 0 |} in
  (shape reference = shape comparison /\ (0 < size reference)%nat) /\
  exists m,
    snd (calculate_errors (Some reference) (Some comparison) "openmp")
    = Returns (Some m) /\
    item (absolute_errors m) 1 = Rabs (0 - 1) /\
    item (relative_errors m) 1 = 0.
Proof.
  intros reference comparison.
  assert (Hs : shape reference = shape comparison) by reflexivity.
  assert (Hn : (0 < size reference)%nat) by (unfold size; simpl; lia).
  split; [split; assumption|].
  destruct (elementwise_errors reference comparison "openmp" Hs Hn)
    as (m & E & _ & _ & Hk).
  exists m; split; [exact E|].
  assert (H1 : (1 < size reference)%nat) by (unfold size; simpl; lia).
  destruct (Hk 1%nat H1) as (A & _ & C).
  split; [exact A|].
  apply C; simpl; rewrite Rabs_R0; lra.
Defined.

(** C10: on arrays of one shape, [calculate_errors(a, b, name)] and
    [calculate_errors(b, a, name)] return the same mse, rmse,
    max_absolute_error, mean_absolute_error and std_absolute_error. *)
Theorem absolute_metrics_symmetric :
  forall (a b : ndarray) (name : string),
    shape a = shape b ->
    (0 < size a)%nat ->
    exists m1 m2,
      snd (calculate_errors (Some a) (Some b) name) = Returns (Some m1) /\
      snd (calculate_errors (Some b) (Some a) name) = Returns (Some m2) /\
      mse m1 = mse m2 /\
      rmse m1 = rmse m2 /\
      max_absolute_error m1 = max_absolute_error m2 /\
      mean_absolute_error m1 = mean_absolute_error m2 /\
      std_absolute_error m1 = std_absolute_error m2.
Proof.
  intros a b name Hshape Hsize.
  assert (Hsize' : (0 < size b)%nat) by (unfold size in *; rewrite <- Hshape; exact Hsize).
  destruct (calculate_errors_returns a b name Hshape Hsize)
    as (ma1 & mr1 & Ha1 & _ & E1).
  destruct (calculate_errors_returns b a name (eq_sym Hshape) Hsize')
    as (ma2 & mr2 & Ha2 & _ & E2).
  cbv zeta in *.
  assert (Sabs : shape (Np.abs (subtract a b)) = shape (Np.abs (subtract b a))
                 /\ forall k, item (Np.abs (subtract a b)) k
                              = item (Np.abs (subtract b a)) k).
  { split; [exact Hshape|]; intros k; simpl; apply Rabs_minus_sym. }
  assert (Ssq : shape (square (subtract a b)) = shape (square (subtract b a))
                /\ forall k, item (square (subtract a b)) k
                             = item (square (subtract b a)) k).
  { split; [exact Hshape|]; intros k; simpl; ring. }
  rewrite E1, E2; simpl snd.
  do 2 eexists; split; [reflexivity|split; [reflexivity|]]; simpl.
  rewrite (same_mean _ _ Ssq), (same_mean _ _ Sabs), (same_std _ _ Sabs).
  rewrite (same_max _ _ Sabs), Ha2 in Ha1; injection Ha1 as ->.
  repeat split; reflexivity.
Qed.

(** Two 1 by 2 arrays, compared both ways. *)
Lemma absolute_metrics_symmetric_1x2 :
  let a := {| shape := (1, 2)%nat; item := fun k => nth k [2; 0] 0 |} in
  let b := {| shape := (1, 2)%nat; item := fun k => nth k [1; 4] 0 |} in
  (shape a = shape b /\ (0 < size a)%nat) /\
  exists m1 m2,
    snd (calculate_errors (Some a) (Some b) "cuda") = Returns (Some m1) /\
    snd (calculate_errors (Some b) (Some a) "cuda") = Returns (Some m2) /\
    mse m1 = mse m2 /\
    rmse m1 = rmse m2 /\
    max_absolute_error m1 = max_absolute_error m2 /\
    mean_absolute_error m1 = mean_absolute_error m2 /\
    std_absolute_error m1 = std_absolute_error m2.
Proof.
  intros a b.
  assert (Hs : shape a = shape b) by reflexivity.
  assert (Hn : (0 < size a)%nat) by (unfold size; simpl; lia).
  split; [split; assumption|].
  exact (absolute_metrics_symmetric a b "cuda" Hs Hn).
Defined.

End ErrorMetrics.

(** ** The validation pass *)

Section ValidationPass.
Import Py Np Harness.
Open Scope string_scope.
Open Scope list_scope.

Lemma loads_usable fs filename a : loads fs filename a -> ~ unusable (fs filename).
Proof. intros [md E]; rewrite E; simpl; auto. Qed.

Lemma load_and_print_loads fs filename a :
  loads fs filename a ->
  load_and_print fs filename
  = ([[Str "Loaded "; Str filename; Str ": Shape "; Shape (shape a)];
      [Str "Loaded "; Str filename; Str ": Shape "; Shape (shape a)]],
     Returns a).
Proof.
  intros [md E]; unfold load_and_print, load_heat_data; rewrite E; reflexivity.
Qed.

(** A load of the [try] block raises exactly on an unusable file. *)
Lemma load_and_print_unusable fs filename :
  unusable (fs filename) ->
  exists out e, load_and_print fs filename = (out, Raises e).
Proof.
  unfold load_and_print, load_heat_data, unusable.
  destruct (fs filename) as [|[md|e] [msg|a]]; intros H;
    try contradiction; eexists; eexists; reflexivity.
Qed.

Lemma load_and_print_cases fs filename :
  (exists out a, load_and_print fs filename = (out, Returns a))
  \/ (exists out e, load_and_print fs filename = (out, Raises e)).
Proof.
  destruct (load_and_print fs filename) as [out [a|e]]; [left|right]; eauto.
Qed.

Lemma load_all_unusable fs filename :
  In filename result_files -> unusable (fs filename) ->
  exists out e, load_all fs = (out, Raises e).
Proof.
  intros Hin Hu.
  destruct (load_and_print_unusable fs filename Hu) as (o & e & E).
  unfold load_all.
  destruct (load_and_print_cases fs "serial_heat_distribution.csv")
    as [(o1 & a1 & E1)|(o1 & e1 & E1)]; rewrite E1; [|eauto].
  destruct (load_and_print_cases fs "openmp_heat_distribution.csv")
    as [(o2 & a2 & E2)|(o2 & e2 & E2)]; rewrite E2; [|eauto].
  destruct (load_and_print_cases fs "cuda_heat_distribution.csv")
    as [(o3 & a3 & E3)|(o3 & e3 & E3)]; rewrite E3; [|eauto].
  destruct (load_and_print_cases fs "hybrid_heat_distribution.csv")
    as [(o4 & a4 & E4)|(o4 & e4 & E4)]; rewrite E4; [|eauto].
  exfalso.
  simpl in Hin; destruct Hin as [<-|[<-|[<-|[<-|[]]]]]; congruence.
Qed.

Lemma load_all_loads fs serial openmp cuda hybrid :
  loads fs "serial_heat_distribution.csv" serial ->
  loads fs "openmp_heat_distribution.csv" openmp ->
  loads fs "cuda_heat_distribution.csv" cuda ->
  loads fs "hybrid_heat_distribution.csv" hybrid ->
  exists out, load_all fs = (out, Returns (serial, openmp, cuda, hybrid)).
Proof.
  intros H1 H2 H3 H4; unfold load_all.
  rewrite (load_and_print_loads _ _ _ H1), (load_and_print_loads _ _ _ H2),
    (load_and_print_loads _ _ _ H3), (load_and_print_loads _ _ _ H4).
  eexists; reflexivity.
Qed.

(** When a load raises, [main] writes no report. *)
Lemma main_no_report fs now out e :
  load_all fs = (out, Raises e) -> report (main fs now) = None.
Proof.
  intros E; unfold main; rewrite E; destruct e; reflexivity.
Qed.

Lemma inline_errors_returns reference data :
  shape data = shape reference -> (0 < size reference)%nat ->
  exists e, inline_errors reference data = Returns e.
Proof.
  intros Hs Hn; unfold inline_errors.
  destruct (max_returns (Np.abs (subtract reference data)) Hn) as [v ->].
  eexists; reflexivity.
Qed.

(** The loop over the methods: it ends, it adds the entry of every method
    of the reference's shape, and it prints the skip line of every other
    method. *)
Lemma error_loop_spec reference :
  (0 < size reference)%nat ->
  forall methods out acc,
  exists out' entries,
    error_loop reference methods out acc = (out', Returns (acc ++ entries)) /\
    incl out out' /\
    map fst entries
    = map fst (filter (fun md => shape_eqb (shape reference) (shape (snd md)))
                 methods) /\
    (forall m d, In (m, d) methods ->
       shape_eqb (shape reference) (shape d) = true ->
       exists e, inline_errors reference d = Returns e /\ In (m, e) entries) /\
    (forall m d, In (m, d) methods ->
       shape_eqb (shape reference) (shape d) = false ->
       In (skip_line m d reference) out').
Proof.
  intros Hn methods; induction methods as [|[m d] rest IH]; intros out acc.
  - exists out, []; simpl; rewrite app_nil_r.
    repeat split; auto using incl_refl; intros ? ? [].
  - simpl error_loop; simpl filter.
    destruct (shape_eqb (shape reference) (shape d)) eqn:Hs; simpl negb; cbv iota.
    + apply shape_eqb_eq in Hs.
      destruct (inline_errors_returns reference d (eq_sym Hs) Hn) as [e He].
      rewrite He.
      match goal with |- context [error_loop reference rest ?o ?a] =>
        destruct (IH o a) as (out' & entries & E & Hincl & Hfst & Hin & Hskip)
      end.
      exists out', ((m, e) :: entries).
      rewrite E, <- app_assoc; simpl.
      split; [reflexivity|split; [|split; [|split]]].
      * intros l Hl; apply Hincl; rewrite !in_app_iff; auto.
      * rewrite Hfst; reflexivity.
      * intros m' d' [Eq|Hrest] Hs'.
        -- inversion Eq; subst; exists e; auto.
        -- destruct (Hin m' d' Hrest Hs') as (e' & He' & Hin'); eauto.
      * intros m' d' [Eq|Hrest] Hs'.
        -- inversion Eq; subst.
           apply shape_eqb_eq in Hs; congruence.
        -- auto.
    + match goal with |- context [error_loop reference rest ?o ?a] =>
        destruct (IH o a) as (out' & entries & E & Hincl & Hfst & Hin & Hskip)
      end.
      exists out', entries.
      rewrite E.
      split; [reflexivity|split; [|split; [|split]]].
      * intros l Hl; apply Hincl; rewrite in_app_iff; auto.
      * exact Hfst.
      * intros m' d' [Eq|Hrest] Hs'; [inversion Eq; subst; congruence|auto].
      * intros m' d' [Eq|Hrest] Hs'; [|auto].
        inversion Eq; subst; apply Hincl.
        rewrite in_app_iff; right; left; reflexivity.
Qed.

(** The report names every method of [all_errors]. *)
Lemma report_names_method all_errors now m e :
  In (m, e) all_errors ->
  In [Str "METHOD: "; Str (upper m); Str "\n"]
     (generate_error_report all_errors now).
Proof.
  intros H; unfold generate_error_report.
  rewrite !in_app_iff; right; right; right; left.
  apply in_flat_map; exists (m, e); split; [exact H|].
  left; reflexivity.
Qed.

(** [calculate_errors] on a comparison of another shape: two lines, no
    metrics. *)
Lemma calculate_errors_shape_mismatch reference comparison name :
  shape reference <> shape comparison ->
  calculate_errors (Some reference) (Some comparison) name
  = ([[Str "Error: Shape mismatch for "; Str name];
      [Str "Reference shape: "; Shape (shape reference);
       Str ", Comparison shape: "; Shape (shape comparison)]],
     Returns None).
Proof.
  intros H; unfold calculate_errors.
  destruct (shape_eqb (shape reference) (shape comparison)) eqn:E;
    [apply shape_eqb_eq in E; contradiction|reflexivity].
Qed.

(** [main] when the four files load and the reference is not empty: the
    loop runs to its end and the report is written from the entries it
    collected. *)
Lemma main_loaded fs now serial openmp cuda hybrid :
  loads fs "serial_heat_distribution.csv" serial ->
  loads fs "openmp_heat_distribution.csv" openmp ->
  loads fs "cuda_heat_distribution.csv" cuda ->
  loads fs "hybrid_heat_distribution.csv" hybrid ->
  (0 < size serial)%nat ->
  let methods := [("openmp", openmp); ("cuda", cuda); ("hybrid", hybrid)] in
  exists out entries,
    main fs now
    = {| stdout := out ++ [[Str "Generating error analysis report..."]]
                       ++ [[Str "Report saved as 'heat_error_report.txt'"]];
         report := Some (generate_error_report entries now);
         result := Returns tt |} /\
    map fst entries
    = map fst (filter (fun md => shape_eqb (shape serial) (shape (snd md)))
                 methods) /\
    (forall m d, In (m, d) methods ->
       shape_eqb (shape serial) (shape d) = true ->
       exists e, inline_errors serial d = Returns e /\ In (m, e) entries) /\
    (forall m d, In (m, d) methods ->
       shape_eqb (shape serial) (shape d) = false ->
       In (skip_line m d serial) out).
Proof.
  intros H1 H2 H3 H4 Hn methods.
  destruct (load_all_loads fs _ _ _ _ H1 H2 H3 H4) as [out1 Eload].
  unfold main; rewrite Eload.
  match goal with |- context [error_loop serial ?ms ?o ?a] =>
    destruct (error_loop_spec serial Hn ms o a)
      as (out' & entries & E & Hincl & Hfst & Hin & Hskip)
  end.
  rewrite E; simpl app; cbv beta iota.
  exists out', entries; repeat split; assumption.
Qed.

Lemma shape_eqb_neq s t : s <> t -> shape_eqb s t = false.
Proof.
  intros H; destruct (shape_eqb s t) eqn:E; [|reflexivity].
  apply shape_eqb_eq in E; contradiction.
Qed.

End ValidationPass.

(** ** Recovery in the validation pass *)

Section Recovery.
Import Py Np Harness.
Open Scope string_scope.
Open Scope list_scope.

(** C6: when the four files load, a comparison dataset whose shape differs
    from the reference's is skipped: the mismatch is printed and the method
    gets no metrics; the pass still ends normally and writes the report,
    which holds every method of the reference's shape. *)
Theorem shape_mismatch_skipped :
  forall (fs : filesystem) (now : string) (serial openmp cuda hybrid : ndarray),
    loads fs "serial_heat_distribution.csv" serial ->
    loads fs "openmp_heat_distribution.csv" openmp ->
    loads fs "cuda_heat_distribution.csv" cuda ->
    loads fs "hybrid_heat_distribution.csv" hybrid ->
    (0 < size serial)%nat ->
    let r := main fs now in
    let comparison_methods :=
      [("openmp", openmp); ("cuda", cuda); ("hybrid", hybrid)] in
    result r = Returns tt /\
    exists all_errors,
      report r = Some (generate_error_report all_errors now) /\
      forall method data,
        In (method, data) comparison_methods ->
        (shape data <> shape serial ->
         In (skip_line method data serial) (stdout r) /\
         ~ In method (map fst all_errors)) /\
        (shape data = shape serial ->
         exists e,
           inline_errors serial data = Returns e /\
           In (method, e) all_errors /\
           In [Str "METHOD: "; Str (upper method); Str "\n"]
              (generate_error_report all_errors now)).
Proof.
  intros fs now serial openmp cuda hybrid H1 H2 H3 H4 Hn r methods.
  destruct (main_loaded fs now serial openmp cuda hybrid H1 H2 H3 H4 Hn)
    as (out & entries & E & Hfst & Hin & Hskip).
  unfold r; rewrite E; simpl result; simpl report; simpl stdout.
  split; [reflexivity|].
  exists entries; split; [reflexivity|].
  intros m d Hmd; split.
  - intros Hne.
    assert (Hb : shape_eqb (shape serial) (shape d) = false)
      by (apply shape_eqb_neq; congruence).
    split.
    + rewrite in_app_iff; left; apply (Hskip m d Hmd Hb).
    + rewrite Hfst; intros Hm.
      apply in_map_iff in Hm; destruct Hm as [[m' d'] [Em Hf]].
      simpl in Em; subst m'.
      apply filter_In in Hf; destruct Hf as [Hmd' Hb']; simpl in Hb'.
      assert (d' = d); [|congruence].
      unfold methods in Hmd; simpl in Hmd, Hmd'.
      destruct Hmd as [A|[A|[A|[]]]]; destruct Hmd' as [B|[B|[B|[]]]];
        inversion A; inversion B; subst; try reflexivity; discriminate.
  - intros Heq.
    assert (Hb : shape_eqb (shape serial) (shape d) = true)
      by (apply shape_eqb_eq; congruence).
    destruct (Hin m d Hmd Hb) as (e & He & Hine).
    exists e; split; [exact He|split; [exact Hine|]].
    eapply report_names_method; exact Hine.
Qed.

(** The pass on [fs_cuda_mismatch]: CUDA is skipped, the report is
    written. *)
Lemma shape_mismatch_skipped_cuda :
  let r := main fs_cuda_mismatch "2025-01-01 00:00:00" in
  (loads fs_cuda_mismatch "serial_heat_distribution.csv" field_2x2 /\
   loads fs_cuda_mismatch "cuda_heat_distribution.csv" field_1x2 /\
   (0 < size field_2x2)%nat) /\
  result r = Returns tt /\
  exists all_errors,
    report r = Some (generate_error_report all_errors "2025-01-01 00:00:00") /\
    In (skip_line "cuda" field_1x2 field_2x2) (stdout r) /\
    ~ In "cuda" (map fst all_errors) /\
    In [Str "METHOD: "; Str "OPENMP"; Str "\n"]
       (generate_error_report all_errors "2025-01-01 00:00:00").
Proof.
  intros r.
  assert (L1 : loads fs_cuda_mismatch "serial_heat_distribution.csv" field_2x2)
    by (exists no_metadata; reflexivity).
  assert (L2 : loads fs_cuda_mismatch "openmp_heat_distribution.csv" field_2x2)
    by (exists no_metadata; reflexivity).
  assert (L3 : loads fs_cuda_mismatch "cuda_heat_distribution.csv" field_1x2)
    by (exists no_metadata; reflexivity).
  assert (L4 : loads fs_cuda_mismatch "hybrid_heat_distribution.csv" field_2x2)
    by (exists no_metadata; reflexivity).
  assert (Hn : (0 < size field_2x2)%nat) by (unfold size; simpl; lia).
  split; [repeat split; assumption|].
  destruct (shape_mismatch_skipped fs_cuda_mismatch "2025-01-01 00:00:00"
              field_2x2 field_2x2 field_1x2 field_2x2 L1 L2 L3 L4 Hn)
    as (Hres & all_errors & Hrep & Hall).
  split; [exact Hres|].
  exists all_errors; split; [exact Hrep|].
  destruct (Hall "cuda" field_1x2 (or_intror (or_introl eq_refl))) as [Hskip _].
  destruct (Hall "openmp" field_2x2 (or_introl eq_refl)) as [_ Hkeep].
  assert (Hne : shape field_1x2 <> shape field_2x2) by discriminate.
  destruct (Hskip Hne) as [S1 S2].
  destruct (Hkeep eq_refl) as (e & _ & _ & Hline).
  split; [exact S1|split; [exact S2|exact Hline]].
Defined.

(** C9, as stated, fails: with the OpenMP file missing and the three other
    files in place, the pass ends with an [AttributeError] and writes no
    report. *)
Lemma missing_file_aborts_pass :
  let r := main fs_openmp_missing "2025-01-01 00:00:00" in
  fs_openmp_missing "openmp_heat_distribution.csv" = Missing /\
  loads fs_openmp_missing "serial_heat_distribution.csv" field_2x2 /\
  loads fs_openmp_missing "cuda_heat_distribution.csv" field_2x2 /\
  loads fs_openmp_missing "hybrid_heat_distribution.csv" field_2x2 /\
  result r = Raises AttributeError /\
  report r = None.
Proof.
  intros r.
  split; [reflexivity|].
  split; [exists no_metadata; reflexivity|].
  split; [exists no_metadata; reflexivity|].
  split; [exists no_metadata; reflexivity|].
  split; reflexivity.
Qed.

(** The lines of a pass that ends in its [try] block. *)
Lemma load_and_print_words fs filename line :
  In line (fst (load_and_print fs filename)) ->
  exists s, first_words line = Some s /\ In s loading_words.
Proof.
  unfold load_and_print, load_heat_data.
  destruct (fs filename) as [|[md|e] [msg|a]]; simpl;
    intros H; repeat (destruct H as [<-|H]); try contradiction;
    eexists; (split; [reflexivity|]); simpl; tauto.
Qed.

Lemma load_all_words fs line :
  In line (fst (load_all fs)) ->
  exists s, first_words line = Some s /\ In s loading_words.
Proof.
  pose proof (load_and_print_words fs "serial_heat_distribution.csv") as W1.
  pose proof (load_and_print_words fs "openmp_heat_distribution.csv") as W2.
  pose proof (load_and_print_words fs "cuda_heat_distribution.csv") as W3.
  pose proof (load_and_print_words fs "hybrid_heat_distribution.csv") as W4.
  unfold load_all.
  destruct (load_and_print fs "serial_heat_distribution.csv") as [o1 [a1|e1]];
    [|exact (W1 line)].
  destruct (load_and_print fs "openmp_heat_distribution.csv") as [o2 [a2|e2]];
    [|simpl in *; rewrite in_app_iff; intros [H|H]; auto].
  destruct (load_and_print fs "cuda_heat_distribution.csv") as [o3 [a3|e3]];
    [|simpl in *; rewrite !in_app_iff; intros [H|[H|H]]; auto].
  destruct (load_and_print fs "hybrid_heat_distribution.csv") as [o4 [a4|e4]];
    simpl in *; rewrite !in_app_iff; intros [H|[H|[H|H]]]; auto.
Qed.

Lemma main_aborted_words fs now out e line :
  load_all fs = (out, Raises e) ->
  In line (stdout (main fs now)) ->
  exists s, first_words line = Some s /\ In s loading_words.
Proof.
  intros E; pose proof (load_all_words fs line) as W; rewrite E in W; simpl in W.
  unfold main; rewrite E.
  assert (B : forall l, In l [[Str "Heat Equation Solver Error Analysis"];
                              [Str (str_mul "=" 50)]] ->
                        exists s, first_words l = Some s /\ In s loading_words).
  { intros l [<-|[<-|[]]]; eexists; (split; [reflexivity|]);
      unfold loading_words; [left|right; left]; reflexivity. }
  destruct e; cbn [stdout]; rewrite ?in_app_iff;
    intros [H|H]; auto; try (destruct H as [H|H]; auto).
  destruct H as [<-|[]]; eexists; split; [reflexivity|].
  unfold loading_words; do 5 right; left; reflexivity.
Qed.

(** No line of the comparisons or of the report starts with the words of a
    line of the loads. *)
Lemma not_loading_words line s :
  first_words line = Some s -> ~ In s loading_words ->
  forall fs now out e,
    load_all fs = (out, Raises e) -> ~ In line (stdout (main fs now)).
Proof.
  intros F N fs now out e E H.
  destruct (main_aborted_words fs now out e line E H) as (s' & F' & I).
  rewrite F in F'; injection F' as <-; contradiction.
Qed.

(** With no comparison of the reference's shape the loop only prints, and
    collects nothing. *)
Lemma error_loop_all_mismatch reference openmp cuda hybrid out :
  shape openmp <> shape reference ->
  shape cuda <> shape reference ->
  shape hybrid <> shape reference ->
  error_loop reference
    [("openmp", openmp); ("cuda", cuda); ("hybrid", hybrid)] out []
  = (out ++ [skip_line "openmp" openmp reference]
         ++ [skip_line "cuda" cuda reference]
         ++ [skip_line "hybrid" hybrid reference],
     Returns []).
Proof.
  intros N2 N3 N4; cbn [error_loop].
  rewrite !shape_eqb_neq by congruence.
  cbn [negb]; rewrite <- !app_assoc; reflexivity.
Qed.

(** C9, amended: the loader prints the error and returns no data for a
    missing file; when one of the four files is missing or corrupt the pass
    stops before any comparison (it prints neither the shape of the
    reference, nor the line of a comparison made or skipped, nor the line
    that announces the report) and writes no report; when the four files
    load and no comparison has the reference's shape, the pass skips the
    three methods, ends normally, and the report holds the headers only. *)
Theorem unusable_file_no_report :
  forall (fs : filesystem) (now : string),
    (forall filename,
        fs filename = Missing ->
        load_heat_data fs filename
        = ([[Str "Error: File "; Str filename; Str " not found!"]],
           Returns (None, None))) /\
    (forall filename,
        In filename result_files -> unusable (fs filename) ->
        let r := main fs now in
        report r = None /\
        (forall sh,
            ~ In [Str "\nReference data shape: "; Shape sh; Str "\n"] (stdout r)) /\
        (forall method,
            ~ In [Str "Calculating errors for "; Str method; Str " method..."]
                 (stdout r)) /\
        (forall method data reference,
            ~ In (skip_line method data reference) (stdout r)) /\
        ~ In [Str "Generating error analysis report..."] (stdout r)) /\
    (forall serial openmp cuda hybrid,
        loads fs "serial_heat_distribution.csv" serial ->
        loads fs "openmp_heat_distribution.csv" openmp ->
        loads fs "cuda_heat_distribution.csv" cuda ->
        loads fs "hybrid_heat_distribution.csv" hybrid ->
        shape openmp <> shape serial ->
        shape cuda <> shape serial ->
        shape hybrid <> shape serial ->
        let r := main fs now in
        result r = Returns tt /\
        report r = Some (header_only_report now) /\
        In (skip_line "openmp" openmp serial) (stdout r) /\
        In (skip_line "cuda" cuda serial) (stdout r) /\
        In (skip_line "hybrid" hybrid serial) (stdout r)).
Proof.
  intros fs now; split; [|split].
  - intros filename E; unfold load_heat_data; rewrite E; reflexivity.
  - intros filename Hin Hu r.
    destruct (load_all_unusable fs filename Hin Hu) as (out & e & E).
    assert (W : forall line s,
              first_words line = Some s -> ~ In s loading_words ->
              ~ In line (stdout r)).
    { intros line s F N; exact (not_loading_words line s F N fs now out e E). }
    assert (D : forall s, (if list_eq_dec string_dec
                                (filter (String.eqb s) loading_words) []
                           then True else False) ->
                          ~ In s loading_words).
    { intros s T I.
      destruct (list_eq_dec string_dec (filter (String.eqb s) loading_words) [])
        as [F|F]; [|exact T].
      assert (I' : In s (filter (String.eqb s) loading_words))
        by (apply filter_In; split; [exact I|apply String.eqb_refl]).
      rewrite F in I'; exact I'. }
    split; [eapply main_no_report; exact E|].
    split; [|split; [|split]]; intros;
      (eapply W; [reflexivity|apply D; vm_compute; exact I]).
  - intros serial openmp cuda hybrid H1 H2 H3 H4 N2 N3 N4 r.
    destruct (load_all_loads fs _ _ _ _ H1 H2 H3 H4) as [out1 Eload].
    unfold r, main; rewrite Eload.
    rewrite (error_loop_all_mismatch serial openmp cuda hybrid _ N2 N3 N4).
    cbn [result report stdout].
    split; [reflexivity|split; [reflexivity|]].
    rewrite !in_app_iff; cbn [In]; tauto.
Qed.

(** The two cases on concrete files. *)
Lemma unusable_file_no_report_examples :
  (In "openmp_heat_distribution.csv" result_files /\
   unusable (fs_openmp_missing "openmp_heat_distribution.csv")) /\
  report (main fs_openmp_missing "2025-01-01 00:00:00") = None /\
  ~ In [Str "Generating error analysis report..."]
       (stdout (main fs_openmp_missing "2025-01-01 00:00:00")) /\
  report (main fs_all_mismatch "2025-01-01 00:00:00")
  = Some (header_only_report "2025-01-01 00:00:00").
Proof.
  assert (A : In "openmp_heat_distribution.csv" result_files)
    by (right; left; reflexivity).
  assert (B : unusable (fs_openmp_missing "openmp_heat_distribution.csv"))
    by exact I.
  split; [split; assumption|].
  pose proof (proj1 (proj2 (unusable_file_no_report fs_openmp_missing
                              "2025-01-01 00:00:00"))
                "openmp_heat_distribution.csv" A B) as U.
  cbv zeta in U; destruct U as (U1 & _ & _ & _ & U5).
  split; [exact U1|split; [exact U5|]].
  assert (Hne : shape field_1x2 <> shape field_2x2) by discriminate.
  exact (proj1 (proj2 (proj2 (proj2 (unusable_file_no_report fs_all_mismatch
                                       "2025-01-01 00:00:00"))
                         field_2x2 field_1x2 field_1x2 field_1x2
                         (ex_intro _ no_metadata eq_refl)
                         (ex_intro _ no_metadata eq_refl)
                         (ex_intro _ no_metadata eq_refl)
                         (ex_intro _ no_metadata eq_refl)
                         Hne Hne Hne))).
Defined.

End Recovery.

(** ** The command line and the output of the CUDA program *)

Section CommandLine.
Import Cuda Demo.
Open Scope string_scope.
Open Scope list_scope.

(** C8, on the code: the front-end starts the program as
    [./cuda_heat 50 50 100]; the program runs the 200 by 200 grid for 1000
    steps whatever the command line, prints four lines none of which holds
    one of the seven keys, and exits with 0; the front-end reads none of its
    values from that output. *)
Theorem cuda_main_ignores_command_line :
  forall (junk : list R) (sched : nat -> list thread) (ms : R),
    let argv := solver_command "CUDA" "50" "100" in
    let r := main 4 argv junk sched ms in
    argv = ["./cuda_heat"; "50"; "50"; "100"] /\
    (run_Nx r, run_Ny r, run_Nt r) = (200, 200, 1000)%Z /\
    r = main 1 ["./cuda_heat"] junk sched ms /\
    map format (run_stdout r)
    = [ "CUDA run (GPU):\n";
        "  Time           : %.6f s\n";
        "  Throughput     : %.2f MLUPS\n";
        "  u_center (mid) : %f\n" ] /\
    forallb (fun key =>
      forallb (fun line => negb (contains (key ++ ":")%string line))
              (map format (run_stdout r))) keys = true /\
    run_exit r = 0%Z /\
    parse_and_visualize cuda_sample_output "CUDA" "50"
    = {| Implementation := "CUDA"; Threads := "N/A"; GridSize := "50x50";
         TimeSteps := "N/A"; Time := "N/A"; Throughput := "N/A";
         CenterValue := "N/A" |}.
Proof.
  intros junk sched ms argv r.
  split; [reflexivity|].
  split; [reflexivity|].
  split; [reflexivity|].
  split; [reflexivity|].
  split; [reflexivity|].
  split; reflexivity.
Qed.

(** The front-end does read an output that follows the contract. *)
Example parse_and_visualize_contract :
  parse_and_visualize
    (String.concat (String newline EmptyString)
       [ key_line "Implementation" "CUDA"; key_line "Threads" "256";
         key_line "GridSize" "50x50"; key_line "TimeSteps" "100";
         key_line "Time" "0.012345"; key_line "Throughput" "18.66";
         key_line "CenterValue" "0.834521" ])
    "CUDA" "50"
  = {| Implementation := "CUDA"; Threads := "256"; GridSize := "50x50";
       TimeSteps := "100"; Time := "0.012345"; Throughput := "18.66";
       CenterValue := "0.834521" |}.
Proof. reflexivity. Qed.

End CommandLine.

(* ================================================================== *)
(** * Further properties of the CUDA backend *)

(** ** The grid and the threads *)

Section GridFacts.
Import MachineInt Cuda CudaHost.
Open Scope Z_scope.

Variables Nx Ny : Z.
Hypothesis HNx : 3 <= Nx.
Hypothesis HNy : 3 <= Ny.
Hypothesis Hfit : Nx * Ny <= INT_MAX.

Let G := grid_threads (grid Nx Ny) block.

Lemma flat_map_const_length {A B : Type} (f : A -> list B) (n : nat) (l : list A) :
  (forall a, length (f a) = n) -> length (flat_map f l) = (length l * n)%nat.
Proof.
  intros Hf; induction l as [|a l IH]; simpl; [reflexivity|].
  rewrite length_app, Hf, IH; reflexivity.
Qed.

Lemma grid_threads_length g b :
  length (grid_threads g b)
  = (Z.to_nat (x g) * (Z.to_nat (y g) * (Z.to_nat (x b) * Z.to_nat (y b))))%nat.
Proof.
  unfold grid_threads.
  rewrite (flat_map_const_length _
             (Z.to_nat (y g) * (Z.to_nat (x b) * Z.to_nat (y b)))).
  - rewrite zrange_length; reflexivity.
  - intros bx.
    rewrite (flat_map_const_length _ (Z.to_nat (x b) * Z.to_nat (y b))).
    + rewrite zrange_length; reflexivity.
    + intros by_.
      rewrite (flat_map_const_length _ (Z.to_nat (y b))).
      * rewrite zrange_length; reflexivity.
      * intros tx; rewrite length_map, zrange_length; reflexivity.
Qed.

(** The machine arithmetic of the kernel gives a thread of the grid the cell
    [(thread_i, thread_j)]. *)
Lemma kernel_coordinates t :
  In t G ->
  int_of_uint (uadd (uadd (umul (x (fst t)) (x block)) (x (snd t))) 1) = thread_i t /\
  int_of_uint (uadd (uadd (umul (y (fst t)) (y block)) (y (snd t))) 1) = thread_j t.
Proof.
  intros Hin.
  pose proof (in_grid_cell Nx Ny HNx HNy Hfit t Hin) as [Hi Hj].
  destruct (dims_fit Nx Ny HNx HNy Hfit) as [HX HY].
  apply in_grid_threads in Hin.
  unfold int_of_uint, uadd, umul, thread_i, thread_j, block in *; simpl in *.
  unfold INT_MAX in *.
  assert (3 * Nx <= Nx * Ny) by nia.
  assert (3 * Ny <= Nx * Ny) by nia.
  split.
  - rewrite (uint_wrap_small (x (fst t) * 16)) by lia.
    rewrite (uint_wrap_small (x (fst t) * 16 + x (snd t))) by lia.
    rewrite (uint_wrap_small (x (fst t) * 16 + x (snd t) + 1)) by lia.
    apply int_wrap_small; unfold INT_MAX; lia.
  - rewrite (uint_wrap_small (y (fst t) * 16)) by lia.
    rewrite (uint_wrap_small (y (fst t) * 16 + y (snd t))) by lia.
    rewrite (uint_wrap_small (y (fst t) * 16 + y (snd t) + 1)) by lia.
    apply int_wrap_small; unfold INT_MAX; lia.
Qed.

(** X1: the grid has, along each axis, the least number of 16-wide blocks
    that covers the interior, and the launch runs 256 threads per block. *)
Theorem grid_covers_interior_minimally :
  let g := grid Nx Ny in
  16 * (x g - 1) < Nx - 2 <= 16 * x g /\
  16 * (y g - 1) < Ny - 2 <= 16 * y g /\
  Z.of_nat (length (grid_threads g block)) = 256 * (x g * y g).
Proof.
  intros g.
  destruct (grid_dims Nx Ny HNx HNy Hfit) as [Ex Ey].
  rewrite grid_threads_length; fold g in Ex, Ey; rewrite Ex, Ey.
  pose proof (Z.div_mod (Nx + 13) 16 ltac:(lia)) as Dx.
  pose proof (Z.mod_pos_bound (Nx + 13) 16 ltac:(lia)) as Mx.
  pose proof (Z.div_mod (Ny + 13) 16 ltac:(lia)) as Dy.
  pose proof (Z.mod_pos_bound (Ny + 13) 16 ltac:(lia)) as My.
  split; [lia|split; [lia|]].
  simpl (x block); simpl (y block).
  assert (0 <= (Nx + 13) / 16) by (apply Z.div_pos; lia).
  assert (0 <= (Ny + 13) / 16) by (apply Z.div_pos; lia).
  rewrite !Nat2Z.inj_mul, !Z2Nat.id by lia.
  change (Z.of_nat (Z.to_nat 16)) with 16; lia.
Qed.

(** A thread that fails the guard does nothing; a thread that passes it
    changes the element of [uNew] of its own cell and nothing else. *)
Lemma kernel_writes_own_cell dx dy alpha dt u uNew t m :
  u <> uNew -> In t G ->
  let m' := update_kernel (fst t) block (snd t) u uNew Nx Ny dx dy alpha dt m in
  load m' u = load m u /\
  length (load m' uNew) = length (load m uNew) /\
  forall k, k <> thread_i t * Ny + thread_j t ->
            rd (load m' uNew) k = rd (load m uNew) k.
Proof.
  intros Hp Hin m'; unfold m'.
  rewrite (update_kernel_in_grid Nx Ny dx dy alpha dt u uNew HNx HNy Hfit t m Hin).
  destruct (_ && _).
  - rewrite load_store_other by congruence; rewrite load_store_same.
    split; [reflexivity|split; [apply wr_length|]].
    intros k Hk; apply rd_wr_other; congruence.
  - repeat split; reflexivity.
Qed.

(** Two threads of the grid that work on one cell are one thread. *)
Lemma thread_cell_injective t t' :
  In t G -> In t' G ->
  thread_i t = thread_i t' -> thread_j t = thread_j t' -> t = t'.
Proof.
  intros Hin Hin' Ei Ej.
  apply in_grid_threads in Hin, Hin'.
  destruct t as [[bx by_] [tx ty]], t' as [[bx' by_'] [tx' ty']].
  unfold thread_i, thread_j, block in *; simpl in *.
  assert (bx = bx') by lia; assert (by_ = by_') by lia.
  assert (tx = tx') by lia; assert (ty = ty') by lia.
  subst; reflexivity.
Qed.

(** X2: no two threads of a launch write the same element: a thread of the
    grid leaves [u] as it is and changes at most the element of [uNew] at
    the row-major index of its own interior cell, and two distinct threads
    that pass the guard have distinct indices. *)
Theorem kernel_one_thread_one_cell :
  forall (dx dy alpha dt : R) (u uNew : dptr) (m : dmem) (t : thread),
    u <> uNew -> In t G ->
    let m' := update_kernel (fst t) block (snd t) u uNew Nx Ny dx dy alpha dt m in
    let k := thread_i t * Ny + thread_j t in
    load m' u = load m u /\
    (forall k', k' <> k -> rd (load m' uNew) k' = rd (load m uNew) k') /\
    (m' <> m -> interior Nx Ny (thread_i t) (thread_j t)) /\
    (forall t', In t' G -> t' <> t ->
        interior Nx Ny (thread_i t) (thread_j t) ->
        interior Nx Ny (thread_i t') (thread_j t') ->
        thread_i t' * Ny + thread_j t' <> k).
Proof.
  intros dx dy alpha dt u uNew m t Hp Hin m' k.
  destruct (kernel_writes_own_cell dx dy alpha dt u uNew t m Hp Hin)
    as (Hsrc & _ & Hfr).
  split; [exact Hsrc|split; [exact Hfr|split]].
  - intros Hne; unfold m' in Hne.
    rewrite (update_kernel_in_grid Nx Ny dx dy alpha dt u uNew HNx HNy Hfit t m Hin)
      in Hne.
    pose proof (in_grid_cell Nx Ny HNx HNy Hfit t Hin) as [Hi Hj].
    destruct (Z.ltb_spec (thread_i t) (Nx - 1));
      destruct (Z.ltb_spec (thread_j t) (Ny - 1)); simpl in Hne;
      try (exfalso; apply Hne; reflexivity).
    unfold interior; lia.
  - intros t' Hin' Hne [Hi Hj] [Hi' Hj'] E.
    apply Hne; apply thread_cell_injective; auto; unfold k in E.
    + destruct (row_col Ny (thread_i t) (thread_j t)) as [Q _]; [lia|].
      destruct (row_col Ny (thread_i t') (thread_j t')) as [Q' _]; [lia|].
      rewrite <- Q, <- Q', E; reflexivity.
    + destruct (row_col Ny (thread_i t) (thread_j t)) as [_ Q]; [lia|].
      destruct (row_col Ny (thread_i t') (thread_j t')) as [_ Q']; [lia|].
      rewrite <- Q, <- Q', E; reflexivity.
Qed.

(** X3: every element a thread of the grid reads from [u] or writes to
    [uNew] lies inside the allocation of [Nx*Ny] elements. *)
Theorem kernel_accesses_in_bounds :
  forall (t : thread) (k : Z),
    In t G ->
    In k (update_kernel_indices (fst t) block (snd t) Nx Ny) ->
    0 <= k < Nx * Ny.
Proof.
  intros t k Hin Hk.
  destruct (kernel_coordinates t Hin) as [Ei Ej].
  pose proof (in_grid_cell Nx Ny HNx HNy Hfit t Hin) as [Hi Hj].
  destruct (dims_fit Nx Ny HNx HNy Hfit) as [HX HY].
  unfold update_kernel_indices in Hk; rewrite Ei, Ej in Hk.
  unfold isub in Hk at 1 2.
  rewrite (int_wrap_small (Nx - 1)), (int_wrap_small (Ny - 1)) in Hk
    by (unfold INT_MAX in *; lia).
  destruct (Z.ltb_spec (thread_i t) (Nx - 1)) as [Li|]; [|destruct Hk].
  destruct (Z.ltb_spec (thread_j t) (Ny - 1)) as [Lj|]; [|destruct Hk].
  set (i := thread_i t) in *; set (j := thread_j t) in *.
  unfold INT_MAX in *.
  assert (W : forall a b, 0 <= a < Nx -> 0 <= b < Ny ->
                          IDX a b Ny = a * Ny + b /\ 0 <= a * Ny + b < Nx * Ny).
  { intros a b Ha Hb; unfold IDX, iadd, imul.
    rewrite (int_wrap_small (a * Ny)) by (unfold INT_MAX; nia).
    rewrite int_wrap_small by (unfold INT_MAX; nia).
    split; [reflexivity|nia]. }
  unfold iadd, isub in Hk.
  rewrite (int_wrap_small (i + 1)), (int_wrap_small (i - 1)),
    (int_wrap_small (j + 1)), (int_wrap_small (j - 1)) in Hk
    by (unfold INT_MAX; lia).
  simpl in Hk.
  destruct Hk as [<-|[<-|[<-|[<-|[<-|[]]]]]];
    match goal with |- 0 <= IDX ?a ?b Ny < _ =>
      destruct (W a b) as [-> ?]; [lia|lia|assumption]
    end.
Qed.

End GridFacts.


Section GridWitnesses.
Import MachineInt Cuda CudaHost.
Open Scope Z_scope.

(** The grid of [main]: 13 by 13 blocks for the 198 by 198 interior. *)
Lemma grid_covers_interior_minimally_main :
  (3 <= 200 /\ 200 * 200 <= INT_MAX) /\
  16 * (x (grid 200 200) - 1) < 200 - 2 <= 16 * x (grid 200 200) /\
  16 * (y (grid 200 200) - 1) < 200 - 2 <= 16 * y (grid 200 200) /\
  Z.of_nat (length (grid_threads (grid 200 200) block))
  = 256 * (x (grid 200 200) * y (grid 200 200)).
Proof.
  assert (A : 3 <= 200) by lia.
  assert (B : 200 * 200 <= INT_MAX) by (unfold INT_MAX; lia).
  split; [split; assumption|].
  exact (grid_covers_interior_minimally 200 200 A A B).
Defined.

(** The thread of the centre of a 3 by 3 grid. *)
Lemma kernel_one_thread_one_cell_3x3 :
  let t := (Dim3 0 0, Dim3 0 0) in
  let m := {| bufA := [1; 2; 3; 4; 5; 6; 7; 8; 9]%R;
              bufB := [0; 0; 0; 0; 0; 0; 0; 0; 0]%R |} in
  let m' := update_kernel (fst t) block (snd t) BufA BufB 3 3 1 1 1 1 m in
  (3 <= 3 /\ 3 * 3 <= INT_MAX /\ BufA <> BufB /\
   In t (grid_threads (grid 3 3) block)) /\
  load m' BufA = load m BufA /\
  (forall k', k' <> 4 -> rd (load m' BufB) k' = rd (load m BufB) k').
Proof.
  intros t m m'.
  assert (A : 3 <= 3) by lia.
  assert (B : 3 * 3 <= INT_MAX) by (unfold INT_MAX; lia).
  assert (C : BufA <> BufB) by discriminate.
  assert (D : In t (grid_threads (grid 3 3) block)) by (left; reflexivity).
  split; [repeat split; assumption|].
  pose proof (kernel_one_thread_one_cell 3 3 A A B 1 1 1 1 BufA BufB m t C D) as T.
  split; [exact (proj1 T)|exact (proj1 (proj2 T))].
Defined.

(** The accesses of the thread of the centre of a 3 by 3 grid. *)
Lemma kernel_accesses_in_bounds_3x3 :
  let t := (Dim3 0 0, Dim3 0 0) in
  (3 <= 3 /\ 3 * 3 <= INT_MAX /\ In t (grid_threads (grid 3 3) block) /\
   In 7 (update_kernel_indices (fst t) block (snd t) 3 3)) /\
  0 <= 7 < 3 * 3.
Proof.
  intros t.
  assert (A : 3 <= 3) by lia.
  assert (B : 3 * 3 <= INT_MAX) by (unfold INT_MAX; lia).
  assert (D : In t (grid_threads (grid 3 3) block)) by (left; reflexivity).
  assert (E : In 7 (update_kernel_indices (fst t) block (snd t) 3 3))
    by (left; reflexivity).
  split; [repeat split; assumption|].
  exact (kernel_accesses_in_bounds 3 3 A A B t 7 D E).
Defined.

End GridWitnesses.

(** ** What a launch leaves untouched *)

Section LaunchFrame.
Import MachineInt Cuda CudaHost.
Open Scope Z_scope.

(** X4: a launch writes interior cells only: it keeps the length of the
    output buffer and the value of every boundary cell of it (and of every
    index that is not an interior cell). *)
Theorem launch_keeps_boundary :
  forall (Nx Ny : Z) (dx dy alpha dt : R) (u uNew : dptr)
         (sched : list thread) (m : dmem),
    3 <= Nx -> 3 <= Ny -> Nx * Ny <= INT_MAX ->
    u <> uNew ->
    Z.of_nat (length (load m uNew)) = Nx * Ny ->
    schedule Nx Ny sched ->
    let m' := launch sched block u uNew Nx Ny dx dy alpha dt m in
    length (load m' uNew) = length (load m uNew) /\
    (forall i j, boundary Nx Ny i j ->
                 cell (load m' uNew) Ny i j = cell (load m uNew) Ny i j) /\
    (forall k, ~ interior Nx Ny (k / Ny) (k mod Ny) ->
               rd (load m' uNew) k = rd (load m uNew) k).
Proof.
  intros Nx Ny dx dy alpha dt u uNew sched m HNx HNy Hfit Hp Hlen Hs m'.
  split; [apply launch_length; auto using schedule_incl|].
  assert (F : forall k, ~ interior Nx Ny (k / Ny) (k mod Ny) ->
                        rd (load m' uNew) k = rd (load m uNew) k)
    by (intros k Hk; apply launch_frame; auto using schedule_incl).
  split; [|exact F].
  intros i j (Hi & Hj & Hb); unfold cell; apply F.
  destruct (row_col Ny i j Hj) as [-> ->]; unfold interior; lia.
Qed.

(** The corner of a 3 by 3 grid. *)
Lemma launch_keeps_boundary_3x3 :
  let m := {| bufA := [1; 2; 3; 4; 5; 6; 7; 8; 9]%R;
              bufB := [0; 0; 0; 0; 0; 0; 0; 0; 0]%R |} in
  let G := grid_threads (grid 3 3) block in
  (3 <= 3 /\ 3 * 3 <= INT_MAX /\ BufA <> BufB /\
   Z.of_nat (length (load m BufB)) = 3 * 3 /\ schedule 3 3 G /\
   boundary 3 3 0 0) /\
  cell (load (launch G block BufA BufB 3 3 1 1 1 1 m) BufB) 3 0 0 = 0%R.
Proof.
  intros m G.
  assert (A : 3 <= 3) by lia.
  assert (B : 3 * 3 <= INT_MAX) by (unfold INT_MAX; lia).
  assert (C : BufA <> BufB) by discriminate.
  assert (D : Z.of_nat (length (load m BufB)) = 3 * 3) by reflexivity.
  assert (E : schedule 3 3 G) by apply Permutation_refl.
  assert (F : boundary 3 3 0 0) by (unfold boundary; lia).
  split; [repeat split; try assumption; lia|].
  exact (proj1 (proj2 (launch_keeps_boundary 3 3 1 1 1 1 BufA BufB G m
                         A A B C D E)) 0 0 F).
Defined.

End LaunchFrame.

(** ** The initial condition *)

Section InitialCondition.
Import MachineInt Cuda CudaHost.
Open Scope Z_scope.

Lemma IDX_exact Nx Ny i j :
  Nx * Ny <= INT_MAX -> 0 <= i < Nx -> 0 <= j < Ny ->
  IDX i j Ny = i * Ny + j /\ 0 <= i * Ny + j < Nx * Ny.
Proof.
  intros Hfit Hi Hj; unfold INT_MAX in Hfit; unfold IDX, iadd, imul.
  rewrite (int_wrap_small (i * Ny)) by (unfold INT_MAX; nia).
  rewrite int_wrap_small by (unfold INT_MAX; nia).
  split; [reflexivity|nia].
Qed.

(** A sequence of stores [a[k] = f k]: the elements named in [ks] hold
    their [f k], the others are as before. *)
Lemma stores_spec (f : Z -> R) (ks : list Z) (a : list R) :
  (forall k, In k ks -> 0 <= k < Z.of_nat (length a)) ->
  let a' := fold_left (fun a k => wr a k (f k)) ks a in
  length a' = length a /\
  forall k, (In k ks -> rd a' k = f k) /\ (~ In k ks -> rd a' k = rd a k).
Proof.
  revert a; induction ks as [|k0 ks IH]; intros a Hin; simpl.
  - split; [reflexivity|]; intros k; split; [intros []|reflexivity].
  - assert (H0 : 0 <= k0 < Z.of_nat (length a)) by (apply Hin; left; reflexivity).
    destruct (IH (wr a k0 (f k0))) as [Hl Hk].
    { intros k Hk; rewrite wr_length; apply Hin; right; exact Hk. }
    split; [rewrite Hl; apply wr_length|].
    intros k; destruct (Hk k) as [A B]; split.
    + intros [->|Hk'].
      * destruct (in_dec Z.eq_dec k ks) as [Hi|Hn]; [apply A; exact Hi|].
        rewrite (B Hn); apply rd_wr_same; exact H0.
      * apply A; exact Hk'.
    + intros Hn.
      rewrite B by (intros Hk'; apply Hn; right; exact Hk').
      apply rd_wr_other; intros ->; apply Hn; left; reflexivity.
Qed.

Lemma fold_left_flat_map {A B C : Type} (F : A -> C -> A) (g : B -> list C)
    (l : list B) (a : A) :
  fold_left (fun a b => fold_left F (g b) a) l a = fold_left F (flat_map g l) a.
Proof.
  revert a; induction l as [|b l IH]; intros a; simpl; [reflexivity|].
  rewrite fold_left_app; apply IH.
Qed.

Lemma fold_left_map_arg {A B C : Type} (F : A -> C -> A) (h : B -> C)
    (l : list B) (a : A) :
  fold_left (fun a b => F a (h b)) l a = fold_left F (map h l) a.
Proof.
  revert a; induction l as [|b l IH]; intros a; simpl; [reflexivity|apply IH].
Qed.

Lemma fold_left_ext_in {A B : Type} (F G : A -> B -> A) (l : list B) (a : A) :
  (forall a b, In b l -> F a b = G a b) -> fold_left F l a = fold_left G l a.
Proof.
  revert a; induction l as [|b l IH]; intros a H; simpl; [reflexivity|].
  rewrite H by (left; reflexivity); apply IH.
  intros a' b' Hb; apply H; right; exact Hb.
Qed.

(** The loops, as one sequence of stores of the value of each index. *)
Lemma initial_condition_stores Nx Ny u :
  1 <= Nx -> 1 <= Ny -> Nx * Ny <= INT_MAX ->
  initial_condition Nx Ny u
  = fold_left
      (fun a k => wr a k (initial_value Nx Ny (k / Ny) (k mod Ny)))
      (flat_map (fun i => map (fun j => i * Ny + j) (zrange Ny)) (zrange Nx)) u.
Proof.
  intros HNx HNy Hfit; unfold initial_condition.
  rewrite <- (fold_left_flat_map
                (fun a k => wr a k (initial_value Nx Ny (k / Ny) (k mod Ny)))
                (fun i => map (fun j => i * Ny + j) (zrange Ny))).
  apply fold_left_ext_in; intros a i Hi; apply in_zrange in Hi.
  rewrite <- (fold_left_map_arg
                (fun a k => wr a k (initial_value Nx Ny (k / Ny) (k mod Ny)))
                (fun j => i * Ny + j)).
  apply fold_left_ext_in; intros a' j Hj; apply in_zrange in Hj.
  destruct (IDX_exact Nx Ny i j Hfit Hi Hj) as [-> _].
  destruct (row_col Ny i j Hj) as [-> ->].
  reflexivity.
Qed.

(** X5: the loops of [main] set every element of the host array: whatever
    [malloc] left in it, the array ends as the field of the Gaussian, cell
    (i,j) holding exp(-50*((i*dx - Lx/2)^2 + (j*dy - Ly/2)^2)), a value in
    (0, 1]. *)
Theorem initial_condition_fills_array :
  forall (Nx Ny : Z) (u : list R),
    1 <= Nx -> 1 <= Ny -> Nx * Ny <= INT_MAX ->
    Z.of_nat (length u) = Nx * Ny ->
    initial_condition Nx Ny u = initial_field Nx Ny /\
    forall i j, 0 <= i < Nx -> 0 <= j < Ny ->
      cell (initial_condition Nx Ny u) Ny i j
      = exp (- 50 * ((IZR i * spacing Lx Nx - Lx / 2) ^ 2
                     + (IZR j * spacing Ly Ny - Ly / 2) ^ 2)) /\
      (0 < cell (initial_condition Nx Ny u) Ny i j <= 1)%R.
Proof.
  intros Nx Ny u HNx HNy Hfit Hlen.
  assert (E : initial_condition Nx Ny u = initial_field Nx Ny).
  { rewrite initial_condition_stores by assumption.
    set (ks := flat_map (fun i => map (fun j => i * Ny + j) (zrange Ny)) (zrange Nx)).
    assert (Hks : forall k, In k ks <-> 0 <= k < Nx * Ny).
    { intros k; unfold ks; rewrite in_flat_map; split.
      - intros (i & Hi & Hk); apply in_map_iff in Hk.
        destruct Hk as (j & <- & Hj); apply in_zrange in Hi, Hj; nia.
      - intros Hk; exists (k / Ny); split.
        + apply in_zrange; split; [apply Z.div_pos; lia|].
          apply Z.div_lt_upper_bound; lia.
        + apply in_map_iff; exists (k mod Ny); split.
          * pose proof (Z.div_mod k Ny ltac:(lia)); lia.
          * apply in_zrange; apply Z.mod_pos_bound; lia. }
    destruct (stores_spec (fun k => initial_value Nx Ny (k / Ny) (k mod Ny)) ks u)
      as [Hl Hk].
    { intros k Hk; rewrite Hlen; apply Hks; exact Hk. }
    apply rd_ext.
    - apply Nat2Z.inj; rewrite Hl, Hlen, initial_field_length by lia; reflexivity.
    - intros k Hk'; rewrite Hl, Hlen in Hk'.
      rewrite (proj1 (Hk k)) by (apply Hks; exact Hk').
      pose proof (Z.div_mod k Ny ltac:(lia)) as D.
      pose proof (Z.mod_pos_bound k Ny ltac:(lia)) as M.
      assert (Q : 0 <= k / Ny < Nx).
      { split; [apply Z.div_pos; lia|apply Z.div_lt_upper_bound; lia]. }
      rewrite <- (initial_field_cell Nx Ny (k / Ny) (k mod Ny)) by assumption.
      unfold cell; f_equal; lia. }
  split; [exact E|].
  intros i j Hi Hj; rewrite E, initial_field_cell by assumption.
  unfold initial_value; split.
  - f_equal; ring.
  - split; [apply exp_pos|].
    apply Rle_trans with (exp 0); [|rewrite exp_0; lra].
    match goal with |- (exp ?a <= exp 0)%R =>
      assert (Ha : (a <= 0)%R); [|destruct Ha as [Ha| ->];
        [left; apply exp_increasing; exact Ha|right; reflexivity]]
    end.
    match goal with |- (- 50 * (?p * ?p + ?q * ?q) <= 0)%R =>
      pose proof (Rle_0_sqr p) as Hp; pose proof (Rle_0_sqr q) as Hq;
      unfold Rsqr in Hp, Hq; nra
    end.
Qed.

(** A 2 by 2 array that held other values. *)
Lemma initial_condition_fills_array_2x2 :
  (1 <= 2 /\ 2 * 2 <= INT_MAX /\
   Z.of_nat (length [7; 7; 7; 7]%R) = 2 * 2) /\
  initial_condition 2 2 [7; 7; 7; 7]%R = initial_field 2 2.
Proof.
  assert (A : 1 <= 2) by lia.
  assert (B : 2 * 2 <= INT_MAX) by (unfold INT_MAX; lia).
  assert (C : Z.of_nat (length [7; 7; 7; 7]%R) = 2 * 2) by reflexivity.
  split; [repeat split; assumption|].
  exact (proj1 (initial_condition_fills_array 2 2 [7; 7; 7; 7]%R A A B C)).
Defined.

End InitialCondition.

(** ** The boundary along the run *)

Section BoundaryParity.
Import MachineInt Cuda CudaHost.
Open Scope Z_scope.

(** No step changes a boundary cell of either buffer. *)
Lemma time_stepping_boundaries Nx Ny dx dy alpha dt scheds h :
  3 <= Nx -> 3 <= Ny -> Nx * Ny <= INT_MAX ->
  Forall (schedule Nx Ny) scheds ->
  d_u h <> d_uNew h ->
  (forall p, Z.of_nat (length (load (dev h) p)) = Nx * Ny) ->
  forall p i j, boundary Nx Ny i j ->
    cell (load (dev (time_stepping Nx Ny dx dy alpha dt scheds h)) p) Ny i j
    = cell (load (dev h) p) Ny i j.
Proof.
  intros HNx HNy Hfit HF; revert h.
  induction HF as [|s rest Hs HF IH]; intros h Hp Hlen p i j HB; simpl;
    [reflexivity|].
  destruct (iter_inv Nx Ny dx dy alpha dt HNx HNy Hfit s h Hs (conj Hp Hlen))
    as [Hp' Hlen'].
  rewrite IH by assumption; simpl.
  assert (Hpu : p = d_u h \/ p = d_uNew h)
    by (destruct p, (d_u h), (d_uNew h); auto; congruence).
  destruct Hpu as [->| ->].
  - rewrite launch_src by (auto using schedule_incl); reflexivity.
  - destruct HB as (Hi & Hj & Hb); unfold cell.
    apply launch_frame; auto using schedule_incl.
    destruct (row_col Ny i j Hj) as [-> ->]; unfold interior; lia.
Qed.

(** The boundary of the current field, by the parity of the number of
    steps. *)
Lemma current_boundary_parity Nx Ny dx dy alpha dt u0 junk scheds i j :
  3 <= Nx -> 3 <= Ny -> Nx * Ny <= INT_MAX ->
  Z.of_nat (length u0) = Nx * Ny ->
  Z.of_nat (length junk) = Nx * Ny ->
  Forall (schedule Nx Ny) scheds ->
  boundary Nx Ny i j ->
  cell (current (time_stepping Nx Ny dx dy alpha dt scheds (device_init u0 junk)))
       Ny i j
  = if Nat.even (length scheds) then cell u0 Ny i j else cell junk Ny i j.
Proof.
  intros HNx HNy Hfit L0 L1 HF HB.
  destruct (device_init_inv Nx Ny u0 junk L0 L1) as [Hp Hlen].
  unfold current.
  rewrite (time_stepping_boundaries Nx Ny dx dy alpha dt scheds
             (device_init u0 junk) HNx HNy Hfit HF Hp Hlen _ i j HB).
  destruct (time_stepping_pointers Nx Ny dx dy alpha dt scheds
              (device_init u0 junk)) as [-> _].
  destruct (Nat.even (length scheds)); reflexivity.
Qed.

(** X9: along the run the boundary of the current field alternates: after
    an even number of steps it holds the boundary of the initial field,
    after an odd number of steps what the allocation of the second buffer
    held there. *)
Theorem boundary_by_parity :
  forall (Nx Ny : Z) (dx dy alpha dt : R) (u0 junk : list R)
         (scheds : list (list thread)) (i j : Z),
    3 <= Nx -> 3 <= Ny -> Nx * Ny <= INT_MAX ->
    Z.of_nat (length u0) = Nx * Ny ->
    Z.of_nat (length junk) = Nx * Ny ->
    Forall (schedule Nx Ny) scheds ->
    boundary Nx Ny i j ->
    let h := time_stepping Nx Ny dx dy alpha dt scheds (device_init u0 junk) in
    cell (current h) Ny i j
    = if Nat.even (length scheds) then cell u0 Ny i j else cell junk Ny i j.
Proof.
  intros Nx Ny dx dy alpha dt u0 junk scheds i j HNx HNy Hfit L0 L1 HF HB h.
  apply current_boundary_parity; assumption.
Qed.

(** Two steps and three steps on a 3 by 3 grid. *)
Lemma boundary_by_parity_3x3 :
  let u0 := [1; 2; 3; 4; 5; 6; 7; 8; 9]%R in
  let junk := [0; 0; 0; 0; 0; 0; 0; 0; 0]%R in
  let G := grid_threads (grid 3 3) block in
  (3 <= 3 /\ 3 * 3 <= INT_MAX /\ Forall (schedule 3 3) [G; G; G] /\
   boundary 3 3 0 0) /\
  cell (current (time_stepping 3 3 1 1 1 1 [G; G] (device_init u0 junk))) 3 0 0
  = 1%R /\
  cell (current (time_stepping 3 3 1 1 1 1 [G; G; G] (device_init u0 junk))) 3 0 0
  = 0%R.
Proof.
  intros u0 junk G.
  assert (A : 3 <= 3) by lia.
  assert (B : 3 * 3 <= INT_MAX) by (unfold INT_MAX; lia).
  assert (C : Z.of_nat (length u0) = 3 * 3) by reflexivity.
  assert (D : Z.of_nat (length junk) = 3 * 3) by reflexivity.
  assert (E3 : Forall (schedule 3 3) [G; G; G])
    by (repeat constructor; apply Permutation_refl).
  assert (E2 : Forall (schedule 3 3) [G; G])
    by (repeat constructor; apply Permutation_refl).
  assert (F : boundary 3 3 0 0) by (unfold boundary; lia).
  split; [repeat split; try assumption; lia|].
  split.
  - exact (boundary_by_parity 3 3 1 1 1 1 u0 junk [G; G] 0 0 A A B C D E2 F).
  - exact (boundary_by_parity 3 3 1 1 1 1 u0 junk [G; G; G] 0 0 A A B C D E3 F).
Defined.

(** X10: the program as shipped runs an even number of steps (1000): the
    field it reads back has the Gaussian of the initial condition at every
    boundary cell, whatever the second buffer held and whatever the order
    of the threads. *)
Theorem main_field_has_initial_boundary :
  forall (argc : Z) (argv : list string) (junk : list R)
         (sched : nat -> list thread) (ms : R) (i j : Z),
    Z.of_nat (length junk) = 200 * 200 ->
    (forall n, schedule 200 200 (sched n)) ->
    boundary 200 200 i j ->
    cell (run_field (main argc argv junk sched ms)) 200 i j
    = initial_value 200 200 i j.
Proof.
  intros argc argv junk sched ms i j L1 Hs HB.
  unfold main; cbn [run_field].
  assert (A : 3 <= 200) by lia.
  assert (B : 200 * 200 <= INT_MAX) by (unfold INT_MAX; lia).
  rewrite current_boundary_parity; try assumption.
  - rewrite length_map, length_seq.
    replace (Nat.even (Z.to_nat 1000)) with true by (vm_compute; reflexivity).
    apply initial_field_cell; unfold boundary in HB; lia.
  - apply initial_field_length; lia.
  - apply Forall_forall; intros s Hin.
    apply in_map_iff in Hin; destruct Hin as (n & <- & _); apply Hs.
Qed.

(** The canonical order of the threads and a second buffer of zeros. *)
Lemma main_field_has_initial_boundary_zeros :
  let junk := repeat 0%R (Z.to_nat (200 * 200)) in
  let sched := fun _ : nat => grid_threads (grid 200 200) block in
  (Z.of_nat (length junk) = 200 * 200 /\ boundary 200 200 0 0) /\
  cell (run_field (main 1 ["./cuda_heat"%string] junk sched 1)) 200 0 0
  = initial_value 200 200 0 0.
Proof.
  intros junk sched.
  assert (L : Z.of_nat (length junk) = 200 * 200).
  { unfold junk; rewrite repeat_length; apply Z2Nat.id; lia. }
  assert (S : forall n, schedule 200 200 (sched n))
    by (intros n; apply Permutation_refl).
  assert (F : boundary 200 200 0 0) by (unfold boundary; lia).
  split; [split; assumption|].
  exact (main_field_has_initial_boundary 1 ["./cuda_heat"%string] junk sched 1
           0 0 L S F).
Defined.

End BoundaryParity.

(** ** What [main] prints *)

Section MainReport.
Import MachineInt Cuda CudaHost.
Open Scope R_scope.

(** X11: the values [main] prints: the elapsed time ms/1000 seconds, the
    throughput 1000*198*198/elapsed/1e6 = 39204/ms MLUPS, which is positive,
    and the value of cell (100,100) of the field read back. *)
Theorem main_printed_values :
  forall (argc : Z) (argv : list string) (junk : list R)
         (sched : nat -> list thread) (ms : R),
    0 < ms ->
    let r := main argc argv junk sched ms in
    map args (run_stdout r)
    = [ []; [ms / 1000]; [39204 / ms]; [cell (run_field r) 200 100 100] ] /\
    0 < 39204 / ms.
Proof.
  intros argc argv junk sched ms Hms; cbv zeta.
  split; [|apply Rdiv_lt_0_compat; lra].
  assert (E1 : ms * 1e-3 = ms / 1000) by lra.
  assert (E2 : IZR 1000 * IZR 198 * IZR 198 / (ms * 1e-3) / 1e6
               = 39204 / ms) by (field; lra).
  unfold main; cbn [run_stdout run_field].
  change (isub 200 2) with 198%Z.
  cbn [map args].
  rewrite E2, E1.
  unfold cell.
  replace (IDX (200 ÷ 2) (200 ÷ 2) 200) with (100 * 200 + 100)%Z
    by (vm_compute; reflexivity).
  reflexivity.
Qed.

(** A run measured at 12.5 ms. *)
Lemma main_printed_values_example :
  let r := main 1 ["./cuda_heat"%string] [] (fun _ => []) 12.5 in
  0 < 12.5 /\
  map args (run_stdout r)
  = [ []; [12.5 / 1000]; [39204 / 12.5]; [cell (run_field r) 200 100 100] ] /\
  0 < 39204 / 12.5.
Proof.
  intros r.
  assert (H : 0 < 12.5) by lra.
  split; [exact H|].
  exact (main_printed_values 1 ["./cuda_heat"%string] [] (fun _ => []) 12.5 H).
Defined.

End MainReport.

(* ================================================================== *)
(** * Further properties of the validation harness *)

(** ** Reductions of an array *)

Section ReductionFacts.
Import Py Np.
Open Scope R_scope.

Lemma in_ravel a v :
  In v (ravel a) <-> exists k, (k < size a)%nat /\ v = item a k.
Proof.
  unfold ravel; rewrite in_map_iff; split.
  - intros (k & <- & Hk); apply in_seq in Hk; exists k; split; [lia|reflexivity].
  - intros (k & Hk & ->); exists k; split; [reflexivity|apply in_seq; lia].
Qed.

Lemma fold_max_ge_init l x : x <= fold_left Rmax l x.
Proof.
  revert x; induction l as [|v l IH]; intros x; simpl; [lra|].
  apply Rle_trans with (Rmax x v); [apply Rmax_l|apply IH].
Qed.

Lemma fold_max_ge_elem l x v : In v l -> v <= fold_left Rmax l x.
Proof.
  revert x; induction l as [|w l IH]; intros x H; [destruct H|].
  destruct H as [->|H]; simpl.
  - apply Rle_trans with (Rmax x v); [apply Rmax_r|apply fold_max_ge_init].
  - apply IH; exact H.
Qed.

Lemma fold_max_attained l x : fold_left Rmax l x = x \/ In (fold_left Rmax l x) l.
Proof.
  revert x; induction l as [|v l IH]; intros x; simpl; [left; reflexivity|].
  destruct (IH (Rmax x v)) as [E|H]; [|right; right; exact H].
  rewrite E; unfold Rmax; destruct (Rle_dec x v); [right; left|left]; reflexivity.
Qed.

(** The maximum of an array bounds its elements and is one of them. *)
Lemma max_spec a v :
  Np.max a = Returns v ->
  (forall k, (k < size a)%nat -> item a k <= v) /\
  exists k, (k < size a)%nat /\ v = item a k.
Proof.
  unfold Np.max; intros H.
  pose proof (in_ravel a) as Hin.
  destruct (ravel a) as [|x l]; [discriminate|].
  injection H as <-; split.
  - intros k Hk.
    assert (Hi : In (item a k) (x :: l)) by (apply Hin; eauto).
    destruct Hi as [<-|Hi]; [apply fold_max_ge_init|apply fold_max_ge_elem; exact Hi].
  - apply Hin.
    destruct (fold_max_attained l x) as [->|H]; [left; reflexivity|right; exact H].
Qed.

End ReductionFacts.

(** ** Relations between the metrics *)

Section MetricRelations.
Import Py Np Harness.
Open Scope R_scope.

(** X12: max_absolute_error is the maximum of the absolute-error map: it
    bounds the absolute error of every cell and is the absolute error of
    some cell. *)
Theorem max_absolute_error_is_maximum :
  forall (reference comparison : ndarray) (name : string),
    shape reference = shape comparison ->
    (0 < size reference)%nat ->
    exists m,
      snd (calculate_errors (Some reference) (Some comparison) name)
      = Returns (Some m) /\
      (forall k, (k < size reference)%nat ->
         Rabs (item reference k - item comparison k) <= max_absolute_error m) /\
      exists k, (k < size reference)%nat /\
         max_absolute_error m = Rabs (item reference k - item comparison k).
Proof.
  intros ref cmp name Hshape Hsize.
  destruct (calculate_errors_returns ref cmp name Hshape Hsize)
    as (ma & mr & Ha & _ & E).
  cbv zeta in Ha, E; rewrite E; simpl snd.
  eexists; split; [reflexivity|]; simpl.
  exact (max_spec _ _ Ha).
Qed.

Lemma max_absolute_error_is_maximum_1x2 :
  let a := {| shape := (1, 2)%nat; item := fun k => nth k [2; 0] 0 |} in
  let b := {| shape := (1, 2)%nat; item := fun k => nth k [1; 4] 0 |} in
  (shape a = shape b /\ (0 < size a)%nat) /\
  exists m,
    snd (calculate_errors (Some a) (Some b) "cuda") = Returns (Some m) /\
    Rabs (item a 1 - item b 1) <= max_absolute_error m.
Proof.
  intros a b.
  assert (Hs : shape a = shape b) by reflexivity.
  assert (Hn : (0 < size a)%nat) by (unfold size; simpl; lia).
  split; [split; assumption|].
  destruct (max_absolute_error_is_maximum a b "cuda" Hs Hn) as (m & E & Hk & _).
  exists m; split; [exact E|].
  apply Hk; unfold size; simpl; lia.
Defined.

End MetricRelations.

(** ** Relative errors, identical data, the two computations *)

Section MetricComparisons.
Import Py Np Harness.
Open Scope R_scope.

(** X15: max_relative_error is the maximum of the relative-error map, and
    no relative error is negative: every cell's relative error lies between
    0 and max_relative_error, which is the relative error of some cell. *)
Theorem relative_errors_bounded :
  forall (reference comparison : ndarray) (name : string),
    shape reference = shape comparison ->
    (0 < size reference)%nat ->
    exists m,
      snd (calculate_errors (Some reference) (Some comparison) name)
      = Returns (Some m) /\
      (forall k, (k < size reference)%nat ->
         0 <= item (relative_errors m) k <= max_relative_error m) /\
      exists k, (k < size reference)%nat /\
         max_relative_error m = item (relative_errors m) k.
Proof.
  intros ref cmp name Hshape Hsize.
  destruct (calculate_errors_returns ref cmp name Hshape Hsize)
    as (ma & mr & _ & Hr & E).
  cbv zeta in Hr, E; rewrite E; simpl snd.
  eexists; split; [reflexivity|]; cbn [relative_errors max_relative_error].
  set (rel := divide (Np.abs (subtract ref cmp)) (Np.abs ref)
                (zeros_like (Np.abs (subtract ref cmp)))
                (greater (Np.abs ref) 1e-15)) in *.
  destruct (max_spec _ _ Hr) as [Hb Hat].
  assert (Hpos : forall k, 0 <= item rel k).
  { intros k; unfold rel, greater; simpl.
    destruct (Rlt_dec 1e-15 (Rabs (item ref k))) as [H|H]; [|lra].
    apply Rmult_le_pos; [apply Rabs_pos|].
    left; apply Rinv_0_lt_compat; lra. }
  split; [|exact Hat].
  intros k Hk; split; [apply Hpos|apply Hb; exact Hk].
Qed.

Lemma relative_errors_bounded_1x2 :
  let a := {| shape := (1, 2)%nat; item := fun k => nth k [2; 0] 0 |} in
  let b := {| shape := (1, 2)%nat; item := fun k => nth k [1; 4] 0 |} in
  (shape a = shape b /\ (0 < size a)%nat) /\
  exists m,
    snd (calculate_errors (Some a) (Some b) "cuda") = Returns (Some m) /\
    0 <= item (relative_errors m) 0 <= max_relative_error m.
Proof.
  intros a b.
  assert (Hs : shape a = shape b) by reflexivity.
  assert (Hn : (0 < size a)%nat) by (unfold size; simpl; lia).
  split; [split; assumption|].
  destruct (relative_errors_bounded a b "cuda" Hs Hn) as (m & E & H & _).
  exists m; split; [exact E|exact (H 0%nat Hn)].
Defined.

(** X16: max_absolute_error is 0 exactly when the two datasets hold the
    same value at every cell. *)
Theorem zero_error_iff_identical :
  forall (reference comparison : ndarray) (name : string),
    shape reference = shape comparison ->
    (0 < size reference)%nat ->
    exists m,
      snd (calculate_errors (Some reference) (Some comparison) name)
      = Returns (Some m) /\
      (max_absolute_error m = 0 <->
       forall k, (k < size reference)%nat -> item reference k = item comparison k).
Proof.
  intros ref cmp name Hshape Hsize.
  destruct (calculate_errors_returns ref cmp name Hshape Hsize)
    as (ma & mr & Ha & _ & E).
  cbv zeta in Ha, E; rewrite E; simpl snd.
  eexists; split; [reflexivity|]; cbn [max_absolute_error].
  destruct (max_spec _ _ Ha) as [Hb (k0 & Hk0 & Hat)].
  split.
  - intros H0 k Hk; pose proof (Hb k Hk) as B; simpl in B.
    pose proof (Rabs_pos (item ref k - item cmp k)) as P.
    assert (Z : Rabs (item ref k - item cmp k) = 0) by lra.
    destruct (Req_dec (item ref k - item cmp k) 0) as [D|D]; [lra|].
    apply Rabs_no_R0 in D; contradiction.
  - intros H; rewrite Hat; simpl; rewrite (H k0 Hk0), Rminus_diag; apply Rabs_R0.
Qed.

Lemma zero_error_iff_identical_1x2 :
  let a := {| shape := (1, 2)%nat; item := fun k => nth k [2; 0] 0 |} in
  let b := {| shape := (1, 2)%nat; item := fun k => nth k [1; 4] 0 |} in
  (shape a = shape b /\ (0 < size a)%nat) /\
  exists m,
    snd (calculate_errors (Some a) (Some b) "cuda") = Returns (Some m) /\
    max_absolute_error m <> 0.
Proof.
  intros a b.
  assert (Hs : shape a = shape b) by reflexivity.
  assert (Hn : (0 < size a)%nat) by (unfold size; simpl; lia).
  split; [split; assumption|].
  destruct (zero_error_iff_identical a b "cuda" Hs Hn) as (m & E & [H _]).
  exists m; split; [exact E|].
  intros Z.
  assert (K : (0 < size a)%nat) by exact Hn.
  pose proof (H Z 0%nat K) as F; simpl in F; lra.
Defined.

(** X18: the computation in the loop of [main] and [calculate_errors]
    agree: on datasets of one shape they give the same mse, rmse, maximum
    absolute error and absolute-error map. *)
Theorem inline_errors_agree :
  forall (reference data : ndarray) (name : string),
    shape reference = shape data ->
    (0 < size reference)%nat ->
    exists m e,
      snd (calculate_errors (Some reference) (Some data) name)
      = Returns (Some m) /\
      inline_errors reference data = Returns e /\
      e_mse e = mse m /\
      e_rmse e = rmse m /\
      e_max_absolute_error e = max_absolute_error m /\
      shape (e_absolute_error e) = shape (absolute_errors m) /\
      forall k, item (e_absolute_error e) k = item (absolute_errors m) k.
Proof.
  intros ref data name Hshape Hsize.
  destruct (calculate_errors_returns ref data name Hshape Hsize)
    as (ma & mr & Ha & _ & E).
  cbv zeta in Ha, E; rewrite E; simpl snd.
  unfold inline_errors; rewrite Ha; simpl bind.
  do 2 eexists; split; [reflexivity|split; [reflexivity|]]; simpl.
  assert (Em : mean (pow2 (subtract ref data)) = mean (square (subtract ref data))).
  { apply same_mean; split; [reflexivity|]; intros k; simpl; ring. }
  rewrite Em; repeat split; reflexivity.
Qed.

Lemma inline_errors_agree_1x2 :
  let a := {| shape := (1, 2)%nat; item := fun k => nth k [2; 0] 0 |} in
  let b := {| shape := (1, 2)%nat; item := fun k => nth k [1; 4] 0 |} in
  (shape a = shape b /\ (0 < size a)%nat) /\
  exists m e,
    snd (calculate_errors (Some a) (Some b) "cuda") = Returns (Some m) /\
    inline_errors a b = Returns e /\
    e_mse e = mse m /\ e_rmse e = rmse m /\
    e_max_absolute_error e = max_absolute_error m.
Proof.
  intros a b.
  assert (Hs : shape a = shape b) by reflexivity.
  assert (Hn : (0 < size a)%nat) by (unfold size; simpl; lia).
  split; [split; assumption|].
  destruct (inline_errors_agree a b "cuda" Hs Hn)
    as (m & e & E1 & E2 & A & B & C & _).
  exists m, e; repeat split; assumption.
Defined.

End MetricComparisons.

(** ** How a validation pass ends *)

Section PassEndings.
Import Py Np Harness HarnessMore.
Open Scope string_scope.
Open Scope list_scope.

(** With readable headers, a load of the [try] block either returns the
    array of the file or raises [AttributeError]. *)
Lemma load_and_print_readable fs filename :
  header_readable (fs filename) ->
  (exists out a, loads fs filename a /\
                 load_and_print fs filename = (out, Returns a))
  \/ (unusable (fs filename) /\
      exists out, load_and_print fs filename = (out, Raises AttributeError)).
Proof.
  unfold load_and_print, load_heat_data, header_readable, unusable, loads.
  destruct (fs filename) as [|[md|e] [msg|a]]; intros H; try contradiction.
  - right; split; [exact I|eexists; reflexivity].
  - right; split; [exact I|eexists; reflexivity].
  - left; exists [[Str "Loaded "; Str filename; Str ": Shape "; Shape (shape a)];
                  [Str "Loaded "; Str filename; Str ": Shape "; Shape (shape a)]], a.
    split; [exists md; reflexivity|reflexivity].
Qed.

(** X19: when the headers of the four files are readable and one of the
    files is missing or its table cannot be read, [main] ends with an
    uncaught [AttributeError] (its handler for [FileNotFoundError] is never
    entered) and writes no report. *)
Theorem main_ends_with_attribute_error :
  forall (fs : filesystem) (now : string) (filename : string),
    (forall f, In f result_files -> header_readable (fs f)) ->
    In filename result_files ->
    unusable (fs filename) ->
    result (main fs now) = Raises AttributeError /\
    report (main fs now) = None.
Proof.
  intros fs now filename Hr Hin Hu.
  assert (R1 : header_readable (fs "serial_heat_distribution.csv"))
    by (apply Hr; simpl; tauto).
  assert (R2 : header_readable (fs "openmp_heat_distribution.csv"))
    by (apply Hr; simpl; tauto).
  assert (R3 : header_readable (fs "cuda_heat_distribution.csv"))
    by (apply Hr; simpl; tauto).
  assert (R4 : header_readable (fs "hybrid_heat_distribution.csv"))
    by (apply Hr; simpl; tauto).
  assert (E : exists out, load_all fs = (out, Raises AttributeError)).
  { unfold load_all.
    destruct (load_and_print_readable fs _ R1)
      as [(o1 & a1 & L1 & E1)|(U1 & o1 & E1)]; rewrite E1; [|eauto].
    destruct (load_and_print_readable fs _ R2)
      as [(o2 & a2 & L2 & E2)|(U2 & o2 & E2)]; rewrite E2; [|eauto].
    destruct (load_and_print_readable fs _ R3)
      as [(o3 & a3 & L3 & E3)|(U3 & o3 & E3)]; rewrite E3; [|eauto].
    destruct (load_and_print_readable fs _ R4)
      as [(o4 & a4 & L4 & E4)|(U4 & o4 & E4)]; rewrite E4; [|eauto].
    exfalso.
    simpl in Hin; destruct Hin as [<-|[<-|[<-|[<-|[]]]]].
    - exact (loads_usable _ _ _ L1 Hu).
    - exact (loads_usable _ _ _ L2 Hu).
    - exact (loads_usable _ _ _ L3 Hu).
    - exact (loads_usable _ _ _ L4 Hu). }
  destruct E as [out E]; unfold main; rewrite E; split; reflexivity.
Qed.

Lemma main_ends_with_attribute_error_openmp :
  ((forall f, In f result_files -> header_readable (fs_openmp_missing f)) /\
   In "openmp_heat_distribution.csv" result_files /\
   unusable (fs_openmp_missing "openmp_heat_distribution.csv")) /\
  result (main fs_openmp_missing "2025-01-01 00:00:00") = Raises AttributeError.
Proof.
  assert (A : forall f, In f result_files -> header_readable (fs_openmp_missing f)).
  { intros f _; unfold fs_openmp_missing, header_readable.
    destruct (String.eqb f "openmp_heat_distribution.csv"); exact I. }
  assert (B : In "openmp_heat_distribution.csv" result_files)
    by (right; left; reflexivity).
  assert (C : unusable (fs_openmp_missing "openmp_heat_distribution.csv"))
    by exact I.
  split; [repeat split; assumption|].
  exact (proj1 (main_ends_with_attribute_error fs_openmp_missing
                  "2025-01-01 00:00:00" "openmp_heat_distribution.csv" A B C)).
Defined.

(** On an empty reference the loop raises at the first method of its
    shape. *)
Lemma error_loop_empty reference methods out acc :
  size reference = 0%nat ->
  (exists m d, In (m, d) methods /\ shape d = shape reference) ->
  exists out', error_loop reference methods out acc = (out', Raises ValueError).
Proof.
  intros Hz; revert out acc; induction methods as [|[m d] rest IH];
    intros out acc (m' & d' & Hin & Hs); [destruct Hin|].
  simpl error_loop.
  destruct (shape_eqb (shape reference) (shape d)) eqn:Hb; simpl negb; cbv iota.
  - assert (Hm : Np.max (Np.abs (subtract reference d)) = Raises ValueError).
    { unfold Np.max, ravel.
      change (size (Np.abs (subtract reference d))) with (size reference).
      rewrite Hz; reflexivity. }
    unfold inline_errors; rewrite Hm; simpl bind; eexists; reflexivity.
  - apply IH; destruct Hin as [Eq|Hin].
    + inversion Eq; subst.
      rewrite (proj2 (shape_eqb_eq _ _)) in Hb by congruence; discriminate.
    + exists m', d'; split; assumption.
Qed.

(** X20: an empty reference (a table without rows): if a comparison has
    its shape, [main] ends with the [ValueError] of [np.max] and writes no
    report. *)
Theorem main_empty_reference_raises :
  forall (fs : filesystem) (now : string) (serial openmp cuda hybrid : ndarray),
    loads fs "serial_heat_distribution.csv" serial ->
    loads fs "openmp_heat_distribution.csv" openmp ->
    loads fs "cuda_heat_distribution.csv" cuda ->
    loads fs "hybrid_heat_distribution.csv" hybrid ->
    size serial = 0%nat ->
    shape openmp = shape serial \/ shape cuda = shape serial
    \/ shape hybrid = shape serial ->
    result (main fs now) = Raises ValueError /\
    report (main fs now) = None.
Proof.
  intros fs now serial openmp cuda hybrid H1 H2 H3 H4 Hz Hs.
  destruct (load_all_loads fs _ _ _ _ H1 H2 H3 H4) as [out1 Eload].
  unfold main; rewrite Eload.
  match goal with |- context [error_loop serial ?ms ?o ?a] =>
    destruct (error_loop_empty serial ms o a Hz) as [out' E]
  end.
  { destruct Hs as [Hs|[Hs|Hs]].
    - exists "openmp", openmp; split; [left; reflexivity|exact Hs].
    - exists "cuda", cuda; split; [right; left; reflexivity|exact Hs].
    - exists "hybrid", hybrid; split; [right; right; left; reflexivity|exact Hs]. }
  rewrite E; split; reflexivity.
Qed.

Lemma main_empty_reference_raises_example :
  let empty := {| shape := (0, 3)%nat; item := fun _ => 0%R |} in
  let fs : filesystem := fun _ => Present (Returns no_metadata) (inr empty) in
  (loads fs "serial_heat_distribution.csv" empty /\ size empty = 0%nat) /\
  result (main fs "2025-01-01 00:00:00") = Raises ValueError.
Proof.
  intros empty fs.
  assert (L : forall f, loads fs f empty) by (intros f; exists no_metadata; reflexivity).
  assert (Z : size empty = 0%nat) by reflexivity.
  split; [split; [apply L|exact Z]|].
  exact (proj1 (main_empty_reference_raises fs "2025-01-01 00:00:00"
                  empty empty empty empty (L _) (L _) (L _) (L _) Z
                  (or_introl eq_refl))).
Defined.

(** The detail section of a report names the methods of [all_errors], in
    order, in upper case. *)
Lemma report_methods_generate all_errors now :
  report_methods (generate_error_report all_errors now)
  = map (fun e => upper (fst e)) all_errors.
Proof.
  unfold report_methods, generate_error_report.
  rewrite !flat_map_app.
  assert (T : forall l : all_errors_t,
             flat_map detail_method
               (flat_map (fun '(method_name, error_data) =>
                  [ [Padded "<15" method_name; Str " "];
                    [Num "<12.2e" (e_mse error_data); Str " "];
                    [Num "<12.2e" (e_rmse error_data); Str " "];
                    [Num "<12.2e" (e_max_absolute_error error_data); Str " "] ]) l)
             = []).
  { induction l as [|[m e] l IH]; simpl; [reflexivity|exact IH]. }
  assert (D : forall l : all_errors_t,
             flat_map detail_method
               (flat_map (fun '(method_name, error_data) =>
                  [ [Str "METHOD: "; Str (upper method_name); Str "\n"];
                    [Str (str_mul "-" 40); Str "\n"];
                    [Str "Mean Square Error (MSE):           ";
                     Num ".6e" (e_mse error_data); Str "\n"];
                    [Str "Root Mean Square Error (RMSE):     ";
                     Num ".6e" (e_rmse error_data); Str "\n"];
                    [Str "Maximum Absolute Error:            ";
                     Num ".6e" (e_max_absolute_error error_data); Str "\n"] ]) l)
             = map (fun e => upper (fst e)) l).
  { induction l as [|[m e] l IH]; simpl; [reflexivity|].
    f_equal; exact IH. }
  rewrite T, D.
  match goal with
  | |- flat_map detail_method ?A ++ [] ++ flat_map detail_method ?B ++ ?M
       ++ flat_map detail_method ?C = _ =>
      change (flat_map detail_method A) with (@nil string);
      change (flat_map detail_method B) with (@nil string);
      change (flat_map detail_method C) with (@nil string)
  end.
  simpl; apply app_nil_r.
Qed.

(** X21: the detail section of the report [main] writes names exactly the
    methods of the reference's shape, in the order openmp, cuda, hybrid, in
    upper case. *)
Theorem main_report_methods :
  forall (fs : filesystem) (now : string) (serial openmp cuda hybrid : ndarray),
    loads fs "serial_heat_distribution.csv" serial ->
    loads fs "openmp_heat_distribution.csv" openmp ->
    loads fs "cuda_heat_distribution.csv" cuda ->
    loads fs "hybrid_heat_distribution.csv" hybrid ->
    (0 < size serial)%nat ->
    exists rep,
      report (main fs now) = Some rep /\
      report_methods rep
      = map upper
          (map fst
             (filter (fun md => shape_eqb (shape serial) (shape (snd md)))
                [("openmp", openmp); ("cuda", cuda); ("hybrid", hybrid)])).
Proof.
  intros fs now serial openmp cuda hybrid H1 H2 H3 H4 Hn.
  destruct (main_loaded fs now serial openmp cuda hybrid H1 H2 H3 H4 Hn)
    as (out & entries & E & Hfst & _ & _).
  rewrite E; simpl report.
  eexists; split; [reflexivity|].
  rewrite report_methods_generate, <- Hfst, map_map; reflexivity.
Qed.

Lemma main_report_methods_cuda_mismatch :
  (loads fs_cuda_mismatch "serial_heat_distribution.csv" field_2x2 /\
   (0 < size field_2x2)%nat) /\
  exists rep,
    report (main fs_cuda_mismatch "2025-01-01 00:00:00") = Some rep /\
    report_methods rep = ["OPENMP"; "HYBRID"].
Proof.
  assert (L1 : loads fs_cuda_mismatch "serial_heat_distribution.csv" field_2x2)
    by (exists no_metadata; reflexivity).
  assert (L2 : loads fs_cuda_mismatch "openmp_heat_distribution.csv" field_2x2)
    by (exists no_metadata; reflexivity).
  assert (L3 : loads fs_cuda_mismatch "cuda_heat_distribution.csv" field_1x2)
    by (exists no_metadata; reflexivity).
  assert (L4 : loads fs_cuda_mismatch "hybrid_heat_distribution.csv" field_2x2)
    by (exists no_metadata; reflexivity).
  assert (Hn : (0 < size field_2x2)%nat) by (unfold size; simpl; lia).
  split; [split; assumption|].
  exact (main_report_methods fs_cuda_mismatch "2025-01-01 00:00:00"
           field_2x2 field_2x2 field_1x2 field_2x2 L1 L2 L3 L4 Hn).
Defined.

End PassEndings.

(** ** The figure *)

Section Figure.
Import Py Np Harness HarnessMore.
Open Scope list_scope.

Lemma set_axis_length i a axes : length (set_axis i a axes) = length axes.
Proof.
  revert i; induction axes as [|h t IH]; intros [|i]; simpl; auto.
Qed.

Lemma set_axis_app pre a r rest :
  set_axis (length pre) a (pre ++ r :: rest) = pre ++ a :: rest.
Proof.
  induction pre as [|h pre IH]; simpl; [reflexivity|rewrite IH; reflexivity].
Qed.

(** The error map of an entry, as the loop draws it. *)
Let drawn (e : string * error_data) : axis :=
  ErrorMap (String.append "Absolute Error: " (upper (fst e)))
           (e_absolute_error (snd e)).

Lemma plot_loop_spec all_errors pre rest :
  (length all_errors <= length rest)%nat ->
  plot_loop all_errors (pre ++ rest) (length pre)
  = (pre ++ map drawn all_errors ++ skipn (length all_errors) rest,
     (length pre + length all_errors)%nat).
Proof.
  revert pre rest; induction all_errors as [|[m d] l IH]; intros pre rest Hl.
  - simpl; rewrite Nat.add_0_r; reflexivity.
  - destruct rest as [|r rest]; [simpl in Hl; lia|].
    simpl plot_loop.
    destruct (Nat.leb_spec (length (pre ++ r :: rest)) (length pre)) as [H|H];
      [rewrite length_app in H; simpl in H; lia|].
    transitivity (plot_loop l ((pre ++ [drawn (m, d)]) ++ rest)
                    (length (pre ++ [drawn (m, d)]))).
    { f_equal.
      - rewrite set_axis_app, <- app_assoc; reflexivity.
      - rewrite length_app; simpl; lia. }
    rewrite IH by (simpl in Hl; lia).
    rewrite <- app_assoc, length_app; simpl.
    f_equal; lia.
Qed.

Lemma hide_unused_spec pre rest :
  hide_unused (pre ++ rest) (length pre) = pre ++ repeat Hidden (length rest).
Proof.
  unfold hide_unused.
  replace (length (pre ++ rest) - length pre)%nat with (length rest)
    by (rewrite length_app; lia).
  revert pre; induction rest as [|r rest IH]; intros pre; simpl; [reflexivity|].
  transitivity (fold_left (fun axes i => set_axis i Hidden axes)
                  (seq (length (pre ++ [Hidden])) (length rest))
                  ((pre ++ [Hidden]) ++ rest)).
  { f_equal.
    - rewrite length_app; simpl; f_equal; lia.
    - rewrite set_axis_app, <- app_assoc; reflexivity. }
  rewrite IH, <- app_assoc; reflexivity.
Qed.

Lemma figure_axes_count n :
  ((1 + n + 2 - 1) / 2 * 2 = 1 + n + (if Nat.even n then 1 else 0))%nat.
Proof.
  destruct (Nat.even n) eqn:E.
  - apply Nat.even_spec in E; destruct E as [k ->].
    replace (1 + 2 * k + 2 - 1)%nat with ((k + 1) * 2)%nat by lia.
    rewrite Nat.div_mul by lia; lia.
  - assert (O : Nat.odd n = true) by (rewrite <- Nat.negb_even, E; reflexivity).
    apply Nat.odd_spec in O; destruct O as [k ->].
    replace (1 + (2 * k + 1) + 2 - 1)%nat with (1 + (k + 1) * 2)%nat by lia.
    rewrite Nat.div_add by lia; simpl; lia.
Qed.

(** X22: the figure has room for every plot: the first axis shows the
    reference, the next ones the error maps of all the methods of
    [all_errors] in order (the loop never stops early), and the one axis
    left over, when the number of methods is even, is hidden. *)
Theorem figure_shows_every_method :
  forall (all_errors : all_errors_t) (reference_data : ndarray),
    create_error_visualizations all_errors reference_data
    = Reference reference_data
      :: map (fun e => ErrorMap (String.append "Absolute Error: " (upper (fst e)))
                                (e_absolute_error (snd e))) all_errors
      ++ (if Nat.even (length all_errors) then [Hidden] else []).
Proof.
  intros all_errors ref; unfold create_error_visualizations.
  rewrite figure_axes_count.
  set (h := if Nat.even (length all_errors) then 1%nat else 0%nat).
  change (1 + length all_errors + h)%nat with (S (length all_errors + h)).
  simpl repeat; simpl set_axis.
  change (Reference ref :: repeat Blank (length all_errors + h))
    with ([Reference ref] ++ repeat Blank (length all_errors + h)).
  change 1%nat with (length [Reference ref]) at 1.
  rewrite plot_loop_spec by (rewrite repeat_length; lia).
  rewrite repeat_app, skipn_app, repeat_length, Nat.sub_diag.
  rewrite skipn_all2 by (rewrite repeat_length; lia).
  simpl skipn; simpl app at 2.
  rewrite app_assoc.
  replace (length [Reference ref] + length all_errors)%nat
    with (length ([Reference ref] ++ map drawn all_errors))
    by (rewrite length_app, length_map; reflexivity).
  rewrite hide_unused_spec, repeat_length.
  unfold h; destruct (Nat.even (length all_errors)); reflexivity.
Qed.

End Figure.

(* ================================================================== *)
(** * Further properties of the front-end *)

(** ** Strings *)

Section StringFacts.
Import Demo DemoMore.
Open Scope string_scope.

Lemma lacks_app c a b : lacks c (a ++ b) = lacks c a && lacks c b.
Proof.
  induction a as [|d a IH]; simpl; [reflexivity|].
  rewrite IH, andb_assoc; reflexivity.
Qed.

Lemma lacks_head c d s : lacks c (String d s) = true -> d <> c /\ lacks c s = true.
Proof.
  simpl; intros H; apply andb_true_iff in H; destruct H as [H1 H2].
  split; [|exact H2].
  intros ->; rewrite Ascii.eqb_refl in H1; discriminate.
Qed.

Lemma prefix_cons c d s t :
  String.prefix (String c s) (String d t)
  = Ascii.eqb c d && String.prefix s t.
Proof.
  simpl; destruct (ascii_dec c d) as [->|N].
  - rewrite Ascii.eqb_refl; reflexivity.
  - destruct (Ascii.eqb_spec c d); [contradiction|reflexivity].
Qed.

(** A needle that ends with a colon is not the start of a text without
    colon. *)
Lemma prefix_lacks k b :
  lacks ":" b = true -> String.prefix (k ++ ":") b = false.
Proof.
  revert b; induction k as [|c k IH]; intros [|d b] H; try reflexivity.
  - change ("" ++ ":") with (String ":" ""); rewrite prefix_cons.
    destruct (lacks_head _ _ _ H) as [N _].
    destruct (Ascii.eqb_spec ":" d); [congruence|reflexivity].
  - change (String c k ++ ":") with (String c (k ++ ":")); rewrite prefix_cons.
    destruct (lacks_head _ _ _ H) as [_ L].
    rewrite (IH b L), andb_false_r; reflexivity.
Qed.

Lemma contains_unfold n line :
  contains n line
  = String.prefix n line
    || match line with
       | EmptyString => false
       | String _ rest => contains n rest
       end.
Proof. destruct line; reflexivity. Qed.

Lemma contains_lacks k b :
  lacks ":" b = true -> contains (k ++ ":") b = false.
Proof.
  induction b as [|d b IH]; intros H; rewrite contains_unfold.
  - rewrite prefix_lacks by exact H; reflexivity.
  - rewrite prefix_lacks by exact H.
    destruct (lacks_head _ _ _ H) as [_ L]; rewrite IH by exact L; reflexivity.
Qed.

Lemma prefix_key k a b :
  lacks ":" k = true -> lacks ":" a = true ->
  String.prefix (k ++ ":") (a ++ String ":" b) = String.eqb k a.
Proof.
  revert a; induction k as [|c k IH]; intros [|d a] Hk Ha.
  - simpl; destruct (ascii_dec ":" ":"); [destruct b; reflexivity|congruence].
  - change ("" ++ ":") with (String ":" "").
    change (String d a ++ String ":" b) with (String d (a ++ String ":" b)).
    rewrite prefix_cons.
    destruct (lacks_head _ _ _ Ha) as [N _].
    destruct (Ascii.eqb_spec ":" d); [congruence|reflexivity].
  - change (String c k ++ ":") with (String c (k ++ ":")).
    change ("" ++ String ":" b) with (String ":" b); rewrite prefix_cons.
    destruct (lacks_head _ _ _ Hk) as [N _].
    destruct (Ascii.eqb_spec c ":"); [congruence|reflexivity].
  - change (String c k ++ ":") with (String c (k ++ ":")).
    change (String d a ++ String ":" b) with (String d (a ++ String ":" b)).
    rewrite prefix_cons.
    destruct (lacks_head _ _ _ Hk) as [_ Lk].
    destruct (lacks_head _ _ _ Ha) as [_ La].
    rewrite (IH a Lk La); reflexivity.
Qed.

(** In a line [a:b] without other colon, a key followed by a colon is found
    exactly when [a] ends with the key. *)
Lemma contains_key k a b :
  lacks ":" k = true -> lacks ":" a = true -> lacks ":" b = true ->
  contains (k ++ ":") (a ++ String ":" b) = ends_with a k.
Proof.
  intros Hk Ha Hb; induction a as [|d a IH].
  - rewrite contains_unfold, prefix_key by assumption.
    change ("" ++ String ":" b) with (String ":" b); cbv iota.
    rewrite contains_lacks by exact Hb.
    simpl ends_with; rewrite String.eqb_sym; reflexivity.
  - rewrite contains_unfold, prefix_key by assumption.
    change (String d a ++ String ":" b) with (String d (a ++ String ":" b)).
    cbv iota.
    destruct (lacks_head _ _ _ Ha) as [_ La].
    rewrite (IH La).
    simpl ends_with; rewrite String.eqb_sym; reflexivity.
Qed.

Lemma split_nonempty c s : split c s <> nil.
Proof.
  destruct s as [|d s]; simpl; [discriminate|].
  destruct (Ascii.eqb d c); [discriminate|].
  destruct (split c s); discriminate.
Qed.

Lemma split_lacks c s : lacks c s = true -> split c s = s :: nil.
Proof.
  induction s as [|d s IH]; intros H; [reflexivity|].
  destruct (lacks_head _ _ _ H) as [N L]; simpl.
  destruct (Ascii.eqb_spec d c); [contradiction|].
  rewrite (IH L); reflexivity.
Qed.

Lemma split_app c a b :
  lacks c a = true -> split c (a ++ String c b) = a :: split c b.
Proof.
  induction a as [|d a IH]; intros H.
  - simpl; rewrite Ascii.eqb_refl; reflexivity.
  - destruct (lacks_head _ _ _ H) as [N L].
    change (String d a ++ String c b) with (String d (a ++ String c b)).
    simpl; destruct (Ascii.eqb_spec d c); [contradiction|].
    rewrite (IH L); reflexivity.
Qed.

Lemma split_has_two c s :
  lacks c s = false -> (2 <= length (split c s))%nat.
Proof.
  induction s as [|d s IH]; intros H; [discriminate|].
  simpl in H; simpl split.
  destruct (Ascii.eqb_spec d c) as [->|N].
  - pose proof (split_nonempty c s).
    destruct (split c s); [contradiction|simpl; lia].
  - simpl in H; specialize (IH H).
    destruct (split c s) as [|w ws]; simpl in *; lia.
Qed.

Lemma split_unlines ls :
  Forall (fun l => lacks newline l = true) ls ->
  split newline (unlines ls) = (ls ++ "" :: nil)%list.
Proof.
  induction 1 as [|l ls Hl _ IH]; [reflexivity|].
  simpl unlines; rewrite split_app by exact Hl; rewrite IH; reflexivity.
Qed.

(** X23: the front-end never indexes past the fields of a line: whenever a
    line holds a key followed by a colon, [line.split(":")] has a second
    field. *)
Theorem key_line_has_value :
  forall (key line : string),
    contains (key ++ ":") line = true ->
    (2 <= length (split ":" line))%nat.
Proof.
  intros key line H; apply split_has_two.
  destruct (lacks ":" line) eqn:L; [|reflexivity].
  rewrite contains_lacks in H by exact L; discriminate.
Qed.

Lemma key_line_has_value_example :
  contains ("Time" ++ ":") "Time: 0.5" = true /\
  (2 <= length (split ":" "Time: 0.5"))%nat.
Proof.
  assert (H : contains ("Time" ++ ":") "Time: 0.5" = true) by reflexivity.
  split; [exact H|exact (key_line_has_value "Time" "Time: 0.5" H)].
Defined.

End StringFacts.

(** ** Reading an output *)

Section ReadingOutputs.
Import Demo DemoMore.
Open Scope string_scope.

Lemma plain_parts v :
  plain v = true ->
  lacks ":" v = true /\ lacks newline v = true /\ strip v = v.
Proof.
  unfold plain; intros H.
  apply andb_true_iff in H; destruct H as [H H3].
  apply andb_true_iff in H; destruct H as [H1 H2].
  apply String.eqb_eq in H3; auto.
Qed.

(** A key test on a line of the contract. *)
Lemma key_test k key v :
  lacks ":" k = true -> lacks ":" key = true -> plain v = true ->
  contains (k ++ ":") (key_line key v) = ends_with key k.
Proof.
  intros Hk Hkey Hv; destruct (plain_parts v Hv) as (L & _ & _).
  change (key_line key v) with (key ++ String ":" (String " " v)).
  apply contains_key; auto.
Qed.

(** The value the front-end reads from a line of the contract. *)
Lemma value_of_key_line key v :
  lacks ":" key = true -> plain v = true -> value_of (key_line key v) = v.
Proof.
  intros Hkey Hv; destruct (plain_parts v Hv) as (L & _ & S).
  unfold value_of.
  change (key_line key v) with (key ++ String ":" (String " " v)).
  rewrite split_app by exact Hkey.
  rewrite split_lacks by (simpl; exact L).
  simpl nth; unfold strip; simpl lstrip; exact S.
Qed.

Lemma key_line_lacks_newline key v :
  lacks newline key = true -> plain v = true ->
  lacks newline (key_line key v) = true.
Proof.
  intros Hkey Hv; destruct (plain_parts v Hv) as (_ & L & _).
  unfold key_line; rewrite !lacks_app, Hkey, L; reflexivity.
Qed.

(** One line of the contract sets its own entry and no other. *)
Ltac read_key_line :=
  unfold parse_line;
  repeat match goal with
  | |- context [contains ?n (key_line ?key ?v)] =>
      match n with
      | "Implementation:" => change n with ("Implementation" ++ ":")
      | "Threads:" => change n with ("Threads" ++ ":")
      | "GridSize:" => change n with ("GridSize" ++ ":")
      | "TimeSteps:" => change n with ("TimeSteps" ++ ":")
      | "Time:" => change n with ("Time" ++ ":")
      | "Throughput:" => change n with ("Throughput" ++ ":")
      | "CenterValue:" => change n with ("CenterValue" ++ ":")
      end;
      rewrite key_test by (assumption || reflexivity)
  end;
  cbn [ends_with String.eqb Ascii.eqb Bool.eqb orb andb];
  rewrite ?value_of_key_line by (assumption || reflexivity).

Lemma parse_line_Implementation m v :
  plain v = true ->
  parse_line m (key_line "Implementation" v)
  = {| Implementation := v;
       Threads := Threads m;
       GridSize := GridSize m;
       TimeSteps := TimeSteps m;
       Time := Time m;
       Throughput := Throughput m;
       CenterValue := CenterValue m |}.
Proof. intros Hv; read_key_line; reflexivity. Qed.

Lemma parse_line_Threads m v :
  plain v = true ->
  parse_line m (key_line "Threads" v)
  = {| Implementation := Implementation m;
       Threads := v;
       GridSize := GridSize m;
       TimeSteps := TimeSteps m;
       Time := Time m;
       Throughput := Throughput m;
       CenterValue := CenterValue m |}.
Proof. intros Hv; read_key_line; reflexivity. Qed.

Lemma parse_line_GridSize m v :
  plain v = true ->
  parse_line m (key_line "GridSize" v)
  = {| Implementation := Implementation m;
       Threads := Threads m;
       GridSize := v;
       TimeSteps := TimeSteps m;
       Time := Time m;
       Throughput := Throughput m;
       CenterValue := CenterValue m |}.
Proof. intros Hv; read_key_line; reflexivity. Qed.

Lemma parse_line_TimeSteps m v :
  plain v = true ->
  parse_line m (key_line "TimeSteps" v)
  = {| Implementation := Implementation m;
       Threads := Threads m;
       GridSize := GridSize m;
       TimeSteps := v;
       Time := Time m;
       Throughput := Throughput m;
       CenterValue := CenterValue m |}.
Proof. intros Hv; read_key_line; reflexivity. Qed.

Lemma parse_line_Time m v :
  plain v = true ->
  parse_line m (key_line "Time" v)
  = {| Implementation := Implementation m;
       Threads := Threads m;
       GridSize := GridSize m;
       TimeSteps := TimeSteps m;
       Time := v;
       Throughput := Throughput m;
       CenterValue := CenterValue m |}.
Proof. intros Hv; read_key_line; reflexivity. Qed.

Lemma parse_line_Throughput m v :
  plain v = true ->
  parse_line m (key_line "Throughput" v)
  = {| Implementation := Implementation m;
       Threads := Threads m;
       GridSize := GridSize m;
       TimeSteps := TimeSteps m;
       Time := Time m;
       Throughput := v;
       CenterValue := CenterValue m |}.
Proof. intros Hv; read_key_line; reflexivity. Qed.

Lemma parse_line_CenterValue m v :
  plain v = true ->
  parse_line m (key_line "CenterValue" v)
  = {| Implementation := Implementation m;
       Threads := Threads m;
       GridSize := GridSize m;
       TimeSteps := TimeSteps m;
       Time := Time m;
       Throughput := Throughput m;
       CenterValue := v |}.
Proof. intros Hv; read_key_line; reflexivity. Qed.

Ltac read_entries :=
  cbn [Implementation Threads GridSize TimeSteps Time Throughput CenterValue].

(** X24: the front-end reads back an output that follows the contract:
    from the seven lines [Key: value] it recovers the seven values. *)
Theorem parse_and_visualize_round_trip :
  forall (v1 v2 v3 v4 v5 v6 v7 implementation grid_size : string),
    plain v1 = true -> plain v2 = true -> plain v3 = true ->
    plain v4 = true -> plain v5 = true -> plain v6 = true ->
    plain v7 = true ->
    parse_and_visualize (contract_output v1 v2 v3 v4 v5 v6 v7)
                        implementation grid_size
    = {| Implementation := v1; Threads := v2; GridSize := v3;
         TimeSteps := v4; Time := v5; Throughput := v6; CenterValue := v7 |}.
Proof.
  intros v1 v2 v3 v4 v5 v6 v7 implementation grid_size H1 H2 H3 H4 H5 H6 H7.
  unfold parse_and_visualize, contract_output.
  rewrite split_unlines
    by (repeat constructor; apply key_line_lacks_newline;
        (assumption || reflexivity)).
  cbn [app fold_left].
  rewrite parse_line_Implementation by exact H1; read_entries.
  rewrite parse_line_Threads by exact H2; read_entries.
  rewrite parse_line_GridSize by exact H3; read_entries.
  rewrite parse_line_TimeSteps by exact H4; read_entries.
  rewrite parse_line_Time by exact H5; read_entries.
  rewrite parse_line_Throughput by exact H6; read_entries.
  rewrite parse_line_CenterValue by exact H7; read_entries.
  reflexivity.
Qed.

Lemma parse_and_visualize_round_trip_example :
  (plain "CUDA" = true /\ plain "0.012345" = true) /\
  parse_and_visualize
    (contract_output "CUDA" "256" "50x50" "100" "0.012345" "18.66" "0.834521")
    "CUDA" "50"
  = {| Implementation := "CUDA"; Threads := "256"; GridSize := "50x50";
       TimeSteps := "100"; Time := "0.012345"; Throughput := "18.66";
       CenterValue := "0.834521" |}.
Proof.
  split; [split; reflexivity|].
  exact (parse_and_visualize_round_trip
           "CUDA" "256" "50x50" "100" "0.012345" "18.66" "0.834521" "CUDA" "50"
           eq_refl eq_refl eq_refl eq_refl eq_refl eq_refl eq_refl).
Defined.

End ReadingOutputs.

(** ** The output of the CUDA program, read by the front-end *)

Section ReadingCuda.
Import Demo DemoMore.
Open Scope string_scope.

(** A line [a:b] whose part before the colon ends with none of the keys
    changes no entry. *)
Lemma parse_line_no_key a b m :
  lacks ":" a = true -> lacks ":" b = true ->
  forallb (fun k => negb (ends_with a k)) keys = true ->
  parse_line m (a ++ String ":" b) = m.
Proof.
  intros Ha Hb Hk; unfold keys in Hk; simpl forallb in Hk.
  repeat (apply andb_true_iff in Hk; destruct Hk as [?K Hk]).
  repeat match goal with H : negb _ = true |- _ =>
    apply negb_true_iff in H end.
  unfold parse_line.
  change "Implementation:" with ("Implementation" ++ ":").
  change "Threads:" with ("Threads" ++ ":").
  change "GridSize:" with ("GridSize" ++ ":").
  change "TimeSteps:" with ("TimeSteps" ++ ":").
  change "Time:" with ("Time" ++ ":").
  change "Throughput:" with ("Throughput" ++ ":").
  change "CenterValue:" with ("CenterValue" ++ ":").
  rewrite !contains_key by (assumption || reflexivity).
  repeat match goal with H : ends_with a _ = false |- _ => rewrite H; clear H end.
  reflexivity.
Qed.

(** X25: whatever digits the CUDA program prints for its three numbers,
    the front-end reads no value from its output: every entry keeps its
    default. *)
Theorem cuda_output_gives_defaults :
  forall (time throughput center implementation grid_size : string),
    lacks ":" time = true -> lacks newline time = true ->
    lacks ":" throughput = true -> lacks newline throughput = true ->
    lacks ":" center = true -> lacks newline center = true ->
    parse_and_visualize (cuda_output time throughput center)
                        implementation grid_size
    = {| Implementation := implementation; Threads := "N/A";
         GridSize := grid_size ++ "x" ++ grid_size;
         TimeSteps := "N/A"; Time := "N/A"; Throughput := "N/A";
         CenterValue := "N/A" |}.
Proof.
  intros t p c implementation grid_size Ct Nt Cp Np Cc Nc.
  unfold parse_and_visualize, cuda_output.
  rewrite split_unlines.
  2:{ repeat constructor; rewrite ?lacks_app, ?Nt, ?Np, ?Nc; reflexivity. }
  cbn [app fold_left].
  change "CUDA run (GPU):" with ("CUDA run (GPU)" ++ String ":" "").
  change ("  Time           : " ++ t ++ " s")
    with ("  Time           " ++ String ":" (" " ++ t ++ " s")).
  change ("  Throughput     : " ++ p ++ " MLUPS")
    with ("  Throughput     " ++ String ":" (" " ++ p ++ " MLUPS")).
  change ("  u_center (mid) : " ++ c)
    with ("  u_center (mid) " ++ String ":" (" " ++ c)).
  rewrite !parse_line_no_key;
    try reflexivity; rewrite ?lacks_app, ?Ct, ?Cp, ?Cc; reflexivity.
Qed.

Lemma cuda_output_gives_defaults_example :
  (lacks ":" "0.012345" = true /\ lacks newline "3175.70" = true) /\
  parse_and_visualize (cuda_output "0.012345" "3175.70" "0.834521") "CUDA" "50"
  = {| Implementation := "CUDA"; Threads := "N/A"; GridSize := "50x50";
       TimeSteps := "N/A"; Time := "N/A"; Throughput := "N/A";
       CenterValue := "N/A" |}.
Proof.
  split; [split; reflexivity|].
  exact (cuda_output_gives_defaults "0.012345" "3175.70" "0.834521" "CUDA" "50"
           eq_refl eq_refl eq_refl eq_refl eq_refl eq_refl).
Defined.

End ReadingCuda.

(* ================================================================== *)
(** * Further properties of the loader *)

Section HeaderFacts.
Import Py Np Harness Demo DemoMore HeaderReader.
Open Scope string_scope.

Variable py_int : string -> outcome Z.
Variable py_float : string -> outcome R.

Lemma lstrip_length s : (String.length (lstrip s) <= String.length s)%nat.
Proof.
  induction s as [|c s IH]; simpl; [lia|].
  destruct (is_space c); simpl; lia.
Qed.

Lemma rstrip_length s : (String.length (rstrip s) <= String.length s)%nat.
Proof.
  induction s as [|c s IH]; simpl; [lia|].
  destruct (rstrip s); [destruct (is_space c)|]; simpl in *; lia.
Qed.

(** A value without white space around is left alone by both strips. *)
Lemma strip_fixed v : strip v = v -> lstrip v = v /\ rstrip v = v.
Proof.
  unfold strip; intros H.
  assert (L : lstrip v = v).
  { destruct v as [|c v]; [reflexivity|].
    simpl in *; destruct (is_space c); [|reflexivity].
    pose proof (rstrip_length (lstrip v)) as A.
    pose proof (lstrip_length v) as B.
    rewrite H in A; simpl in A; lia. }
  rewrite L in H; auto.
Qed.

Lemma rstrip_newline s : rstrip (s ++ String newline "") = rstrip s.
Proof.
  induction s as [|c s IH]; [reflexivity|].
  change (String c s ++ String newline "") with (String c (s ++ String newline "")).
  simpl; rewrite IH; reflexivity.
Qed.

Lemma lstrip_newline v :
  lstrip v = v -> rstrip (lstrip (v ++ String newline "")) = rstrip v.
Proof.
  destruct v as [|c v]; [reflexivity|].
  intros H.
  change (String c v ++ String newline "") with (String c (v ++ String newline "")).
  simpl in H; simpl lstrip.
  destruct (is_space c).
  - pose proof (lstrip_length v) as B; rewrite H in B; simpl in B; lia.
  - change (String c (v ++ String newline ""))
      with (String c v ++ String newline "").
    apply rstrip_newline.
Qed.

(** A key test on a header line. *)
Lemma header_key_test k key v :
  lacks ":" k = true -> lacks ":" key = true -> plain v = true ->
  contains (k ++ ":") (header_line key v) = ends_with ("# " ++ key) k.
Proof.
  intros Hk Hkey Hv; destruct (plain_parts v Hv) as (L & _ & _).
  change (header_line key v)
    with (("# " ++ key) ++ String ":" (String " " (v ++ String newline ""))).
  apply contains_key; auto.
  simpl; rewrite lacks_app, L; reflexivity.
Qed.

Lemma value_of_header_line key v :
  lacks ":" key = true -> plain v = true -> value_of (header_line key v) = v.
Proof.
  intros Hkey Hv; destruct (plain_parts v Hv) as (L & _ & S).
  destruct (strip_fixed v S) as [Sl Sr].
  unfold value_of.
  change (header_line key v)
    with (("# " ++ key) ++ String ":" (String " " (v ++ String newline ""))).
  rewrite split_app by (simpl; exact Hkey).
  rewrite split_lacks by (simpl; rewrite lacks_app, L; reflexivity).
  simpl nth; unfold strip; simpl lstrip.
  rewrite lstrip_newline by exact Sl; exact Sr.
Qed.

Ltac read_header_line :=
  repeat match goal with
  | |- context [contains ?n (header_line ?key ?v)] =>
      match n with
      | "Grid Size:" => change n with ("Grid Size" ++ ":")
      | "Time Steps:" => change n with ("Time Steps" ++ ":")
      | "Final Time:" => change n with ("Final Time" ++ ":")
      | "Threads:" => change n with ("Threads" ++ ":")
      end;
      rewrite header_key_test by (assumption || reflexivity)
  end;
  cbn [ends_with String.eqb Ascii.eqb Bool.eqb orb andb append];
  rewrite ?value_of_header_line by (assumption || reflexivity).

(** One header line at a time. *)
Lemma read_header_grid_size v rest md :
  plain v = true ->
  read_header py_int py_float (header_line "Grid Size" v :: rest) md
  = read_header py_int py_float rest
      {| grid_size := Some v; time_steps := time_steps md;
         final_time := final_time md; threads := threads md |}.
Proof.
  intros Hv; cbn [read_header].
  change (String.prefix "#" (header_line "Grid Size" v)) with true.
  cbv iota; read_header_line; reflexivity.
Qed.

Lemma read_header_time_steps v rest md :
  plain v = true ->
  read_header py_int py_float (header_line "Time Steps" v :: rest) md
  = bind (py_int v) (fun n =>
    read_header py_int py_float rest
      {| grid_size := grid_size md; time_steps := Some n;
         final_time := final_time md; threads := threads md |}).
Proof.
  intros Hv; cbn [read_header].
  change (String.prefix "#" (header_line "Time Steps" v)) with true.
  cbv iota; read_header_line; reflexivity.
Qed.

Lemma read_header_final_time v rest md :
  plain v = true ->
  read_header py_int py_float (header_line "Final Time" v :: rest) md
  = bind (py_float v) (fun t =>
    read_header py_int py_float rest
      {| grid_size := grid_size md; time_steps := time_steps md;
         final_time := Some t; threads := threads md |}).
Proof.
  intros Hv; cbn [read_header].
  change (String.prefix "#" (header_line "Final Time" v)) with true.
  cbv iota; read_header_line; reflexivity.
Qed.

Lemma read_header_threads v rest md :
  plain v = true ->
  read_header py_int py_float (header_line "Threads" v :: rest) md
  = bind (py_int v) (fun n =>
    read_header py_int py_float rest
      {| grid_size := grid_size md; time_steps := time_steps md;
         final_time := final_time md; threads := Some n |}).
Proof.
  intros Hv; cbn [read_header].
  change (String.prefix "#" (header_line "Threads" v)) with true.
  cbv iota; read_header_line; reflexivity.
Qed.

Lemma read_header_data line rest md :
  String.prefix "#" line = false ->
  read_header py_int py_float (line :: rest) md = Returns md.
Proof. intros H; cbn [read_header]; rewrite H; reflexivity. Qed.

Ltac read_fields := cbn [bind grid_size time_steps final_time threads].

(** X26: the loader reads the four header fields and stops at the first
    line that is not a comment: from the header lines [# Grid Size: g],
    [# Time Steps: n], [# Final Time: t], [# Threads: k] followed by a data
    line and anything else, it returns g and what [int] and [float] make
    of n, t and k. *)
Theorem header_fields_read :
  forall (g n t k : string) (steps thr : Z) (time : R)
         (data_line : string) (rest : list string),
    plain g = true -> plain n = true -> plain t = true -> plain k = true ->
    py_int n = Returns steps -> py_float t = Returns time ->
    py_int k = Returns thr ->
    String.prefix "#" data_line = false ->
    header_of py_int py_float
      (header_line "Grid Size" g :: header_line "Time Steps" n
       :: header_line "Final Time" t :: header_line "Threads" k
       :: data_line :: rest)
    = Returns {| grid_size := Some g; time_steps := Some steps;
                 final_time := Some time; threads := Some thr |}.
Proof.
  intros g n t k steps thr time data_line rest Hg Hn Ht Hk En Et Ek Hd.
  unfold header_of.
  rewrite read_header_grid_size by exact Hg; read_fields.
  rewrite read_header_time_steps, En by exact Hn; read_fields.
  rewrite read_header_final_time, Et by exact Ht; read_fields.
  rewrite read_header_threads, Ek by exact Hk; read_fields.
  rewrite read_header_data by exact Hd.
  reflexivity.
Qed.

(** X27: a header value that [int] rejects makes the loader raise
    [ValueError]: the exception leaves [load_heat_data], whose [try] only
    covers the reading of the table. *)
Theorem header_value_error_escapes :
  forall (fs : filesystem) (filename : string) (n : string)
         (lines : list string) (table : string + ndarray),
    plain n = true ->
    py_int n = Raises ValueError ->
    fs filename
    = Present (header_of py_int py_float (header_line "Time Steps" n :: lines))
              table ->
    load_heat_data fs filename = (nil, Raises ValueError).
Proof.
  intros fs filename n lines table Hn En Hf.
  unfold load_heat_data; rewrite Hf.
  unfold header_of.
  rewrite read_header_time_steps, En by exact Hn.
  reflexivity.
Qed.

End HeaderFacts.

Section HeaderWitnesses.
Import Py Np Harness Demo DemoMore HeaderReader.
Open Scope string_scope.

Lemma header_fields_read_example :
  (plain "200 x 200" = true /\ int_example "1000" = Returns 1000%Z /\
   String.prefix "#" "x,y" = false) /\
  header_of int_example float_example
    (header_line "Grid Size" "200 x 200" :: header_line "Time Steps" "1000"
     :: header_line "Final Time" "2.5" :: header_line "Threads" "4"
     :: "x,y" :: "0.1,0.2" :: nil)
  = Returns {| grid_size := Some "200 x 200"; time_steps := Some 1000%Z;
               final_time := Some 2.5%R; threads := Some 4%Z |}.
Proof.
  split; [repeat split; reflexivity|].
  exact (header_fields_read int_example float_example
           "200 x 200" "1000" "2.5" "4" 1000%Z 4%Z 2.5%R "x,y" ("0.1,0.2" :: nil)
           eq_refl eq_refl eq_refl eq_refl eq_refl eq_refl eq_refl eq_refl).
Defined.

Lemma header_value_error_escapes_example :
  let fs : filesystem := fun _ =>
    Present (header_of int_example float_example
               (header_line "Time Steps" "many" :: nil))
            (inr field_2x2) in
  (plain "many" = true /\ int_example "many" = Raises ValueError) /\
  load_heat_data fs "cuda_heat_distribution.csv" = (nil, Raises ValueError).
Proof.
  intros fs.
  split; [split; reflexivity|].
  exact (header_value_error_escapes int_example float_example fs
           "cuda_heat_distribution.csv" "many" nil (inr field_2x2)
           eq_refl eq_refl eq_refl).
Defined.

End HeaderWitnesses.
